(** * The Leap cube-reorientation task of mujoco_mpc (mjpc/tasks/leap/leap.cc)

    A shallow embedding of [Leap::ResidualFn::Residual],
    [Leap::TransitionLocked] and [Leap::ModifyState], and the properties
    of the task's specification stated over it.

    Conventions of the embedding.
    - A C++ [double] is a real number: arithmetic is exact, there is no
      rounding, infinity or NaN.  The one place where the source can
      produce a NaN from the finite values it is given, [std::acos]
      outside [-1, 1], is modelled by an [option]; the square roots of
      the continuous sampler are taken of uniform variates of [0, 1).
    - A [double*] buffer ([qpos], [sensordata], ...) is a map from offsets
      to reals; [std::vector<double>] values that are resized, queued or
      copied as a whole are lists.
    - An [int] is an integer of [Z]; the comparison of a [size_t] with an
      [int] converts the [int] modulo 2^64 as the C++ rules say.
    - The random generator and the steady clock are inputs: the values
      their successive calls return are arguments of the step functions.
    - Console output and the mutex are not represented. *)

From Stdlib Require Import Reals Lra Lia ZArith String Bool List Machin.
Import ListNotations.
Open Scope R_scope.

(** ** Comparisons of doubles as booleans *)

Definition Rltb (x y : R) : bool := if Rlt_dec x y then true else false.
Definition Rgtb (x y : R) : bool := if Rgt_dec x y then true else false.
Definition Rgeb (x y : R) : bool := if Rge_dec x y then true else false.
Definition Reqb0 (x : R) : bool := if Req_dec_T x 0 then true else false.

(** ** MuJoCo utility functions used by the task *)

Record Quat : Type := mkQuat { q0 : R; q1 : R; q2 : R; q3 : R }.
Record Vec3 : Type := mkVec3 { v0 : R; v1 : R; v2 : R }.

(** A buffer of doubles reached through a pointer. *)
Definition Mem : Type := Z -> R.

Module Mju.

Definition mjMINVAL : R := 1e-15.

(** [mju_max(a, b) = (a > b) ? a : b], [mju_min(a, b) = (a < b) ? a : b]. *)
Definition mju_max (a b : R) : R := if Rgtb a b then a else b.
Definition mju_min (a b : R) : R := if Rltb a b then a else b.

(** [mju_negQuat]: conjugate. *)
Definition mju_negQuat (q : Quat) : Quat :=
  mkQuat (q0 q) (- q1 q) (- q2 q) (- q3 q).

(** [mju_mulQuat]: Hamilton product, scalar part first. *)
Definition mju_mulQuat (a b : Quat) : Quat :=
  mkQuat
    (q0 a * q0 b - q1 a * q1 b - q2 a * q2 b - q3 a * q3 b)
    (q0 a * q1 b + q1 a * q0 b + q2 a * q3 b - q3 a * q2 b)
    (q0 a * q2 b - q1 a * q3 b + q2 a * q0 b + q3 a * q1 b)
    (q0 a * q3 b + q1 a * q2 b - q2 a * q1 b + q3 a * q0 b).

Definition norm4 (q : Quat) : R :=
  sqrt (q0 q * q0 q + q1 q * q1 q + q2 q * q2 q + q3 q * q3 q).

Definition scl4 (q : Quat) (s : R) : Quat :=
  mkQuat (q0 q * s) (q1 q * s) (q2 q * s) (q3 q * s).

(** [mju_normalize4]: a quaternion shorter than [mjMINVAL] becomes the
    identity; one whose length is within [mjMINVAL] of 1 is left as it
    is; any other is scaled by the inverse of its length. *)
Definition mju_normalize4 (q : Quat) : Quat :=
  let norm := norm4 q in
  if Rltb norm mjMINVAL then mkQuat 1 0 0 0
  else if Rgtb (Rabs (norm - 1)) mjMINVAL then scl4 q (1 / norm)
  else q.

(** [mju_addTo3(res, vec)]: [res += vec]. *)
Definition mju_addTo3 (res vec : Vec3) : Vec3 :=
  mkVec3 (v0 res + v0 vec) (v1 res + v1 vec) (v2 res + v2 vec).

(** [mju_copy(dst + doff, src + soff, n)] on buffers. *)
Definition mju_copy (dst : Mem) (doff : Z) (src : Mem) (soff : Z) (n : Z)
  : Mem :=
  fun i => if ((doff <=? i) && (i <? doff + n))%Z
           then src (soff + (i - doff))%Z else dst i.

(** [mju_zero(dst + doff, n)]. *)
Definition mju_zero (dst : Mem) (doff : Z) (n : Z) : Mem :=
  fun i => if ((doff <=? i) && (i <? doff + n))%Z then 0 else dst i.

End Mju.
Import Mju.

(** Reading and writing fixed-size pieces of a buffer. *)

Definition read3 (b : Mem) (adr : Z) : Vec3 :=
  mkVec3 (b adr) (b (adr + 1)%Z) (b (adr + 2)%Z).

Definition read4 (b : Mem) (adr : Z) : Quat :=
  mkQuat (b adr) (b (adr + 1)%Z) (b (adr + 2)%Z) (b (adr + 3)%Z).

Definition write1 (b : Mem) (adr : Z) (x : R) : Mem :=
  fun i => if (i =? adr)%Z then x else b i.

Definition write3 (b : Mem) (adr : Z) (v : Vec3) : Mem :=
  write1 (write1 (write1 b adr (v0 v)) (adr + 1) (v1 v)) (adr + 2) (v2 v).

Definition write4 (b : Mem) (adr : Z) (q : Quat) : Mem :=
  write1 (write1 (write1 (write1 b adr (q0 q)) (adr + 1) (q1 q))
                 (adr + 2) (q2 q)) (adr + 3) (q3 q).

(** [n] consecutive doubles starting at [adr], as they are copied into the
    residual. *)
Definition read_n (b : Mem) (adr : Z) (n : nat) : list R :=
  map (fun i => b (adr + Z.of_nat i)%Z) (seq 0 n).

Definition list3 (v : Vec3) : list R := [v0 v; v1 v; v2 v].

(** ** The engine's model and data, restricted to what the task touches *)

Inductive mjtObj : Type := mjOBJ_BODY | mjOBJ_GEOM.

Record mjContact : Type := mkContact { geom1 : Z; geom2 : Z }.

Record mjModel : Type := mkModel {
  nq : nat;
  nv : nat;
  nu : nat;
  key_qpos : Mem;
  body_jntadr : Z -> Z;
  jnt_qposadr : Z -> Z;
  jnt_dofadr : Z -> Z;
  (** [mj_name2id]: the id of a named object, [-1] when there is none. *)
  mj_name2id : mjtObj -> string -> Z;
  (** Where a named sensor channel starts in [sensordata]. *)
  sensor_channel : string -> Z;
  (** The model's custom numeric fields, already converted to [int]. *)
  numeric_int : string -> option Z;
  (** The sensor dimensionality the model declares for the residual. *)
  declared_sensor_dim : nat
}.

Record mjData : Type := mkData {
  qpos : Mem;
  qvel : Mem;
  actuator_force : Mem;
  mocap_pos : Mem;
  mocap_quat : Mem;
  sensordata : Mem;
  contact : list mjContact
}.

(** Modelled from the spec: [SensorByName] (mjpc/utilities) is not among
    the sources.  The specification speaks of "named sensor channels"
    consumed from the engine: the function returns the place of the named
    channel inside [sensordata]. *)
Definition SensorByName (m : mjModel) (name : string) : Z :=
  sensor_channel m name.

(** Modelled from the spec: [GetNumberOrDefault] (mjpc/utilities) is not
    among the sources.  The goal-sampling strategy is "selected by a
    configuration flag"; the flag's value is the model's numeric field of
    that name, or the default when the model has none. *)
Definition GetNumberOrDefault (dflt : Z) (m : mjModel) (name : string) : Z :=
  match numeric_int m name with Some z => z | None => dflt end.

(** What a call leaves behind: a value, or the fatal error of [mju_error]. *)
Inductive outcome (A : Type) : Type :=
| Done (a : A)
| Fatal.
Arguments Done {A} a.
Arguments Fatal {A}.

(** Modelled from the spec: [CheckSensorDim] (mjpc/utilities) is not among
    the sources.  "The evaluator must validate this length equals the
    engine's declared sensor dimensionality; mismatch is a fatal
    configuration error". *)
Definition CheckSensorDim (m : mjModel) (residual_size : nat) : outcome unit :=
  if Nat.eqb residual_size (declared_sensor_dim m) then Done tt else Fatal.

(** The engine, as far as the task only passes its results on. *)
Class Engine : Type := {
  (** What a forward pass computes from positions, velocities and the
      poses of the mocap bodies. *)
  forward_actuator_force : mjModel -> mjData -> Mem;
  forward_sensordata : mjModel -> mjData -> Mem;
  forward_contact : mjModel -> mjData -> list mjContact;
  (** [mju_subQuat(res, qa, qb)]: the 3D velocity taking [qb] to [qa]. *)
  mju_subQuat : Quat -> Quat -> Vec3;
  (** [mju_quatIntegrate(quat, vel, scale)]. *)
  mju_quatIntegrate : Quat -> Vec3 -> R -> Quat
}.

(** [mj_forward]: recomputes the derived quantities; positions, velocities
    and mocap poses are its inputs and stay as they are. *)
Definition mj_forward `{Engine} (m : mjModel) (d : mjData) : mjData :=
  mkData (qpos d) (qvel d) (forward_actuator_force m d)
         (mocap_pos d) (mocap_quat d)
         (forward_sensordata m d) (forward_contact m d).

(** ** Leap::ResidualFn::Residual *)

Module Containment.

Definition x_min : R := 0.08.
Definition x_max : R := 0.14.
Definition y_min : R := -0.02.
Definition y_max : R := 0.02.
(** 20 degree palm tilt, as the source writes it in radians. *)
Definition theta : R := 0.349066.

Definition outside_rectangle (x y : R) : bool :=
  Rltb x x_min || Rgtb x x_max || Rltb y y_min || Rgtb y y_max.

Definition x_closest (x : R) : R := mju_max x_min (mju_min x x_max).
Definition y_closest (y : R) : R := mju_max y_min (mju_min y y_max).

(** The height band used outside the rectangle, for a palm tilted by
    [th]: the centre of a cube lying flat, and 3.5 cm above it. *)
Definition band_min (th x : R) : R := - x * tan th + 0.035 / cos th.
Definition band_max (th x : R) : R := band_min th x + 0.035.

Definition z_closest (x y z : R) : R :=
  if outside_rectangle x y then
    let z_min := band_min theta x in
    let z_max := z_min + 0.035 in
    mju_max z_min (mju_min z z_max)
  else
    let z_min := -0.015 in
    mju_max z_min z.

Definition dist (x y z : R) : R :=
  sqrt ((x_closest x - x) ^ 2 + (y_closest y - y) ^ 2
        + (z_closest x y z - z) ^ 2).

(** [residual[0]]. *)
Definition residual0 (x y z : R) : R := 250.0 * dist x y z.

(** The claim's words, for a tilt [th]: the allowed region around a cube
    at [(x, y)], the point of it obtained by clamping each coordinate,
    and 250 times the distance to that point. *)
Definition in_rectangle (x y : R) : Prop :=
  0.08 <= x <= 0.14 /\ -0.02 <= y <= 0.02.

Definition in_full_region (x y z : R) : Prop :=
  in_rectangle x y /\ -0.015 <= z.

Definition clamp (lo hi v : R) : R := Rmax lo (Rmin v hi).

Definition euclid (x y z x' y' z' : R) : R :=
  sqrt ((x' - x) ^ 2 + (y' - y) ^ 2 + (z' - z) ^ 2).

Definition in_rectangle_dec (x y : R)
  : {in_rectangle x y} + {~ in_rectangle x y}.
Proof.
  unfold in_rectangle.
  destruct (Rle_dec 0.08 x); [| right; lra].
  destruct (Rle_dec x 0.14); [| right; lra].
  destruct (Rle_dec (-0.02) y); [| right; lra].
  destruct (Rle_dec y 0.02); [left; lra | right; lra].
Defined.

Definition nearest_z (th x y z : R) : R :=
  if in_rectangle_dec x y then Rmax (-0.015) z
  else clamp (band_min th x) (band_max th x) z.

Definition spec_residual (th x y z : R) : R :=
  250 * euclid x y z (clamp 0.08 0.14 x) (clamp (-0.02) 0.02 y)
               (nearest_z th x y z).


Definition twenty_degrees : R := 20 * PI / 180.

End Containment.

(** The residual vector, the data as the call leaves it, and the counter. *)
Definition Residual_body `{Engine} (m : mjModel) (d : mjData)
  : mjData * list R * nat :=
  let counter := 0%nat in
  (* ---------- Cube position ---------- *)
  let cube_position := SensorByName m "cube_position" in
  let x := sensordata d cube_position in
  let y := sensordata d (cube_position + 1)%Z in
  let z := sensordata d (cube_position + 2)%Z in
  let residual := [Containment.residual0 x y z] in
  let counter := (counter + 1)%nat in
  (* ---------- Cube orientation ---------- *)
  let cube_orientation := SensorByName m "cube_orientation" in
  let goal_cube_orientation := SensorByName m "cube_goal_orientation" in
  let sd := write4 (sensordata d) goal_cube_orientation
              (mju_normalize4 (read4 (sensordata d) goal_cube_orientation)) in
  let residual :=
    residual ++ list3 (mju_subQuat (read4 sd goal_cube_orientation)
                                   (read4 sd cube_orientation)) in
  let counter := (counter + 3)%nat in
  (* ---------- Cube linear velocity ---------- *)
  let cube_linear_velocity := SensorByName m "cube_linear_velocity" in
  let residual := residual ++ read_n sd cube_linear_velocity 3 in
  let counter := (counter + 3)%nat in
  (* ---------- Cube angular velocity ---------- *)
  let cube_angular_velocity := SensorByName m "cube_angular_velocity" in
  let residual := residual ++ read_n sd cube_angular_velocity 3 in
  let counter := (counter + 3)%nat in
  (* ---------- Control ---------- *)
  let residual := residual ++ read_n (actuator_force d) 0 (nu m) in
  let counter := (counter + nu m)%nat in
  (* ---------- Nominal Pose ---------- *)
  let residual :=
    residual ++ map (fun i => qpos d (7 + Z.of_nat i)%Z
                              - key_qpos m (7 + Z.of_nat i)%Z) (seq 0 16) in
  let counter := (counter + 16)%nat in
  (* ---------- Joint Velocity ---------- *)
  let residual := residual ++ read_n (qvel d) 6 16 in
  let counter := (counter + 16)%nat in
  (mkData (qpos d) (qvel d) (actuator_force d) (mocap_pos d) (mocap_quat d)
          sd (contact d),
   residual, counter).

Definition Residual `{Engine} (m : mjModel) (d : mjData)
  : outcome (mjData * list R) :=
  let '(d', residual, counter) := Residual_body m d in
  (* Sanity check *)
  match CheckSensorDim m counter with
  | Done _ => Done (d', residual)
  | Fatal => Fatal
  end.

(** ** The task object *)

(** The fields of [Leap] that leap.cc reads and writes.  [parameters] is
    the flat array of the base class: entries 0-3 and 13-15 are written by
    [TransitionLocked], entries 4-12 are the tunables [ModifyState] reads.
    The counters are [int]s; their overflow is outside the model. *)
Record Leap : Type := mkLeap {
  rotation_count_ : Z;
  best_rotation_count_ : Z;
  time_of_last_reset_ : R;
  time_of_last_rotation_ : R;
  time_since_last_reset_ : R;
  time_since_last_rotation_ : R;
  rand1_ : Z;
  rand2_ : Z;
  pos_cube_ : Vec3;
  quat_cube_ : Quat;
  quat_cube_noise_ : Vec3;
  pos_cube_noise_ : Vec3;
  first_time_ : bool;
  last_time_ : R;
  last_state_ : list R;
  stored_states_ : list (list R);
  parameters : nat -> R
}.

(** The four places where [TransitionLocked] reads
    [std::chrono::steady_clock::now()], in seconds, in program order. *)
Record Clock : Type := mkClock {
  now_since_reset : R;      (* line 195 *)
  now_since_rotation : R;   (* line 199 *)
  now_at_reset : R;         (* line 224 *)
  now_at_goal_change : R    (* line 231 *)
}.

(** What the generator [gen_] returns: the successive pairs
    [absl::Uniform<int>(gen_, 0, 6)], [absl::Uniform<int>(gen_, 0, 4)] of
    the discrete sampler and the successive triples of
    [absl::Uniform<double>(gen_, 0.0, 1.0)] of the continuous one.  A
    sampling loop that is still running when its draws are used up has no
    result. *)
Record Draws : Type := mkDraws {
  index_draws : list (Z * Z);
  uniform_draws : list (R * R * R)
}.

Definition set_param (p : nat -> R) (i : nat) (x : R) : nat -> R :=
  fun j => if Nat.eqb j i then x else p j.

(** [std::max(a, b) = (a < b) ? b : a]. *)
Definition std_max (a b : R) : R := if Rltb a b then b else a.

Definition set_sensordata (d : mjData) (sd : Mem) : mjData :=
  mkData (qpos d) (qvel d) (actuator_force d) (mocap_pos d) (mocap_quat d)
         sd (contact d).

Definition set_qpos_qvel (d : mjData) (qp qv : Mem) : mjData :=
  mkData qp qv (actuator_force d) (mocap_pos d) (mocap_quat d)
         (sensordata d) (contact d).

Definition set_mocap (d : mjData) (mp mq : Mem) : mjData :=
  mkData (qpos d) (qvel d) (actuator_force d) mp mq
         (sensordata d) (contact d).

(** ** Leap::TransitionLocked *)

Module Transition.

Definition is_zero4 (q : Quat) : bool :=
  Reqb0 (q0 q) && Reqb0 (q1 q) && Reqb0 (q2 q) && Reqb0 (q3 q).

(** Lines 126-138: an all-zero goal becomes the identity, in place. *)
Definition default_goal (sd : Mem) (goal : Z) : Mem :=
  if is_zero4 (read4 sd goal) then write4 sd goal (mkQuat 1.0 0.0 0.0 0.0)
  else sd.

Definition flip_sign (q : Quat) : Quat :=
  if Rltb (q0 q) 0.0
  then mkQuat (q0 q * -1.0) (q1 q * -1.0) (q2 q * -1.0) (q3 q * -1.0)
  else q.

(** [std::acos]: not a number outside [-1, 1]. *)
Definition std_acos (x : R) : option R :=
  if Rltb x (-1) then None else if Rgtb x 1 then None else Some (acos x).

(** Comparisons with a value that may be NaN are false on NaN. *)
Definition nan_lt (a : option R) (b : R) : bool :=
  match a with Some x => Rltb x b | None => false end.

Definition nan_ge (a : option R) (b : R) : bool :=
  match a with Some x => Rgeb x b | None => false end.

(** [2.0 * std::acos(q_diff[0]) * 180.0 / M_PI], in degrees. *)
Definition angle_degrees (q_diff : Quat) : option R :=
  match std_acos (q0 q_diff) with
  | Some a => Some (2.0 * a * 180.0 / PI)
  | None => None
  end.

(** Lines 143-150 and 314-321: multiply by the conjugate of the goal,
    normalize, take the representative with a non-negative scalar part. *)
Definition quat_difference (q q_gco_conj : Quat) : Quat :=
  flip_sign (mju_normalize4 (mju_mulQuat q q_gco_conj)).

(** Lines 122-151, on the sensor buffer after [default_goal]. *)
Definition goal_conjugate (m : mjModel) (sd : Mem) : Quat :=
  mju_negQuat (read4 sd (SensorByName m "cube_goal_orientation")).

Definition orientation_error (m : mjModel) (sd : Mem) : option R :=
  angle_degrees
    (quat_difference (read4 sd (SensorByName m "cube_orientation"))
                     (goal_conjugate m sd)).

(** The same angle between any orientation [q] and any goal [g]: the
    angle of [q] times the conjugate of [g]. *)
Definition angular_separation (q g : Quat) : option R :=
  angle_degrees (quat_difference q (mju_negQuat g)).

Definition axis_aligned_goal (m : mjModel) : Z :=
  GetNumberOrDefault 1 m "axis_aligned_goal".

Definition angle_thresh (m : mjModel) : R :=
  if (axis_aligned_goal m =? 0)%Z then 22.9183 else 11.4592.

Definition set_counts (lp : Leap) (rc brc : Z) : Leap :=
  mkLeap rc brc (time_of_last_reset_ lp) (time_of_last_rotation_ lp)
         (time_since_last_reset_ lp) (time_since_last_rotation_ lp)
         (rand1_ lp) (rand2_ lp) (pos_cube_ lp) (quat_cube_ lp)
         (quat_cube_noise_ lp) (pos_cube_noise_ lp) (first_time_ lp)
         (last_time_ lp) (last_state_ lp) (stored_states_ lp)
         (parameters lp).

(** Lines 157-165: the flag [change_goal] and the counters. *)
Definition success_phase (angle : option R) (thresh : R) (lp : Leap)
  : bool * Leap :=
  let change_goal := false in
  if nan_lt angle thresh then
    let change_goal := true in
    let rc := (rotation_count_ lp + 1)%Z in
    let brc := if (rc >? best_rotation_count_ lp)%Z then rc
               else best_rotation_count_ lp in
    (change_goal, set_counts lp rc brc)
  else (change_goal, lp).

(** Lines 168-179. *)
Definition touches (cube floor : Z) (g : mjContact) : bool :=
  ((geom1 g =? cube)%Z && (geom2 g =? floor)%Z)
  || ((geom2 g =? cube)%Z && (geom1 g =? floor)%Z).

Definition on_floor (m : mjModel) (d : mjData) : bool :=
  let cube := mj_name2id m mjOBJ_GEOM "cube" in
  let floor := mj_name2id m mjOBJ_GEOM "floor" in
  existsb (touches cube floor) (contact d).

(** Lines 182-190: put the cube back on the hand. *)
Definition reset_cube (m : mjModel) (d : mjData) : mjData :=
  let cube_body := mj_name2id m mjOBJ_BODY "cube" in
  if negb (cube_body =? -1)%Z then
    let qposadr := jnt_qposadr m (body_jntadr m cube_body) in
    let veladr := jnt_dofadr m (body_jntadr m cube_body) in
    set_qpos_qvel d
      (mju_copy (qpos d) qposadr (key_qpos m) qposadr 7)
      (mju_zero (qvel d) veladr 6)
  else d.

Definition drop_phase (m : mjModel) (d : mjData) : bool * mjData :=
  let fell := on_floor m d in
  (fell, if fell then reset_cube m d else d).

(** Lines 193-227: the timers, and the reset of the counters after a drop
    or a timeout (the statistics printed there are not represented). *)
Definition reset_phase (clk : Clock) (fell change_goal : bool) (lp : Leap)
  : bool * Leap :=
  let since_reset := now_since_reset clk - time_of_last_reset_ lp in
  let since_rotation := now_since_rotation clk - time_of_last_rotation_ lp in
  if fell || Rgtb since_rotation 80.0 then
    (true,
     mkLeap 0 (best_rotation_count_ lp) (now_at_reset clk)
            (time_of_last_rotation_ lp) since_reset since_rotation
            (rand1_ lp) (rand2_ lp) (pos_cube_ lp) (quat_cube_ lp)
            (quat_cube_noise_ lp) (pos_cube_noise_ lp) (first_time_ lp)
            (last_time_ lp) (last_state_ lp) (stored_states_ lp)
            (parameters lp))
  else
    (change_goal,
     mkLeap (rotation_count_ lp) (best_rotation_count_ lp)
            (time_of_last_reset_ lp) (time_of_last_rotation_ lp)
            since_reset since_rotation
            (rand1_ lp) (rand2_ lp) (pos_cube_ lp) (quat_cube_ lp)
            (quat_cube_noise_ lp) (pos_cube_noise_ lp) (first_time_ lp)
            (last_time_ lp) (last_state_ lp) (stored_states_ lp)
            (parameters lp)).

(** Lines 241-246: draw until the pair differs from the stored one. *)
Fixpoint resample_pair (old1 old2 rand1 rand2 : Z) (draws : list (Z * Z))
  : option (Z * Z) :=
  if ((rand1 =? old1) && (rand2 =? old2))%Z then
    match draws with
    | [] => None
    | (r1, r2) :: rest => resample_pair old1 old2 r1 r2 rest
    end
  else Some (rand1, rand2).

(** Lines 250-269: which face faces +z. *)
Definition face_quat (rand1 : Z) : Quat :=
  if (rand1 =? 0)%Z then mkQuat 1.0 0.0 0.0 0.0
  else if (rand1 =? 1)%Z
       then mkQuat 0.7071067811865476 0.7071067811865476 0.0 0.0
  else if (rand1 =? 2)%Z then mkQuat 0.0 1.0 0.0 0.0
  else if (rand1 =? 3)%Z
       then mkQuat (-0.7071067811865476) 0.7071067811865476 0.0 0.0
  else if (rand1 =? 4)%Z
       then mkQuat 0.7071067811865476 0.0 0.7071067811865476 0.0
  else if (rand1 =? 5)%Z
       then mkQuat 0.7071067811865476 0.0 (-0.7071067811865476) 0.0
  else mkQuat 0.0 0.0 0.0 0.0.

(** Lines 271-284: the rotation about +z. *)
Definition spin_quat (rand2 : Z) : Quat :=
  if (rand2 =? 0)%Z then mkQuat 1.0 0.0 0.0 0.0
  else if (rand2 =? 1)%Z
       then mkQuat 0.7071067811865476 0.0 0.0 0.7071067811865476
  else if (rand2 =? 2)%Z then mkQuat 0.0 0.0 0.0 1.0
  else if (rand2 =? 3)%Z
       then mkQuat (-0.7071067811865476) 0.0 0.0 0.7071067811865476
  else mkQuat 0.0 0.0 0.0 0.0.

(** Lines 235 and 286-289: wrist tilt, then spin, then face. *)
Definition axis_aligned_quat (rand1 rand2 : Z) : Quat :=
  let q0 := mkQuat 0.0 1.0 0.0 0.7 in
  let q1 := face_quat rand1 in
  let q2 := spin_quat rand2 in
  let q_goal := mju_mulQuat q0 q2 in
  let q_goal := mju_mulQuat q_goal q1 in
  mju_normalize4 q_goal.

(** Lines 300-309: a candidate from three uniform variates. *)
Definition candidate (a b c : R) : Quat :=
  let s1 := sqrt (1.0 - a) in
  let s2 := sqrt a in
  let sb := sin (2.0 * PI * b) in
  let cb := cos (2.0 * PI * b) in
  let sc := sin (2.0 * PI * c) in
  let cc := cos (2.0 * PI * c) in
  mkQuat (s1 * sb) (s1 * cb) (s2 * sc) (s2 * cc).

(** Lines 299-331: draw until the candidate is at least 90 degrees away. *)
Fixpoint sample_free (q_gco_conj : Quat) (draws : list (R * R * R))
  : option Quat :=
  match draws with
  | [] => None
  | (a, b, c) :: rest =>
      let q_goal := candidate a b c in
      let q_diff := quat_difference q_goal q_gco_conj in
      let angle := angle_degrees q_diff in
      if nan_ge angle 90.0 then Some q_goal
      else sample_free q_gco_conj rest
  end.

(** Where the goal is written: lines 292-294 and 326-328. *)
Definition goal_address (m : mjModel) : Z :=
  let goal := mj_name2id m mjOBJ_GEOM "goal" in
  jnt_qposadr m (body_jntadr m goal).

Definition set_goal (m : mjModel) (d : mjData) (q_goal : Quat) : mjData :=
  set_mocap d (mocap_pos d) (write4 (mocap_quat d) (goal_address m) q_goal).

Definition set_rotation_clock (lp : Leap) (t : R) (r1 r2 : Z) : Leap :=
  mkLeap (rotation_count_ lp) (best_rotation_count_ lp)
         (time_of_last_reset_ lp) t
         (time_since_last_reset_ lp) (time_since_last_rotation_ lp)
         r1 r2 (pos_cube_ lp) (quat_cube_ lp)
         (quat_cube_noise_ lp) (pos_cube_noise_ lp) (first_time_ lp)
         (last_time_ lp) (last_state_ lp) (stored_states_ lp)
         (parameters lp).

(** Lines 230-333. *)
Definition goal_phase (m : mjModel) (clk : Clock) (rng : Draws)
  (q_gco_conj : Quat) (change_goal : bool) (lp : Leap) (d : mjData)
  : option (Leap * mjData) :=
  if change_goal then
    let t := now_at_goal_change clk in
    if negb (axis_aligned_goal m =? 0)%Z then
      match resample_pair (rand1_ lp) (rand2_ lp) (rand1_ lp) (rand2_ lp)
                          (index_draws rng) with
      | None => None
      | Some (rand1, rand2) =>
          Some (set_rotation_clock lp t rand1 rand2,
                set_goal m d (axis_aligned_quat rand1 rand2))
      end
    else
      match sample_free q_gco_conj (uniform_draws rng) with
      | None => None
      | Some q_goal =>
          Some (set_rotation_clock lp t (rand1_ lp) (rand2_ lp),
                set_goal m d q_goal)
      end
  else Some (lp, d).

(** Lines 335-361: the forward pass, the noisy-cube marker, the GUI. *)
Definition finish_phase `{Engine} (m : mjModel) (fell change_goal : bool)
  (lp : Leap) (d : mjData) : Leap * mjData :=
  let d := if fell || change_goal then mj_forward m d else d in
  let d := set_mocap d (write3 (mocap_pos d) 3 (pos_cube_ lp))
                       (write4 (mocap_quat d) 4 (quat_cube_ lp)) in
  let p := parameters lp in
  let p := set_param p 0 (IZR (rotation_count_ lp)) in
  let p := set_param p 1 (IZR (best_rotation_count_ lp)) in
  let p := set_param p 2 (time_since_last_rotation_ lp) in
  let p := set_param p 3 (time_since_last_reset_ lp
                          / std_max (IZR (rotation_count_ lp)) 1.0) in
  let cube_position := SensorByName m "cube_position" in
  let p := set_param p 13 (sensordata d cube_position) in
  let p := set_param p 14 (sensordata d (cube_position + 1)%Z) in
  let p := set_param p 15 (sensordata d (cube_position + 2)%Z) in
  (mkLeap (rotation_count_ lp) (best_rotation_count_ lp)
          (time_of_last_reset_ lp) (time_of_last_rotation_ lp)
          (time_since_last_reset_ lp) (time_since_last_rotation_ lp)
          (rand1_ lp) (rand2_ lp) (pos_cube_ lp) (quat_cube_ lp)
          (quat_cube_noise_ lp) (pos_cube_noise_ lp) (first_time_ lp)
          (last_time_ lp) (last_state_ lp) (stored_states_ lp) p,
   d).

(** A quaternion of length 1. *)
Definition unit_quat (q : Quat) : Prop :=
  q0 q * q0 q + q1 q * q1 q + q2 q * q2 q + q3 q * q3 q = 1.

(** [absl::Uniform<double>(gen_, 0.0, 1.0)] lies in [0, 1): what the
    square roots of [candidate] rely on. *)
Definition in_unit_interval (abc : R * R * R) : Prop :=
  0 <= fst (fst abc) < 1.

(** The three reasons for a new goal, as [TransitionLocked] tests them. *)
Definition success (m : mjModel) (d : mjData) : bool :=
  let sd := default_goal (sensordata d)
              (SensorByName m "cube_goal_orientation") in
  nan_lt (orientation_error m sd) (angle_thresh m).

Definition timed_out (clk : Clock) (lp : Leap) : bool :=
  Rgtb (now_since_rotation clk - time_of_last_rotation_ lp) 80.0.

Definition change_goal (m : mjModel) (clk : Clock) (lp : Leap) (d : mjData)
  : bool :=
  (on_floor m d || timed_out clk lp) || success m d.

End Transition.

Definition TransitionLocked `{Engine} (m : mjModel) (clk : Clock)
  (rng : Draws) (lp : Leap) (d : mjData) : option (Leap * mjData) :=
  (* the goal orientation, defaulted in place, and the angle to it *)
  let sd := Transition.default_goal (sensordata d)
              (SensorByName m "cube_goal_orientation") in
  let d := set_sensordata d sd in
  let q_gco_conj := Transition.goal_conjugate m sd in
  let angle := Transition.orientation_error m sd in
  let angle_thresh := Transition.angle_thresh m in
  (* decide whether to change the goal orientation *)
  let '(change_goal, lp) := Transition.success_phase angle angle_thresh lp in
  (* figure out whether we dropped the cube; put it back if so *)
  let '(fell, d) := Transition.drop_phase m d in
  (* reset the rotation count if we dropped the cube or took too long *)
  let '(change_goal, lp) := Transition.reset_phase clk fell change_goal lp in
  (* change the goal orientation if needed *)
  match Transition.goal_phase m clk rng q_gco_conj change_goal lp d with
  | None => None
  | Some (lp, d) => Some (Transition.finish_phase m fell change_goal lp d)
  end.

(** ** Leap::ModifyState *)

(** Modelled from the spec: [mjpc::State] (mjpc/states) is not among the
    sources.  [state()] is the vector of positions followed by velocities,
    [time()] its time stamp; [SetPosition] and [SetVelocity] overwrite
    the [nq] positions and the [nv] velocities: "Output is written into
    the engine's position/velocity buffers". *)
Record State : Type := mkState { state : list R; time : R }.

(** [mju_copy(dst + off, src + soff, n)] on vectors: [dst] keeps its
    length; an entry read past the end of [src] is 0. *)
Definition vec_copy (dst : list R) (off : nat) (src : list R) (soff n : nat)
  : list R :=
  map (fun i => if (off <=? i)%nat && (i <? off + n)%nat
                then nth (soff + (i - off)) src 0 else nth i dst 0)
      (seq 0 (length dst)).

Definition SetPosition (m : mjModel) (st : State) (qp : list R) : State :=
  mkState (vec_copy (state st) 0 qp 0 (nq m)) (time st).

Definition SetVelocity (m : mjModel) (st : State) (qv : list R) : State :=
  mkState (vec_copy (state st) (nq m) qv 0 (nv m)) (time st).

Definition vec3_at (l : list R) (off : nat) : Vec3 :=
  mkVec3 (nth off l 0) (nth (off + 1) l 0) (nth (off + 2) l 0).

Definition quat_at (l : list R) (off : nat) : Quat :=
  mkQuat (nth off l 0) (nth (off + 1) l 0) (nth (off + 2) l 0)
         (nth (off + 3) l 0).

Definition list4 (q : Quat) : list R := [q0 q; q1 q; q2 q; q3 q].

Definition vec3_nth (v : Vec3) (i : nat) : R :=
  match i with 0%nat => v0 v | 1%nat => v1 v | _ => v2 v end.

Module Pipeline.

(** The standard normal variates behind the six calls of
    [absl::Gaussian<double>(gen_, 0.0, std)]: three for the orientation,
    three for the position. *)
Record Gauss : Type := mkGauss { rot_draw : Vec3; pos_draw : Vec3 }.

(** [absl::Gaussian<double>(gen, mean, stddev)] for the variate [z]. *)
Definition absl_Gaussian (z mean stddev : R) : R := mean + stddev * z.

(** [std::round]: to the nearest integer, halves away from zero. *)
Definition std_round (x : R) : Z :=
  if Rle_dec 0 x then Zfloor (x + 1 / 2) else Zceil (x - 1 / 2).

(** An [int] compared with a [size_t] is first converted to [size_t]. *)
Definition as_size_t (z : Z) : Z := (z mod 2 ^ 64)%Z.

Definition lag_steps (lp : Leap) : Z := std_round (parameters lp 12).

(** Lines 381-383: erase from the front while the queue is too long. *)
Fixpoint trim_front (lag : Z) (q : list (list R)) : list (list R) :=
  match q with
  | [] => []
  | _ :: rest =>
      if (Z.of_nat (length q) >? as_size_t lag)%Z then trim_front lag rest
      else q
  end.

(** Lines 396-400 and 416-420: the bounds on one component. *)
Definition bound_noise (noise_max v : R) : R :=
  if Rgtb v noise_max then noise_max
  else if Rltb v (- noise_max) then - noise_max
  else v.

Definition bound_noise3 (noise_max : R) (v : Vec3) : Vec3 :=
  mkVec3 (bound_noise noise_max (v0 v)) (bound_noise noise_max (v1 v))
         (bound_noise noise_max (v2 v)).

(** Lines 389-401: the orientation noise after the step. *)
Definition quat_noise (z : Gauss) (lp : Leap) : Vec3 :=
  let std_rot := parameters lp 4 in
  let quat_cube_noise_max := parameters lp 9 in
  let dv := mkVec3 (absl_Gaussian (v0 (rot_draw z)) 0.0 std_rot)
                   (absl_Gaussian (v1 (rot_draw z)) 0.0 std_rot)
                   (absl_Gaussian (v2 (rot_draw z)) 0.0 std_rot) in
  bound_noise3 quat_cube_noise_max (mju_addTo3 (quat_cube_noise_ lp) dv).

(** Lines 403-405: the noisy orientation. *)
Definition noisy_quat `{Engine} (z : Gauss) (lp : Leap) (s : list R) : Quat :=
  let quat_cube := quat_at s 3 in
  let quat_cube := mju_quatIntegrate quat_cube (quat_noise z lp) 1.0 in
  mju_normalize4 quat_cube.

(** Lines 408-421: the position noise after the step. *)
Definition pos_noise (z : Gauss) (lp : Leap) : Vec3 :=
  let std_pos := parameters lp 5 in
  let bias_posx := parameters lp 6 in
  let bias_posy := parameters lp 7 in
  let bias_posz := parameters lp 8 in
  let pos_cube_noise_max := parameters lp 10 in
  let dp := mkVec3 (bias_posx + absl_Gaussian (v0 (pos_draw z)) 0.0 std_pos)
                   (bias_posy + absl_Gaussian (v1 (pos_draw z)) 0.0 std_pos)
                   (bias_posz + absl_Gaussian (v2 (pos_draw z)) 0.0 std_pos) in
  bound_noise3 pos_cube_noise_max (mju_addTo3 (pos_cube_noise_ lp) dp).

(** Lines 422-423: the noisy position. *)
Definition noisy_pos (z : Gauss) (lp : Leap) (s : list R) : Vec3 :=
  mju_addTo3 (vec3_at s 0) (pos_noise z lp).

(** Lines 434-445: angular velocity from two successive quaternions. *)
Definition omega (dt : R) (quat_cube quat_cube_last : Quat) : Vec3 :=
  mkVec3
    ((2.0 / dt) *
     (q1 quat_cube * q0 quat_cube_last - q0 quat_cube * q1 quat_cube_last
      - q3 quat_cube * q2 quat_cube_last + q2 quat_cube * q3 quat_cube_last))
    ((2.0 / dt) *
     (q2 quat_cube * q0 quat_cube_last + q3 quat_cube * q1 quat_cube_last
      - q0 quat_cube * q2 quat_cube_last - q1 quat_cube * q3 quat_cube_last))
    ((2.0 / dt) *
     (q3 quat_cube * q0 quat_cube_last - q2 quat_cube * q1 quat_cube_last
      + q1 quat_cube * q2 quat_cube_last - q0 quat_cube * q3 quat_cube_last)).

(** The raw estimate of component [i] of the velocity: backward
    differences for the cube's position (0-2) and the joints (6-21), the
    angular velocity for the cube's rotation (3-5). *)
Definition raw_velocity (dt : R) (pos_cube : Vec3) (quat_cube : Quat)
  (s last_state : list R) (i : nat) : R :=
  if (i <? 3)%nat then (vec3_nth pos_cube i - nth i last_state 0) / dt
  else if (i <? 6)%nat
       then vec3_nth (omega dt quat_cube (quat_at last_state 3)) (i - 3)
  else (nth (i + 1) s 0 - nth (i + 1) last_state 0) / dt.

(** Lines 432-456: [ds] at the end of the else branch. *)
Definition finite_differences (alpha dt : R) (pos_cube : Vec3)
  (quat_cube : Quat) (s last_state : list R) : list R :=
  map (fun i =>
         if (i <? 3)%nat
         then alpha * (vec3_nth pos_cube i - nth i last_state 0) / dt
         else if (i <? 6)%nat
         then alpha * vec3_nth (omega dt quat_cube (quat_at last_state 3))
                               (i - 3)
         else alpha * (nth (i + 1) s 0 - nth (i + 1) last_state 0) / dt)
      (seq 0 (6 + 16)).

(** Line 429: the guard of the finite differences. *)
Definition no_difference (lp : Leap) (st : State) : bool :=
  first_time_ lp || Rltb (time st - last_time_ lp) 1e-6.

(** [mju_addToScl(res, vec + off, scl, n)]: [res += vec * scl]. *)
Definition mju_addToScl (res vec : list R) (off : nat) (scl : R) (n : nat)
  : list R :=
  map (fun i => if (i <? n)%nat
                then nth i res 0 + nth (off + i) vec 0 * scl
                else nth i res 0)
      (seq 0 (length res)).

(** Lines 426-461: the velocity estimate [ds] that is emitted. *)
Definition velocity `{Engine} (z : Gauss) (lp : Leap) (st : State) : list R :=
  let alpha := parameters lp 11 in
  let s := state st in
  let dt := time st - last_time_ lp in
  let ds :=
    if no_difference lp st then repeat 0 (6 + 16)
    else finite_differences alpha dt (noisy_pos z lp s) (noisy_quat z lp s)
                            s (last_state_ lp) in
  mju_addToScl ds (last_state_ lp) (7 + 16) (1.0 - alpha) (6 + 16).

(** Lines 469-472: the freshly computed observation. *)
Definition state_new `{Engine} (m : mjModel) (z : Gauss) (lp : Leap)
  (st : State) : list R :=
  let s := state st in
  let state_new := s in
  let state_new := vec_copy state_new 0 (list3 (noisy_pos z lp s)) 0 3 in
  let state_new := vec_copy state_new 3 (list4 (noisy_quat z lp s)) 0 4 in
  vec_copy state_new (nq m) (velocity z lp st) 0 (nv m).

(** Lines 474-481: the observation that leaves the queue, and the queue
    afterwards. *)
Definition lag_buffer (lag : Z) (n : nat) (stored : list (list R))
  (fresh : list R) : list R * list (list R) :=
  let state_lagged := fresh in
  let '(state_lagged, stored) :=
    if (Z.of_nat (length stored) >=? as_size_t lag)%Z && (lag >? 0)%Z then
      match stored with
      | oldest :: rest => (vec_copy state_lagged 0 oldest 0 n, rest)
      | [] => (state_lagged, stored)
      end
    else (state_lagged, stored) in
  let stored := if (lag >? 0)%Z then stored ++ [fresh] else stored in
  (state_lagged, stored).

(** Lines 380-383 and 469-481 together: the queue is trimmed, then the
    fresh observation goes through it. *)
Definition lagged `{Engine} (m : mjModel) (z : Gauss) (lp : Leap) (st : State)
  : list R * list (list R) :=
  lag_buffer (lag_steps lp) (nq m + nv m)
             (trim_front (lag_steps lp) (stored_states_ lp))
             (state_new m z lp st).

(** Every component within the bound. *)
Definition within (noise_max : R) (v : Vec3) : Prop :=
  Rabs (v0 v) <= noise_max /\ Rabs (v1 v) <= noise_max
  /\ Rabs (v2 v) <= noise_max.

(** [std::vector<double> v(n); mju_copy(v.data(), src + off, n)]. *)
Definition slice (src : list R) (off n : nat) : list R :=
  map (fun i => nth (off + i) src 0) (seq 0 n).

End Pipeline.

Definition ModifyState `{Engine} (m : mjModel) (z : Pipeline.Gauss)
  (lp : Leap) (st : State) : Leap * State :=
  (* noise random walks *)
  let quat_cube_noise := Pipeline.quat_noise z lp in
  let pos_cube_noise := Pipeline.pos_noise z lp in
  (* finite differences *)
  let s := state st in
  let t := time st in
  let first_time := if Pipeline.no_difference lp st then false
                    else first_time_ lp in
  (* setting last state *)
  let last_time := t in
  let last_state := vec_copy (last_state_ lp) 0 s 0 (7 + 16 + 6 + 16) in
  (* lagged states *)
  let '(state_lagged, stored) := Pipeline.lagged m z lp st in
  let qp := Pipeline.slice state_lagged 0 (nq m) in
  let qv := Pipeline.slice state_lagged (nq m) (nv m) in
  let st := SetPosition m st qp in
  let st := SetVelocity m st qv in
  (* update cube mocap state *)
  (mkLeap (rotation_count_ lp) (best_rotation_count_ lp)
          (time_of_last_reset_ lp) (time_of_last_rotation_ lp)
          (time_since_last_reset_ lp) (time_since_last_rotation_ lp)
          (rand1_ lp) (rand2_ lp)
          (vec3_at state_lagged 0) (quat_at state_lagged 3)
          quat_cube_noise pos_cube_noise first_time
          last_time last_state stored (parameters lp),
   st).

(** The positions and the velocities a call writes back. *)
Definition observed `{Engine} (m : mjModel) (z : Pipeline.Gauss) (lp : Leap)
  (st : State) : list R * list R :=
  let state_lagged := fst (Pipeline.lagged m z lp st) in
  (Pipeline.slice state_lagged 0 (nq m),
   Pipeline.slice state_lagged (nq m) (nv m)).

(** Successive calls, each with its variates and the state it is given. *)
Fixpoint ModifyState_run `{Engine} (m : mjModel) (lp : Leap)
  (calls : list (Pipeline.Gauss * State)) : Leap :=
  match calls with
  | [] => lp
  | (z, st) :: rest => ModifyState_run m (fst (ModifyState m z lp st)) rest
  end.

(** The fresh observations of successive calls. *)
Fixpoint fresh_states `{Engine} (m : mjModel) (lp : Leap)
  (calls : list (Pipeline.Gauss * State)) : list (list R) :=
  match calls with
  | [] => []
  | (z, st) :: rest =>
      Pipeline.state_new m z lp st
      :: fresh_states m (fst (ModifyState m z lp st)) rest
  end.

(** The largest [int]. *)
Definition INT_MAX : Z := 2147483647.

(** ** A small scene on which the definitions are run *)

Module Bench.

Definition names (o : mjtObj) (s : string) : Z :=
  match o with
  | mjOBJ_GEOM =>
      if String.eqb s "floor" then 0
      else if String.eqb s "cube" then 1
      else if String.eqb s "goal" then 2 else -1
  | mjOBJ_BODY => if String.eqb s "cube" then 1 else -1
  end.

Definition channels (s : string) : Z :=
  if String.eqb s "cube_position" then 0
  else if String.eqb s "cube_orientation" then 3
  else if String.eqb s "cube_goal_orientation" then 7
  else if String.eqb s "cube_linear_velocity" then 11
  else 14.

(** A hand with [actuators] servos whose keyframe is all zeros. *)
Definition model (actuators dim : nat) (flag : option Z) : mjModel :=
  mkModel 23 22 actuators (fun _ => 0) (fun _ => 0%Z) (fun _ => 0%Z)
          (fun _ => 0%Z) names channels (fun _ => flag) dim.

(** A forward pass that finds the derived quantities as they are. *)
Definition engine : Engine :=
  {| forward_actuator_force := fun _ d => actuator_force d;
     forward_sensordata := fun _ d => sensordata d;
     forward_contact := fun _ d => contact d;
     mju_subQuat := fun _ _ => mkVec3 0 0 0;
     mju_quatIntegrate := fun q _ _ => q |}.

(** Cube and goal both at the identity orientation. *)
Definition sensors_aligned : Mem :=
  fun i => if (i =? 3)%Z then 1 else if (i =? 7)%Z then 1 else 0.

(** Nothing has been sensed yet. *)
Definition sensors_blank : Mem := fun _ => 0.

(** The cube away from its keyframe and moving. *)
Definition data (sd : Mem) (contacts : list mjContact) : mjData :=
  mkData (fun _ => 1) (fun _ => 1) (fun _ => 0) (fun _ => 0) (fun _ => 0)
         sd contacts.

Definition tunables (alpha lag : R) : nat -> R :=
  fun i =>
    if Nat.eqb i 4 then 0.01 else if Nat.eqb i 5 then 0.01
    else if Nat.eqb i 9 then 0.05 else if Nat.eqb i 10 then 0.05
    else if Nat.eqb i 11 then alpha else if Nat.eqb i 12 then lag
    else 0.

(** A task object: three rotations so far, stored indices (0, 0). *)
Definition leap (first : bool) (last : list R) (stored : list (list R))
  (p : nat -> R) : Leap :=
  mkLeap 3 5 0 0 0 0 0 0 (mkVec3 0 0 0) (mkQuat 1 0 0 0)
         (mkVec3 0 0 0) (mkVec3 0 0 0) first 0 last stored p.

Definition leap0 : Leap := leap true (repeat 0 45) [] (tunables (1 / 2) 0).

Definition clock (t : R) : Clock := mkClock t t t t.

Definition draws : Draws := mkDraws [(1%Z, 0%Z)] [(0, 0, 0)].

(** A goal turned by 90 degrees about x, and the draws whose candidate
    is the opposite quarter turn. *)
Definition quarter_turn : Quat := mkQuat (/ sqrt 2) (/ sqrt 2) 0 0.

Definition draws_back : Draws := mkDraws [] [(0, 3 / 8, 0)].

(** The same hand in continuous goal mode. *)
Definition free_hand : mjModel := model 16 58 (Some 0%Z).

(** The 16-servo hand, declaring the 58 entries of its residual. *)
Definition hand : mjModel := model 16 58 None.

(** A state vector with every entry [x], stamped [t]. *)
Definition state_at (x t : R) : State := mkState (repeat x 45) t.

(** Variates: none, and a thousand standard deviations. *)
Definition quiet : Pipeline.Gauss :=
  Pipeline.mkGauss (mkVec3 0 0 0) (mkVec3 0 0 0).

Definition loud : Pipeline.Gauss :=
  Pipeline.mkGauss (mkVec3 1000 (-1000) 1000) (mkVec3 (-1000) 1000 1000).

(** A task object with one step of lag and an empty queue. *)
Definition leap_lag1 : Leap :=
  leap true (repeat 0 45) [] (tunables (1 / 2) 1).

(** A task object past its first call whose stored state is all ones. *)
Definition leap_stale : Leap :=
  leap false (repeat 1 45) [] (tunables (1 / 2) 0).

End Bench.

(** ** Runs and scenes for the further properties *)

(** Successive steps of the goal state machine: each with its clock
    readings, its draws and the data the engine hands it. *)
Fixpoint TransitionLocked_run `{Engine} (m : mjModel) (lp : Leap)
  (steps : list (Clock * Draws * mjData)) : option Leap :=
  match steps with
  | [] => Some lp
  | (clk, rng, d) :: rest =>
      match TransitionLocked m clk rng lp d with
      | None => None
      | Some (lp1, _) => TransitionLocked_run m lp1 rest
      end
  end.

(** What [absl::Uniform<int>(gen_, 0, 6)] and
    [absl::Uniform<int>(gen_, 0, 4)] can return. *)
Definition in_index_range (p : Z * Z) : Prop :=
  (0 <= fst p < 6)%Z /\ (0 <= snd p < 4)%Z.

(** The loop condition of lines 243-246 on a drawn pair. *)
Definition differs_from (old1 old2 : Z) (p : Z * Z) : bool :=
  negb ((fst p =? old1)%Z && (snd p =? old2)%Z).

(** The acceptance test of lines 314-323 on a drawn triple. *)
Definition far_enough (q_gco_conj : Quat) (abc : R * R * R) : bool :=
  Transition.nan_ge
    (Transition.angle_degrees
       (Transition.quat_difference
          (Transition.candidate (fst (fst abc)) (snd (fst abc)) (snd abc))
          q_gco_conj))
    90.0.

(** The candidate of a drawn triple. *)
Definition candidate_of (abc : R * R * R) : Quat :=
  Transition.candidate (fst (fst abc)) (snd (fst abc)) (snd abc).

(** The recurrence of the specification, which the comment on line 460
    repeats: [v_ema(t) = alpha * v(t) + (1 - alpha) * v_ema(t-1)]. *)
Definition spec_filtered (alpha raw filtered_before : R) : R :=
  alpha * raw + (1 - alpha) * filtered_before.

(** The squared length of a quaternion. *)
Definition norm_sq (q : Quat) : R :=
  q0 q * q0 q + q1 q * q1 q + q2 q * q2 q + q3 q * q3 q.

(** The smallest [int]. *)
Definition INT_MIN : Z := -2147483648.

Module Scene.

(** A model in which no geometry and no body has a name. *)
Definition nameless : mjModel :=
  mkModel 23 22 16 (fun _ => 0) (fun _ => 0%Z) (fun _ => 0%Z)
          (fun _ => 0%Z) (fun _ _ => (-1)%Z) Bench.channels
          (fun _ => None) 58.

(** The cube half a turn about x away from a goal at the identity. *)
Definition sensors_apart : Mem :=
  fun i => if (i =? 4)%Z then 1 else if (i =? 7)%Z then 1 else 0.

(** A task object with the given lag, queue and tunables otherwise as in
    the bench. *)
Definition leap_lag (lag : R) (stored : list (list R)) : Leap :=
  Bench.leap true (repeat 0 45) stored (Bench.tunables (1 / 2) lag).

(** Tunables with both noise maxima set to [mx]. *)
Definition tunables_max (mx : R) : nat -> R :=
  fun i =>
    if Nat.eqb i 4 then 0.01 else if Nat.eqb i 5 then 0.01
    else if Nat.eqb i 9 then mx else if Nat.eqb i 10 then mx
    else if Nat.eqb i 11 then 1 / 2 else 0.

Definition leap_max (mx : R) : Leap :=
  Bench.leap true (repeat 0 45) [] (tunables_max mx).

(** The state of the 16-servo hand with the cube at the origin,
    unrotated and at rest, every joint at angle [x] and turning at rate
    [v], stamped [t]. *)
Definition turning (x v t : R) : State :=
  mkState ([0; 0; 0; 1; 0; 0; 0] ++ repeat x 16 ++ repeat 0 6 ++ repeat v 16)
          t.

(** Tunables without spread: a bias of 0.01 along x, a maximum of 0.05. *)
Definition tunables_drift : nat -> R :=
  fun i =>
    if Nat.eqb i 6 then 0.01 else if Nat.eqb i 10 then 0.05
    else if Nat.eqb i 11 then 1 / 2 else 0.

End Scene.

(** * Properties *)

(** ** Comparisons *)

Lemma Rltb_true (x y : R) : Rltb x y = true <-> x < y.
Proof. unfold Rltb; destruct (Rlt_dec x y); split; intros; try easy. Qed.

Lemma Rltb_false (x y : R) : Rltb x y = false <-> y <= x.
Proof.
  unfold Rltb; destruct (Rlt_dec x y); split; intros; try easy; lra.
Qed.

Lemma Rgtb_true (x y : R) : Rgtb x y = true <-> y < x.
Proof. unfold Rgtb; destruct (Rgt_dec x y); split; intros; try easy. Qed.

Lemma Rgtb_false (x y : R) : Rgtb x y = false <-> x <= y.
Proof.
  unfold Rgtb; destruct (Rgt_dec x y); split; intros; try easy; lra.
Qed.

Lemma Rgeb_true (x y : R) : Rgeb x y = true <-> y <= x.
Proof.
  unfold Rgeb; destruct (Rge_dec x y); split; intros; try easy; lra.
Qed.

Lemma Rgeb_false (x y : R) : Rgeb x y = false <-> x < y.
Proof.
  unfold Rgeb; destruct (Rge_dec x y); split; intros; try easy; lra.
Qed.

Lemma mju_max_Rmax (a b : R) : mju_max a b = Rmax a b.
Proof.
  unfold mju_max, Rmax, Rgtb.
  destruct (Rgt_dec a b), (Rle_dec a b); lra.
Qed.

Lemma mju_min_Rmin (a b : R) : mju_min a b = Rmin a b.
Proof.
  unfold mju_min, Rmin, Rltb.
  destruct (Rlt_dec a b), (Rle_dec a b); lra.
Qed.

(** ** The containment term *)

Module ContainmentFacts.
Import Containment.

Lemma outside_rectangle_false (x y : R) :
  outside_rectangle x y = false <-> in_rectangle x y.
Proof.
  unfold outside_rectangle, in_rectangle, x_min, x_max, y_min, y_max.
  rewrite !orb_false_iff, !Rltb_false, !Rgtb_false. lra.
Qed.

Lemma outside_rectangle_true (x y : R) :
  outside_rectangle x y = true <-> ~ in_rectangle x y.
Proof.
  rewrite <- outside_rectangle_false.
  destruct (outside_rectangle x y); split; intros; try easy.
Qed.

Lemma clamp_in (lo hi v : R) : lo <= hi -> lo <= clamp lo hi v <= hi.
Proof.
  intros; unfold clamp, Rmax, Rmin.
  destruct (Rle_dec v hi); destruct (Rle_dec lo _); lra.
Qed.

Lemma clamp_fixed (lo hi v : R) : lo <= v <= hi -> clamp lo hi v = v.
Proof.
  intros; unfold clamp, Rmax, Rmin.
  destruct (Rle_dec v hi); destruct (Rle_dec lo _); lra.
Qed.



Lemma clamp_moves (lo hi v : R) :
  lo <= hi -> (clamp lo hi v - v) ^ 2 = 0 -> lo <= v <= hi.
Proof.
  intros Hlh H.
  assert (clamp lo hi v = v).
  { apply Rminus_diag_uniq, Rsqr_eq_0. rewrite Rsqr_pow2. exact H. }
  pose proof (clamp_in lo hi v Hlh). lra.
Qed.

Lemma x_closest_clamp (x : R) : x_closest x = clamp 0.08 0.14 x.
Proof.
  unfold x_closest, clamp, x_min, x_max.
  now rewrite mju_max_Rmax, mju_min_Rmin.
Qed.

Lemma y_closest_clamp (y : R) : y_closest y = clamp (-0.02) 0.02 y.
Proof.
  unfold y_closest, clamp, y_min, y_max.
  now rewrite mju_max_Rmax, mju_min_Rmin.
Qed.

Lemma z_closest_nearest (x y z : R) :
  z_closest x y z = nearest_z theta x y z.
Proof.
  unfold z_closest, nearest_z.
  destruct (in_rectangle_dec x y) as [Hin | Hout].
  - apply outside_rectangle_false in Hin. rewrite Hin.
    now rewrite mju_max_Rmax.
  - apply outside_rectangle_true in Hout. rewrite Hout.
    unfold clamp, band_max. now rewrite mju_max_Rmax, mju_min_Rmin.
Qed.

Lemma residual0_spec (x y z : R) :
  residual0 x y z = spec_residual theta x y z.
Proof.
  unfold residual0, dist, spec_residual, euclid.
  rewrite x_closest_clamp, y_closest_clamp, z_closest_nearest.
  lra.
Qed.




Lemma sq_sum3_nonneg (a b c : R) : 0 <= a ^ 2 + b ^ 2 + c ^ 2.
Proof.
  pose proof (pow2_ge_0 a). pose proof (pow2_ge_0 b).
  pose proof (pow2_ge_0 c). lra.
Qed.

Lemma sq_sum3_zero (a b c : R) :
  a ^ 2 + b ^ 2 + c ^ 2 = 0 -> a = 0 /\ b = 0 /\ c = 0.
Proof.
  intros H.
  pose proof (pow2_ge_0 a). pose proof (pow2_ge_0 b).
  pose proof (pow2_ge_0 c).
  repeat split; apply Rsqr_eq_0; rewrite Rsqr_pow2; lra.
Qed.

Lemma euclid_zero (x y z x' y' z' : R) :
  euclid x y z x' y' z' = 0 <-> x' = x /\ y' = y /\ z' = z.
Proof.
  unfold euclid. split.
  - intros H. apply sqrt_eq_0 in H; [| apply sq_sum3_nonneg].
    apply sq_sum3_zero in H. lra.
  - intros (-> & -> & ->).
    replace ((x - x) ^ 2 + (y - y) ^ 2 + (z - z) ^ 2) with 0 by ring.
    apply sqrt_0.
Qed.

Lemma spec_residual_zero (th x y z : R) :
  spec_residual th x y z = 0 <-> in_full_region x y z.
Proof.
  unfold spec_residual, in_full_region.
  split.
  - intros H.
    assert (E : euclid x y z (clamp 0.08 0.14 x) (clamp (-0.02) 0.02 y)
                       (nearest_z th x y z) = 0) by lra.
    apply euclid_zero in E. destruct E as (Ex & Ey & Ez).
    assert (Hin : in_rectangle x y).
    { pose proof (clamp_in 0.08 0.14 x). pose proof (clamp_in (-0.02) 0.02 y).
      unfold in_rectangle. lra. }
    split; [assumption |].
    unfold nearest_z in Ez.
    destruct (in_rectangle_dec x y); [| contradiction].
    pose proof (Rmax_l (-0.015) z). lra.
  - intros [Hin Hz].
    assert (E : euclid x y z (clamp 0.08 0.14 x) (clamp (-0.02) 0.02 y)
                       (nearest_z th x y z) = 0).
    { apply euclid_zero. destruct Hin as [Hx Hy].
      repeat split; try (apply clamp_fixed; lra).
      unfold nearest_z.
      destruct (in_rectangle_dec x y) as [_ | Hout];
        [| exfalso; apply Hout; split; assumption].
      unfold Rmax. destruct (Rle_dec (-0.015) z); lra. }
    rewrite E. ring.
Qed.

(** The literal 0.349066 is 20 degrees rounded to six decimals: it is
    larger than [pi / 9] by less than two tenths of a microradian. *)
Lemma PI_upper : PI < 3141594 / 1000000.
Proof.
  destruct (PI_2_3_7_ineq 3) as [_ Hup].
  unfold PI_2_3_7_tg, tg_alt, Ratan_seq in Hup.
  simpl sum_f_R0 in Hup. simpl INR in Hup. lra.
Qed.

Lemma PI_lower : 31415926 / 10000000 < PI.
Proof.
  destruct (PI_2_3_7_ineq 3) as [Hlow _].
  unfold PI_2_3_7_tg, tg_alt, Ratan_seq in Hlow.
  simpl sum_f_R0 in Hlow. simpl INR in Hlow. lra.
Qed.

Lemma theta_close : twenty_degrees < theta < twenty_degrees + 2 / 10000000.
Proof.
  unfold twenty_degrees, theta.
  pose proof PI_upper. pose proof PI_lower. lra.
Qed.

Lemma cos_theta_lt : 0 < cos theta < cos twenty_degrees.
Proof.
  pose proof theta_close as [Hlt _].
  pose proof PI_upper. pose proof PI_lower.
  unfold twenty_degrees, theta in *.
  split.
  - apply cos_gt_0; lra.
  - apply cos_decreasing_1; lra.
Qed.

End ContainmentFacts.



(** The literal is a rounding: with a tilt of exactly [pi / 9] the
    value at the origin, where the height band starts at
    [0.035 / cos(theta)], would not be the one the source computes. *)
Lemma containment_twenty_degrees_differs :
  Containment.residual0 0 0 0
  <> Containment.spec_residual Containment.twenty_degrees 0 0 0.
Proof.
  rewrite ContainmentFacts.residual0_spec.
  unfold Containment.spec_residual, Containment.euclid.
  intros H.
  set (th := Containment.theta) in *.
  set (tw := Containment.twenty_degrees) in *.
  assert (Hx : Containment.clamp 0.08 0.14 0 = 0.08).
  { unfold Containment.clamp, Rmax, Rmin.
    destruct (Rle_dec 0 0.14); destruct (Rle_dec 0.08 _); lra. }
  assert (Hy : Containment.clamp (-0.02) 0.02 0 = 0)
    by (apply ContainmentFacts.clamp_fixed; lra).
  pose proof ContainmentFacts.cos_theta_lt as [Hc1 Hc2].
  fold th tw in Hc1, Hc2.
  assert (Hz : forall a, 0 < cos a ->
                 Containment.nearest_z a 0 0 0 = 0.035 / cos a).
  { intros a Ha. unfold Containment.nearest_z.
    destruct (Containment.in_rectangle_dec 0 0) as [[Hin _] | _]; [lra |].
    unfold Containment.clamp, Containment.band_max, Containment.band_min.
    assert (0 < 0.035 / cos a) by (apply Rdiv_lt_0_compat; lra).
    unfold Rmax, Rmin.
    destruct (Rle_dec 0 _); destruct (Rle_dec _ _); lra. }
  rewrite Hx, Hy, !Hz in H by lra.
  assert (Hs : forall a, 0 <= (0.08 - 0) ^ 2 + (0 - 0) ^ 2 + (a - 0) ^ 2)
    by (intros; nra).
  apply Rmult_eq_reg_l in H; [| lra].
  apply sqrt_inj in H; try apply Hs.
  assert (Hinv : / cos tw < / cos th)
    by (apply Rinv_lt_contravar; [nra | lra]).
  assert (0 < / cos tw) by (apply Rinv_0_lt_compat; lra).
  unfold Rdiv in H. nra.
Qed.

(** ** Buffers *)

Lemma write1_same (b : Mem) (a : Z) (x : R) : write1 b a x a = x.
Proof. unfold write1. now rewrite Z.eqb_refl. Qed.

Lemma write1_other (b : Mem) (a i : Z) (x : R) :
  i <> a -> write1 b a x i = b i.
Proof. intros Hi. unfold write1. now apply Z.eqb_neq in Hi as ->. Qed.

Lemma read4_write4 (b : Mem) (a : Z) (q : Quat) : read4 (write4 b a q) a = q.
Proof.
  destruct q as [w x y z]. unfold read4, write4. cbn [q0 q1 q2 q3].
  f_equal.
  - rewrite !write1_other by lia. apply write1_same.
  - rewrite !write1_other by lia. apply write1_same.
  - rewrite write1_other by lia. apply write1_same.
  - apply write1_same.
Qed.

Lemma write4_other (b : Mem) (a i : Z) (q : Quat) :
  (i < a \/ a + 4 <= i)%Z -> write4 b a q i = b i.
Proof. intros Hi. unfold write4. rewrite !write1_other by lia. reflexivity. Qed.

(** ** The goal samplers *)

Module SamplerFacts.
Import Transition.

Lemma resample_pair_differs (old1 old2 : Z) (draws : list (Z * Z)) :
  forall rand1 rand2 r1 r2,
    resample_pair old1 old2 rand1 rand2 draws = Some (r1, r2) ->
    ~ (r1 = old1 /\ r2 = old2).
Proof.
  induction draws as [| [d1 d2] rest IH]; intros rand1 rand2 r1 r2; cbn.
  - destruct ((rand1 =? old1)%Z && (rand2 =? old2)%Z) eqn:E; [discriminate |].
    intros [= <- <-] [H1 H2]. subst.
    now rewrite !Z.eqb_refl in E.
  - destruct ((rand1 =? old1)%Z && (rand2 =? old2)%Z) eqn:E.
    + apply IH.
    + intros [= <- <-] [H1 H2]. subst.
      now rewrite !Z.eqb_refl in E.
Qed.

(** The loop stops at the first drawn pair that differs. *)
Lemma resample_pair_first (old1 old2 d1 d2 : Z) (rest : list (Z * Z)) :
  ~ (d1 = old1 /\ d2 = old2) ->
  resample_pair old1 old2 old1 old2 ((d1, d2) :: rest) = Some (d1, d2).
Proof.
  intros Hd. cbn. rewrite !Z.eqb_refl. cbn.
  destruct rest; cbn;
    destruct ((d1 =? old1)%Z && (d2 =? old2)%Z) eqn:E; try reflexivity;
    apply andb_true_iff in E as [E1 E2];
    apply Z.eqb_eq in E1, E2; exfalso; auto.
Qed.

Lemma candidate_unit (a b c : R) : 0 <= a < 1 -> unit_quat (candidate a b c).
Proof.
  intros Ha. unfold unit_quat, candidate. cbn [q0 q1 q2 q3].
  pose proof (sqrt_sqrt (1.0 - a)) as H1.
  pose proof (sqrt_sqrt a) as H2.
  pose proof (sin2_cos2 (2.0 * PI * b)) as Hb.
  pose proof (sin2_cos2 (2.0 * PI * c)) as Hc.
  unfold Rsqr in Hb, Hc.
  set (s1 := sqrt (1.0 - a)) in *. set (s2 := sqrt a) in *.
  set (sb := sin (2.0 * PI * b)) in *. set (cb := cos (2.0 * PI * b)) in *.
  set (sc := sin (2.0 * PI * c)) in *. set (cc := cos (2.0 * PI * c)) in *.
  assert (E1 : s1 * s1 = 1 - a) by (rewrite H1; lra).
  assert (E2 : s2 * s2 = a) by (apply H2; lra).
  replace (s1 * sb * (s1 * sb) + s1 * cb * (s1 * cb)
           + s2 * sc * (s2 * sc) + s2 * cc * (s2 * cc))
    with ((s1 * s1) * (sb * sb + cb * cb) + (s2 * s2) * (sc * sc + cc * cc))
    by ring.
  rewrite E1, E2, Hb, Hc. ring.
Qed.

Lemma nan_ge_true (a : option R) (b : R) :
  nan_ge a b = true <-> exists x, a = Some x /\ b <= x.
Proof.
  destruct a as [x |]; cbn.
  - rewrite Rgeb_true. split.
    + intros; exists x; auto.
    + intros (y & [= ->] & Hy); assumption.
  - split; [discriminate | intros (y & Hy & _); discriminate].
Qed.

Lemma nan_lt_true (a : option R) (b : R) :
  nan_lt a b = true <-> exists x, a = Some x /\ x < b.
Proof.
  destruct a as [x |]; cbn.
  - rewrite Rltb_true. split.
    + intros; exists x; auto.
    + intros (y & [= ->] & Hy); assumption.
  - split; [discriminate | intros (y & Hy & _); discriminate].
Qed.

Lemma sample_free_accepts (q_gco_conj : Quat) (draws : list (R * R * R)) :
  forall q,
    Forall in_unit_interval draws ->
    sample_free q_gco_conj draws = Some q ->
    unit_quat q /\
    exists angle,
      angle_degrees (quat_difference q q_gco_conj) = Some angle
      /\ 90 <= angle.
Proof.
  induction draws as [| [[a b] c] rest IH]; intros q Hd; cbn.
  - discriminate.
  - inversion Hd as [| x l Hx Hrest]; subst.
    destruct (nan_ge _ 90.0) eqn:E.
    + intros [= <-]. split.
      * now apply candidate_unit.
      * apply nan_ge_true in E as (x & Hx' & Hge).
        exists x. split; [assumption | lra].
    + now apply IH.
Qed.

End SamplerFacts.

(** ** One step of the goal state machine *)

Module TransitionFacts.
Import Transition.

Lemma on_floor_sensordata (m : mjModel) (d : mjData) (sd : Mem) :
  on_floor m (set_sensordata d sd) = on_floor m d.
Proof. reflexivity. Qed.

Lemma flip_sign_nonneg (q : Quat) : 0 <= q0 (flip_sign q).
Proof.
  unfold flip_sign. destruct (Rltb (q0 q) 0.0) eqn:E; cbn [q0].
  - apply Rltb_true in E. lra.
  - apply Rltb_false in E. lra.
Qed.

Lemma angle_degrees_some (q : Quat) (a : R) :
  angle_degrees q = Some a ->
  -1 <= q0 q <= 1 /\ a = 2 * acos (q0 q) * 180 / PI.
Proof.
  unfold angle_degrees, std_acos.
  destruct (Rltb (q0 q) (-1)) eqn:E1; [discriminate |].
  destruct (Rgtb (q0 q) 1) eqn:E2; [discriminate |].
  apply Rltb_false in E1. apply Rgtb_false in E2.
  intros [= <-]. split; [lra | lra].
Qed.

(** What the step leaves in the task object and in the cube's state, in
    terms of the three tests. *)
Lemma transition_summary `{Engine} (m : mjModel) (clk : Clock) (rng : Draws)
  (lp lp' : Leap) (d d' : mjData) :
  TransitionLocked m clk rng lp d = Some (lp', d') ->
  let fell := on_floor m d in
  let late := timed_out clk lp in
  let won := success m d in
  rotation_count_ lp'
    = (if fell || late then 0
       else if won then rotation_count_ lp + 1 else rotation_count_ lp)%Z
  /\ best_rotation_count_ lp'
     = (if won then Z.max (best_rotation_count_ lp) (rotation_count_ lp + 1)
        else best_rotation_count_ lp)
  /\ time_of_last_reset_ lp'
     = (if fell || late then now_at_reset clk else time_of_last_reset_ lp)
  /\ time_of_last_rotation_ lp'
     = (if change_goal m clk lp d then now_at_goal_change clk
        else time_of_last_rotation_ lp)
  /\ qpos d' = (if fell then qpos (reset_cube m d) else qpos d)
  /\ qvel d' = (if fell then qvel (reset_cube m d) else qvel d)
  /\ (if change_goal m clk lp d
      then (axis_aligned_goal m <> 0%Z ->
            ~ (rand1_ lp' = rand1_ lp /\ rand2_ lp' = rand2_ lp))
      else rand1_ lp' = rand1_ lp /\ rand2_ lp' = rand2_ lp).
Proof.
  intros Hstep fell late won.
  unfold TransitionLocked in Hstep.
  unfold success_phase, drop_phase, reset_phase in Hstep.
  rewrite on_floor_sensordata in Hstep.
  fold (success m d) in Hstep. fold won in Hstep. fold fell in Hstep.
  unfold change_goal. fold fell late won.
  assert (Hbest : forall rc brc : Z,
             (if (rc + 1 >? brc)%Z then rc + 1 else brc)%Z
             = Z.max brc (rc + 1)).
  { intros rc brc. destruct (Z.gtb_spec (rc + 1) brc); lia. }
  assert (Hq : forall a b, qpos (set_sensordata a b) = qpos a) by reflexivity.
  assert (Hv : forall a b, qvel (set_sensordata a b) = qvel a) by reflexivity.
  assert (Hr : forall a b,
             reset_cube m (set_sensordata a b)
             = set_sensordata (reset_cube m a) b).
  { intros a b. unfold reset_cube.
    destruct (negb (mj_name2id m mjOBJ_BODY "cube" =? -1)%Z); reflexivity. }
  destruct won; destruct fell; cbn [orb] in Hstep |- *;
    try (unfold timed_out in late;
         cbn [time_of_last_rotation_ set_counts] in Hstep;
         fold late in Hstep; destruct late; cbn [orb] in Hstep |- *);
    unfold goal_phase in Hstep;
    cbn [rand1_ rand2_ set_counts] in Hstep;
    try (destruct (negb (axis_aligned_goal m =? 0)%Z) eqn:Eax;
         [ destruct (resample_pair _ _ _ _ _) as [[r1 r2] |] eqn:Es;
           [| discriminate]
         | destruct (sample_free _ _) as [qg |] eqn:Es; [| discriminate] ]);
    injection Hstep as <- <-;
    cbn; rewrite ?Hbest, ?Hr; cbn;
    repeat split; try reflexivity;
    try (intros Hne; apply SamplerFacts.resample_pair_differs in Es;
         exact Es);
    try (intros Hne; apply negb_false_iff, Z.eqb_eq in Eax; contradiction).
Qed.

End TransitionFacts.

(** ** Evaluating the orientation error *)

Module AngleFacts.
Import Transition.

Lemma norm4_unit (q : Quat) : unit_quat q -> norm4 q = 1.
Proof. unfold unit_quat, norm4. intros ->. apply sqrt_1. Qed.

Lemma normalize4_unit (q : Quat) : unit_quat q -> mju_normalize4 q = q.
Proof.
  intros Hq. unfold mju_normalize4. rewrite (norm4_unit q Hq).
  assert (E1 : Rltb 1 mjMINVAL = false)
    by (apply Rltb_false; unfold mjMINVAL; lra).
  assert (E2 : Rgtb (Rabs (1 - 1)) mjMINVAL = false).
  { apply Rgtb_false. replace (1 - 1) with 0 by ring. rewrite Rabs_R0.
    unfold mjMINVAL; lra. }
  now rewrite E1, E2.
Qed.

Lemma normalize4_zero (q : Quat) :
  q0 q = 0 -> q1 q = 0 -> q2 q = 0 -> q3 q = 0 ->
  mju_normalize4 q = mkQuat 1 0 0 0.
Proof.
  intros H0 H1 H2 H3. unfold mju_normalize4, norm4.
  rewrite H0, H1, H2, H3.
  replace (0 * 0 + 0 * 0 + 0 * 0 + 0 * 0) with 0 by ring.
  rewrite sqrt_0.
  assert (E : Rltb 0 mjMINVAL = true)
    by (apply Rltb_true; unfold mjMINVAL; lra).
  now rewrite E.
Qed.

Lemma flip_sign_keeps (q : Quat) : 0 <= q0 q -> flip_sign q = q.
Proof.
  intros Hq. unfold flip_sign.
  assert (E : Rltb (q0 q) 0.0 = false) by (apply Rltb_false; lra).
  now rewrite E.
Qed.

Lemma angle_degrees_value (q : Quat) :
  -1 <= q0 q <= 1 -> angle_degrees q = Some (2.0 * acos (q0 q) * 180.0 / PI).
Proof.
  intros Hq. unfold angle_degrees, std_acos.
  assert (E1 : Rltb (q0 q) (-1) = false) by (apply Rltb_false; lra).
  assert (E2 : Rgtb (q0 q) 1 = false) by (apply Rgtb_false; lra).
  now rewrite E1, E2.
Qed.

Lemma default_goal_keeps (sd : Mem) (g : Z) :
  sd g <> 0 -> default_goal sd g = sd.
Proof.
  intros Hg. unfold default_goal, is_zero4, Reqb0, read4. cbn [q0].
  destruct (Req_dec_T (sd g) 0); [contradiction | reflexivity].
Qed.

Lemma default_goal_blank (sd : Mem) (g : Z) :
  sd g = 0 -> sd (g + 1)%Z = 0 -> sd (g + 2)%Z = 0 -> sd (g + 3)%Z = 0 ->
  default_goal sd g = write4 sd g (mkQuat 1.0 0.0 0.0 0.0).
Proof.
  intros H0 H1 H2 H3.
  unfold default_goal, is_zero4, Reqb0, read4. cbn [q0 q1 q2 q3].
  rewrite H0, H1, H2, H3.
  destruct (Req_dec_T 0 0); [reflexivity | contradiction].
Qed.

(** At the aligned scene the error is zero degrees. *)
Lemma aligned_error (flag : option Z) (n dim : nat) :
  orientation_error (Bench.model n dim flag)
    (default_goal Bench.sensors_aligned 7) = Some (2.0 * acos 1 * 180.0 / PI).
Proof.
  rewrite default_goal_keeps by (cbn; lra).
  unfold orientation_error, goal_conjugate, quat_difference.
  assert (Eq : mju_mulQuat
                 (read4 Bench.sensors_aligned
                        (SensorByName (Bench.model n dim flag)
                                      "cube_orientation"))
                 (mju_negQuat
                    (read4 Bench.sensors_aligned
                           (SensorByName (Bench.model n dim flag)
                                         "cube_goal_orientation")))
               = mkQuat 1 0 0 0).
  { unfold mju_mulQuat, mju_negQuat, read4, Bench.sensors_aligned.
    cbn. f_equal; ring. }
  rewrite Eq.
  rewrite normalize4_unit by (unfold unit_quat; cbn; ring).
  rewrite flip_sign_keeps by (cbn; lra).
  rewrite angle_degrees_value by (cbn; lra).
  reflexivity.
Qed.

Lemma zero_degrees : 2.0 * acos 1 * 180.0 / PI = 0.
Proof. rewrite acos_1. pose proof PI_RGT_0. field. lra. Qed.

(** The flip negates all four components when the scalar part is
    negative; the scalar part it leaves is the absolute value. *)
Lemma flip_sign_negates (q : Quat) :
  q0 q < 0 -> flip_sign q = mkQuat (- q0 q) (- q1 q) (- q2 q) (- q3 q).
Proof.
  intros Hq. unfold flip_sign.
  assert (E : Rltb (q0 q) 0.0 = true) by (apply Rltb_true; lra).
  rewrite E. f_equal; lra.
Qed.

Lemma flip_sign_scalar (q : Quat) : q0 (flip_sign q) = Rabs (q0 q).
Proof.
  destruct (Rlt_le_dec (q0 q) 0) as [Hneg | Hpos].
  - rewrite flip_sign_negates by exact Hneg. cbn [q0].
    now rewrite Rabs_left.
  - rewrite flip_sign_keeps by exact Hpos. now rewrite Rabs_pos_eq.
Qed.

(** At the aligned scene the normalized product is the identity. *)
Lemma aligned_product (flag : option Z) (n dim : nat) :
  mju_normalize4
    (mju_mulQuat
       (read4 (default_goal Bench.sensors_aligned 7)
              (SensorByName (Bench.model n dim flag) "cube_orientation"))
       (mju_negQuat
          (read4 (default_goal Bench.sensors_aligned 7)
                 (SensorByName (Bench.model n dim flag)
                               "cube_goal_orientation"))))
  = mkQuat 1 0 0 0.
Proof.
  rewrite default_goal_keeps by (cbn; lra).
  assert (Eq : mju_mulQuat
                 (read4 Bench.sensors_aligned
                        (SensorByName (Bench.model n dim flag)
                                      "cube_orientation"))
                 (mju_negQuat
                    (read4 Bench.sensors_aligned
                           (SensorByName (Bench.model n dim flag)
                                         "cube_goal_orientation")))
               = mkQuat 1 0 0 0).
  { unfold mju_mulQuat, mju_negQuat, read4, Bench.sensors_aligned.
    cbn. f_equal; ring. }
  rewrite Eq. apply normalize4_unit. unfold unit_quat. cbn. ring.
Qed.

End AngleFacts.

(** ** The goal state machine: success, drop and timeout *)

Module ProgressFacts.
Import Transition.

Lemma some_pair (A B : Type) (x : A * B) : exists a b, Some x = Some (a, b).
Proof. destruct x as [a b]. now exists a, b. Qed.

(** In axis-aligned mode the step returns as soon as the first drawn pair
    differs from the stored one. *)
Lemma transition_returns_discrete `{Engine} (m : mjModel) (clk : Clock)
  (rng : Draws) (lp : Leap) (d : mjData) (d1 d2 : Z) (rest : list (Z * Z)) :
  axis_aligned_goal m <> 0%Z ->
  index_draws rng = (d1, d2) :: rest ->
  ~ (d1 = rand1_ lp /\ d2 = rand2_ lp) ->
  exists lp' d', TransitionLocked m clk rng lp d = Some (lp', d').
Proof.
  intros Hax Hdraws Hne.
  apply Z.eqb_neq in Hax.
  unfold TransitionLocked, success_phase, drop_phase, reset_phase, goal_phase.
  rewrite Hax, Hdraws. cbn [negb].
  destruct (nan_lt _ _); destruct (on_floor _ _); cbn [orb];
    try destruct (Rgtb _ 80.0); cbn [rand1_ rand2_ set_counts];
    rewrite ?(SamplerFacts.resample_pair_first _ _ _ _ _ Hne);
    apply some_pair.
Qed.

(** In continuous mode the step returns as soon as the first candidate is
    accepted. *)
Lemma transition_returns_free `{Engine} (m : mjModel) (clk : Clock)
  (rng : Draws) (lp : Leap) (d : mjData) (q : Quat) :
  axis_aligned_goal m = 0%Z ->
  sample_free
    (goal_conjugate m
       (default_goal (sensordata d) (SensorByName m "cube_goal_orientation")))
    (uniform_draws rng) = Some q ->
  exists lp' d', TransitionLocked m clk rng lp d = Some (lp', d').
Proof.
  intros Hax Hs.
  unfold TransitionLocked, success_phase, drop_phase, reset_phase, goal_phase.
  rewrite Hax, Hs. cbn [negb Z.eqb].
  destruct (nan_lt _ _); destruct (on_floor _ _); cbn [orb];
    try destruct (Rgtb _ 80.0); apply some_pair.
Qed.

End ProgressFacts.

(** C2.  On every transition step the angular error is computed from the
    quaternion difference: the current orientation multiplied by the
    conjugate of the goal, normalized, and sign-flipped (all four
    components negated) if its scalar part is negative, so that the
    scalar used is the absolute value; the angle is
    [2 acos(scalar) 180 / pi] degrees.  The step counts a success exactly
    when this angle is strictly below the threshold, 11.4592 in
    axis-aligned mode and 22.9183 otherwise: then the success block
    increments [rotation_count_], makes [best_rotation_count_] the
    maximum of its old value and the new count and requests a goal
    change, and at the end of the step the best count has that value,
    the goal has been changed, and the count is the incremented one
    unless a drop or a timeout reset it in the same step.  At or above
    the threshold the success block changes nothing. *)
Theorem success_counts_rotation `{Engine} (m : mjModel) (clk : Clock)
  (rng : Draws) (lp : Leap) (d : mjData) :
  let sd := Transition.default_goal (sensordata d)
              (SensorByName m "cube_goal_orientation") in
  let current := read4 sd (SensorByName m "cube_orientation") in
  let goal := read4 sd (SensorByName m "cube_goal_orientation") in
  let product := mju_normalize4 (mju_mulQuat current (mju_negQuat goal)) in
  let q_diff := Transition.quat_difference current (mju_negQuat goal) in
  let angle := 2 * acos (Rabs (q0 product)) * 180 / PI in
  let threshold := if (Transition.axis_aligned_goal m =? 0)%Z
                   then 22.9183 else 11.4592 in
  Rabs (q0 product) <= 1 ->
  ((q0 product < 0 ->
    q_diff = mkQuat (- q0 product) (- q1 product) (- q2 product)
                    (- q3 product))
   /\ (0 <= q0 product -> q_diff = product)
   /\ q0 q_diff = Rabs (q0 product)
   /\ Transition.orientation_error m sd = Some angle)
  /\ (Transition.success m d = true <-> angle < threshold)
  /\ (angle < threshold ->
      Transition.success_phase (Transition.orientation_error m sd)
        (Transition.angle_thresh m) lp
      = (true,
         Transition.set_counts lp (rotation_count_ lp + 1)
           (Z.max (best_rotation_count_ lp) (rotation_count_ lp + 1))))
  /\ (threshold <= angle ->
      Transition.success_phase (Transition.orientation_error m sd)
        (Transition.angle_thresh m) lp
      = (false, lp))
  /\ forall lp' d',
      TransitionLocked m clk rng lp d = Some (lp', d') ->
      (angle < threshold ->
       best_rotation_count_ lp'
         = Z.max (best_rotation_count_ lp) (rotation_count_ lp + 1)
       /\ Transition.change_goal m clk lp d = true
       /\ time_of_last_rotation_ lp' = now_at_goal_change clk
       /\ (Transition.on_floor m d = false ->
           Transition.timed_out clk lp = false ->
           rotation_count_ lp' = (rotation_count_ lp + 1)%Z))
      /\ (threshold <= angle ->
          best_rotation_count_ lp' = best_rotation_count_ lp
          /\ (Transition.on_floor m d = false ->
              Transition.timed_out clk lp = false ->
              rotation_count_ lp' = rotation_count_ lp
              /\ Transition.change_goal m clk lp d = false)).
Proof.
  intros sd current goal product q_diff angle threshold Hdef.
  assert (Hscalar : q0 q_diff = Rabs (q0 product))
    by apply AngleFacts.flip_sign_scalar.
  assert (Herr : Transition.orientation_error m sd = Some angle).
  { unfold Transition.orientation_error, Transition.goal_conjugate.
    fold current goal q_diff.
    pose proof (Rabs_pos (q0 product)) as Hpos.
    rewrite AngleFacts.angle_degrees_value by (rewrite Hscalar; lra).
    rewrite Hscalar. unfold angle.
    replace 2.0 with 2 by lra. replace 180.0 with 180 by lra. reflexivity. }
  assert (Hwon : Transition.success m d = true <-> angle < threshold).
  { unfold Transition.success. fold sd. rewrite Herr.
    cbn [Transition.nan_lt]. rewrite Rltb_true.
    unfold Transition.angle_thresh, threshold. reflexivity. }
  assert (Hlt : angle < threshold ->
                Transition.nan_lt (Some angle) (Transition.angle_thresh m)
                = true).
  { intros Hlt. apply Hwon in Hlt. unfold Transition.success in Hlt.
    fold sd in Hlt. now rewrite Herr in Hlt. }
  assert (Hge : threshold <= angle ->
                Transition.nan_lt (Some angle) (Transition.angle_thresh m)
                = false).
  { intros Hge. cbn [Transition.nan_lt]. apply Rltb_false.
    unfold Transition.angle_thresh. exact Hge. }
  split; [| split; [exact Hwon | split; [| split]]].
  - split; [| split; [| split; [exact Hscalar | exact Herr]]].
    + intros Hneg. now apply AngleFacts.flip_sign_negates.
    + intros Hpos. now apply AngleFacts.flip_sign_keeps.
  - intros Hbelow. rewrite Herr. unfold Transition.success_phase.
    rewrite (Hlt Hbelow). f_equal. f_equal.
    destruct (Z.gtb_spec (rotation_count_ lp + 1) (best_rotation_count_ lp));
      lia.
  - intros Habove. rewrite Herr. unfold Transition.success_phase.
    now rewrite (Hge Habove).
  - intros lp' d' Hstep.
    pose proof (TransitionFacts.transition_summary m clk rng lp lp' d d' Hstep)
      as (Hrc & Hbest & _ & Hrot & _ & _ & _).
    split.
    + intros Hbelow.
      assert (Hs : Transition.success m d = true) by now apply Hwon.
      assert (Hc : Transition.change_goal m clk lp d = true).
      { unfold Transition.change_goal. rewrite Hs. apply orb_true_r. }
      rewrite Hs in Hbest, Hrc. rewrite Hc in Hrot.
      repeat split; try assumption.
      intros Hf Ht. rewrite Hf, Ht in Hrc. exact Hrc.
    + intros Habove.
      assert (Hs : Transition.success m d = false).
      { destruct (Transition.success m d) eqn:E; [| reflexivity].
        pose proof (proj1 Hwon eq_refl). lra. }
      rewrite Hs in Hbest, Hrc.
      split; [exact Hbest |].
      intros Hf Ht. rewrite Hf, Ht in Hrc. split; [exact Hrc |].
      unfold Transition.change_goal. now rewrite Hf, Ht, Hs.
Qed.

(** At the aligned scene the product is the identity, the angle is zero
    degrees, below 11.4592: the step returns, counts a fourth rotation
    and keeps the best count of five. *)
Lemma success_counts_rotation_witness :
  exists lp' d',
    @TransitionLocked Bench.engine (Bench.hand) (Bench.clock 1)
      Bench.draws Bench.leap0 (Bench.data Bench.sensors_aligned [])
    = Some (lp', d')
    /\ Transition.success Bench.hand (Bench.data Bench.sensors_aligned [])
       = true
    /\ rotation_count_ lp' = 4%Z /\ best_rotation_count_ lp' = 5%Z
    /\ time_of_last_rotation_ lp' = 1.
Proof.
  destruct (@ProgressFacts.transition_returns_discrete Bench.engine
              (Bench.hand) (Bench.clock 1) Bench.draws
              Bench.leap0 (Bench.data Bench.sensors_aligned []) 1 0 [])
    as (lp' & d' & Hstep).
  - cbn. lia.
  - reflexivity.
  - cbn. lia.
  - exists lp', d'. split; [exact Hstep |].
    pose proof (AngleFacts.aligned_product None 16 58) as Hp.
    assert (Hdef : Rabs (q0 (mkQuat 1 0 0 0)) <= 1)
      by (cbn [q0]; rewrite Rabs_R1; lra).
    rewrite <- Hp in Hdef.
    destruct (@success_counts_rotation Bench.engine (Bench.hand)
                (Bench.clock 1) Bench.draws Bench.leap0
                (Bench.data Bench.sensors_aligned []) Hdef)
      as (_ & Hwon & _ & _ & Hall).
    assert (Hbelow :
              2 * acos (Rabs (q0 (mkQuat 1 0 0 0))) * 180 / PI
              < 11.4592).
    { cbn [q0]. rewrite Rabs_R1, acos_1.
      replace (2 * 0 * 180 / PI) with 0 by (unfold Rdiv; ring). lra. }
    rewrite <- Hp in Hbelow.
    split; [apply Hwon; exact Hbelow |].
    destruct (proj1 (Hall lp' d' Hstep) Hbelow) as (Hbest & _ & Hrot & Hrc).
    repeat split.
    + rewrite Hrc; [reflexivity | reflexivity |].
      apply Rgtb_false. cbn. lra.
    + rewrite Hbest. reflexivity.
    + rewrite Hrot. reflexivity.
Defined.

Module ResetFacts.
Import Transition.

Lemma mju_copy_inside (dst src : Mem) (a n i : Z) :
  (a <= i < a + n)%Z -> mju_copy dst a src a n i = src i.
Proof.
  intros Hi. unfold mju_copy.
  assert (E : ((a <=? i) && (i <? a + n))%Z = true).
  { apply andb_true_iff. split; [apply Z.leb_le | apply Z.ltb_lt]; lia. }
  rewrite E. f_equal. lia.
Qed.

Lemma mju_copy_outside (dst src : Mem) (a b n i : Z) :
  ~ (a <= i < a + n)%Z -> mju_copy dst a src b n i = dst i.
Proof.
  intros Hi. unfold mju_copy.
  destruct ((a <=? i) && (i <? a + n))%Z eqn:E; [| reflexivity].
  apply andb_true_iff in E as [E1 E2].
  apply Z.leb_le in E1. apply Z.ltb_lt in E2. lia.
Qed.

Lemma mju_zero_inside (dst : Mem) (a n i : Z) :
  (a <= i < a + n)%Z -> mju_zero dst a n i = 0.
Proof.
  intros Hi. unfold mju_zero.
  assert (E : ((a <=? i) && (i <? a + n))%Z = true).
  { apply andb_true_iff. split; [apply Z.leb_le | apply Z.ltb_lt]; lia. }
  now rewrite E.
Qed.

Lemma mju_zero_outside (dst : Mem) (a n i : Z) :
  ~ (a <= i < a + n)%Z -> mju_zero dst a n i = dst i.
Proof.
  intros Hi. unfold mju_zero.
  destruct ((a <=? i) && (i <? a + n))%Z eqn:E; [| reflexivity].
  apply andb_true_iff in E as [E1 E2].
  apply Z.leb_le in E1. apply Z.ltb_lt in E2. lia.
Qed.

Lemma reset_cube_unresolved (m : mjModel) (d : mjData) :
  mj_name2id m mjOBJ_BODY "cube" = (-1)%Z -> reset_cube m d = d.
Proof. intros E. unfold reset_cube. now rewrite E. Qed.

Lemma reset_cube_resolved (m : mjModel) (d : mjData) :
  mj_name2id m mjOBJ_BODY "cube" <> (-1)%Z ->
  let a := jnt_qposadr m (body_jntadr m (mj_name2id m mjOBJ_BODY "cube")) in
  let v := jnt_dofadr m (body_jntadr m (mj_name2id m mjOBJ_BODY "cube")) in
  qpos (reset_cube m d) = mju_copy (qpos d) a (key_qpos m) a 7
  /\ qvel (reset_cube m d) = mju_zero (qvel d) v 6.
Proof.
  intros E. apply Z.eqb_neq in E. unfold reset_cube. rewrite E.
  split; reflexivity.
Qed.

End ResetFacts.

(** What a step does on a drop or on a timeout: [rotation_count_] is
    reset to 0, the last-reset timestamp is updated and a goal change is
    forced; with the contact present the 7 position entries of the
    cube's free joint are those of the reference keyframe and its 6
    velocity entries are zero (nothing is touched if the cube body
    cannot be resolved); without the contact the pose reset of lines
    182-190 is not reached. *)
Theorem drop_or_timeout_resets `{Engine} (m : mjModel) (clk : Clock)
  (rng : Draws) (lp lp' : Leap) (d d' : mjData) :
  Transition.on_floor m d = true \/ Transition.timed_out clk lp = true ->
  TransitionLocked m clk rng lp d = Some (lp', d') ->
  let body := mj_name2id m mjOBJ_BODY "cube" in
  let a := jnt_qposadr m (body_jntadr m body) in
  let v := jnt_dofadr m (body_jntadr m body) in
  rotation_count_ lp' = 0%Z
  /\ time_of_last_reset_ lp' = now_at_reset clk
  /\ Transition.change_goal m clk lp d = true
  /\ time_of_last_rotation_ lp' = now_at_goal_change clk
  /\ (Transition.on_floor m d = true -> body <> (-1)%Z ->
      forall i,
        qpos d' i = (if ((a <=? i) && (i <? a + 7))%Z then key_qpos m i
                     else qpos d i)
        /\ qvel d' i = (if ((v <=? i) && (i <? v + 6))%Z then 0
                        else qvel d i))
  /\ (Transition.on_floor m d = true -> body = (-1)%Z ->
      qpos d' = qpos d /\ qvel d' = qvel d)
  /\ (Transition.on_floor m d = false ->
      qpos d' = qpos d /\ qvel d' = qvel d).
Proof.
  intros Hcond Hstep body a v.
  pose proof (TransitionFacts.transition_summary m clk rng lp lp' d d' Hstep)
    as (Hrc & _ & Hreset & Hrot & Hqp & Hqv & _).
  assert (Hor : Transition.on_floor m d || Transition.timed_out clk lp = true)
    by (apply orb_true_iff; exact Hcond).
  assert (Hc : Transition.change_goal m clk lp d = true)
    by (unfold Transition.change_goal; now rewrite Hor).
  rewrite Hor in Hrc, Hreset. rewrite Hc in Hrot.
  split; [exact Hrc |]. split; [exact Hreset |].
  split; [exact Hc |]. split; [exact Hrot |].
  split; [| split].
  - intros Hfell Hbody i. rewrite Hqp, Hqv, Hfell.
    destruct (ResetFacts.reset_cube_resolved m d Hbody) as [-> ->].
    fold body a v. split.
    + unfold mju_copy.
      destruct ((a <=? i) && (i <? a + 7))%Z; [f_equal; lia | reflexivity].
    + reflexivity.
  - intros Hfell Hbody. rewrite Hqp, Hqv, Hfell.
    now rewrite ResetFacts.reset_cube_unresolved.
  - intros Hfell. rewrite Hqp, Hqv, Hfell. split; reflexivity.
Qed.

(** With the cube on the floor the step returns with the count at zero
    and the cube back at its keyframe, at rest. *)
Lemma drop_or_timeout_resets_witness :
  exists lp' d',
    @TransitionLocked Bench.engine (Bench.hand) (Bench.clock 1)
      Bench.draws Bench.leap0
      (Bench.data Bench.sensors_aligned [mkContact 1 0])
    = Some (lp', d')
    /\ rotation_count_ lp' = 0%Z
    /\ qpos d' 3%Z = 0 /\ qvel d' 3%Z = 0 /\ qpos d' 7%Z = 1.
Proof.
  destruct (@ProgressFacts.transition_returns_discrete Bench.engine
              (Bench.hand) (Bench.clock 1) Bench.draws
              Bench.leap0 (Bench.data Bench.sensors_aligned [mkContact 1 0])
              1 0 [])
    as (lp' & d' & Hstep).
  - cbn. lia.
  - reflexivity.
  - cbn. lia.
  - exists lp', d'. split; [exact Hstep |].
    destruct (@drop_or_timeout_resets Bench.engine (Bench.hand)
                (Bench.clock 1) Bench.draws Bench.leap0 lp'
                (Bench.data Bench.sensors_aligned [mkContact 1 0]) d')
      as (Hrc & _ & _ & _ & Hpose & _).
    + left. reflexivity.
    + exact Hstep.
    + split; [exact Hrc |].
      assert (Hf : Transition.on_floor (Bench.hand)
                     (Bench.data Bench.sensors_aligned [mkContact 1 0])
                   = true) by reflexivity.
      assert (Hb : mj_name2id (Bench.hand) mjOBJ_BODY "cube"
                   <> (-1)%Z) by (cbn; lia).
      pose proof (Hpose Hf Hb 3%Z) as [H3 H3'].
      pose proof (Hpose Hf Hb 7%Z) as [H7 _].
      cbn in H3, H3', H7. repeat split; assumption.
Defined.

(** C3.  On a drop or a timeout the cube is to be put back on the hand,
    the count reset and a goal change forced.  The code does so on a
    drop, but on a timeout without a cube-floor contact it resets the
    counters only: with the cube body resolved, 100 seconds since the
    last rotation and no contact, the step returns with the count at 0
    and the last-reset timestamp updated, under the message "Timeout
    detected, resetting cube." and the comment "Reset the cube and
    counters", while the cube's free joint keeps the position and the
    velocity it had, away from the keyframe and not at rest.  The same
    scene with the cube on the floor does put the cube back. *)
Lemma timeout_leaves_cube_pose :
  (exists lp' d',
      @TransitionLocked Bench.engine (Bench.hand)
        (Bench.clock 100) Bench.draws Bench.leap0
        (Bench.data Scene.sensors_apart [])
      = Some (lp', d')
      /\ Transition.on_floor Bench.hand (Bench.data Scene.sensors_apart [])
         = false
      /\ Transition.timed_out (Bench.clock 100) Bench.leap0 = true
      /\ mj_name2id (Bench.hand) mjOBJ_BODY "cube" <> (-1)%Z
      /\ rotation_count_ lp' = 0%Z /\ time_of_last_reset_ lp' = 100
      /\ qpos d' 0%Z = 1 /\ qvel d' 0%Z = 1
      /\ qpos d' 0%Z <> key_qpos (Bench.hand) 0%Z
      /\ qvel d' 0%Z <> 0)
  /\ (exists lp' d',
        @TransitionLocked Bench.engine (Bench.hand)
          (Bench.clock 100) Bench.draws Bench.leap0
          (Bench.data Scene.sensors_apart [mkContact 1 0])
        = Some (lp', d')
        /\ qpos d' 0%Z = key_qpos (Bench.hand) 0%Z /\ qvel d' 0%Z = 0).
Proof.
  split.
  - destruct (@ProgressFacts.transition_returns_discrete Bench.engine
                (Bench.hand) (Bench.clock 100) Bench.draws
                Bench.leap0 (Bench.data Scene.sensors_apart []) 1 0 [])
      as (lp' & d' & Hstep).
    + cbn. lia.
    + reflexivity.
    + cbn. lia.
    + exists lp', d'. split; [exact Hstep |].
      pose proof (@TransitionFacts.transition_summary Bench.engine _ _ _ _ _
                    _ _ Hstep) as (Hrc & _ & Hreset & _ & Hqp & Hqv & _).
      assert (Hlate : Transition.timed_out (Bench.clock 100) Bench.leap0
                      = true) by (apply Rgtb_true; cbn; lra).
      assert (Hfloor : Transition.on_floor Bench.hand
                         (Bench.data Scene.sensors_apart []) = false)
        by reflexivity.
      rewrite Hfloor, Hlate in Hrc, Hreset. rewrite Hfloor in Hqp, Hqv.
      cbn in Hrc, Hreset, Hqp, Hqv.
      split; [exact Hfloor |]. split; [exact Hlate |].
      split; [cbn; lia |].
      split; [exact Hrc |]. split; [exact Hreset |].
      rewrite Hqp, Hqv. cbn. repeat split; lra.
  - destruct (@ProgressFacts.transition_returns_discrete Bench.engine
                (Bench.hand) (Bench.clock 100) Bench.draws
                Bench.leap0
                (Bench.data Scene.sensors_apart [mkContact 1 0]) 1 0 [])
      as (lp' & d' & Hstep).
    + cbn. lia.
    + reflexivity.
    + cbn. lia.
    + exists lp', d'. split; [exact Hstep |].
      pose proof (@TransitionFacts.transition_summary Bench.engine _ _ _ _ _
                    _ _ Hstep) as (_ & _ & _ & _ & Hqp & Hqv & _).
      assert (Hfloor : Transition.on_floor Bench.hand
                         (Bench.data Scene.sensors_apart [mkContact 1 0])
                       = true) by reflexivity.
      rewrite Hfloor in Hqp, Hqv.
      rewrite Hqp, Hqv. cbn. split; reflexivity.
Qed.

(** ** The goal samplers inside the step *)

(** C8.  Whenever discrete (axis-aligned) goal sampling terminates, the
    stored pair [(rand1_, rand2_)] differs from the pair stored before,
    whatever the generator returns: for the sampling loop itself, and for
    every step of [TransitionLocked] that changes the goal. *)
Theorem discrete_goal_never_repeats `{Engine} (m : mjModel) (clk : Clock)
  (rng : Draws) (q_gco_conj : Quat) (lp : Leap) (d : mjData) :
  Transition.axis_aligned_goal m <> 0%Z ->
  (forall lp' d',
      Transition.goal_phase m clk rng q_gco_conj true lp d = Some (lp', d') ->
      (rand1_ lp', rand2_ lp') <> (rand1_ lp, rand2_ lp))
  /\ (forall lp' d',
        Transition.change_goal m clk lp d = true ->
        TransitionLocked m clk rng lp d = Some (lp', d') ->
        (rand1_ lp', rand2_ lp') <> (rand1_ lp, rand2_ lp)).
Proof.
  intros Hax. split.
  - intros lp' d'. unfold Transition.goal_phase.
    apply Z.eqb_neq in Hax. rewrite Hax. cbn [negb].
    destruct (Transition.resample_pair _ _ _ _ _) as [[r1 r2] |] eqn:Es;
      [| discriminate].
    intros [= <- <-]. cbn. intros [= E1 E2].
    apply SamplerFacts.resample_pair_differs in Es. auto.
  - intros lp' d' Hc Hstep.
    pose proof (TransitionFacts.transition_summary m clk rng lp lp' d d'
                  Hstep) as (_ & _ & _ & _ & _ & _ & Hrand).
    rewrite Hc in Hrand. intros [= E1 E2]. now apply (Hrand Hax).
Qed.

(** The stored pair (0, 0) and the draw (1, 0): the new pair is (1, 0). *)
Lemma discrete_goal_never_repeats_witness :
  exists lp' d',
    @Transition.goal_phase (Bench.hand) (Bench.clock 1)
      Bench.draws (mkQuat 1 0 0 0) true Bench.leap0
      (Bench.data Bench.sensors_aligned [])
    = Some (lp', d')
    /\ (rand1_ lp', rand2_ lp') = (1%Z, 0%Z)
    /\ (rand1_ lp', rand2_ lp') <> (rand1_ Bench.leap0, rand2_ Bench.leap0).
Proof.
  eexists. eexists. split; [reflexivity |]. split; [reflexivity |].
  refine (proj1 (@discrete_goal_never_repeats Bench.engine
                   (Bench.hand) (Bench.clock 1) Bench.draws
                   (mkQuat 1 0 0 0) Bench.leap0
                   (Bench.data Bench.sensors_aligned []) _) _ _ _).
  - cbn. lia.
  - reflexivity.
Defined.

Module FreeFacts.
Import Transition.

Lemma read4_write4_apart (b : Mem) (a c : Z) (q : Quat) :
  (a + 4 <= c \/ c + 4 <= a)%Z -> read4 (write4 b c q) a = read4 b a.
Proof.
  intros Hac. unfold read4. rewrite !write4_other by lia. reflexivity.
Qed.

(** Ninety degrees or more means a scalar part of at most [cos(45)]. *)
Lemma far_angle_small_scalar (q : Quat) (angle : R) :
  angle_degrees q = Some angle -> 90 <= angle -> q0 q <= / sqrt 2.
Proof.
  intros Ha Hge.
  apply TransitionFacts.angle_degrees_some in Ha as [Hq ->].
  pose proof PI_RGT_0 as Hpi.
  assert (Hac : PI / 4 <= acos (q0 q)).
  { apply Rmult_le_reg_r with (r := 2 * 180 / PI).
    - apply Rdiv_lt_0_compat; lra.
    - replace (PI / 4 * (2 * 180 / PI)) with 90 by (field; lra).
      replace (acos (q0 q) * (2 * 180 / PI))
        with (2 * acos (q0 q) * 180 / PI) by (field; lra).
      exact Hge. }
  pose proof (acos_bound (q0 q)) as Hb.
  rewrite <- (cos_acos (q0 q) Hq).
  replace (/ sqrt 2) with (cos (PI / 4)) by (rewrite cos_PI4; field;
    apply Rgt_not_eq, sqrt_lt_R0; lra).
  apply cos_decr_1; lra.
Qed.

(** The step hands the conjugate of the defaulted goal to the sampler and
    writes the noisy-cube marker after it. *)
Lemma transition_goal_phase `{Engine} (m : mjModel) (clk : Clock)
  (rng : Draws) (lp lp' : Leap) (d d' : mjData) :
  TransitionLocked m clk rng lp d = Some (lp', d') ->
  exists lp1 d1 lp2 d2,
    goal_phase m clk rng
      (goal_conjugate m
         (default_goal (sensordata d)
                       (SensorByName m "cube_goal_orientation")))
      (change_goal m clk lp d) lp1 d1 = Some (lp2, d2)
    /\ mocap_quat d' = write4 (mocap_quat d2) 4 (quat_cube_ lp2).
Proof.
  unfold TransitionLocked. intros Hstep.
  destruct (success_phase _ _ lp) as [cg lp1] eqn:E1.
  destruct (drop_phase m _) as [fell d1] eqn:E2.
  destruct (reset_phase clk fell cg lp1) as [cg' lp2] eqn:E3.
  destruct (goal_phase _ _ _ _ cg' lp2 d1) as [[lp3 d3] |] eqn:E4;
    [| discriminate].
  injection Hstep as <- <-.
  exists lp2, d1, lp3, d3. split.
  - rewrite <- E4. f_equal.
    unfold success_phase in E1. unfold drop_phase in E2.
    unfold reset_phase in E3.
    injection E2 as <- _.
    rewrite TransitionFacts.on_floor_sensordata in E3.
    unfold change_goal, success, timed_out.
    destruct (nan_lt _ _); injection E1 as <- <-;
      cbn [time_of_last_rotation_ set_counts] in E3;
      destruct (on_floor m d); cbn [orb] in E3 |- *;
      try destruct (Rgtb _ 80.0); cbn [orb];
      injection E3 as <- _; reflexivity.
  - unfold finish_phase. destruct (fell || cg'); reflexivity.
Qed.

Lemma candidate_origin : candidate 0 0 0 = mkQuat 0 1 0 0.
Proof.
  unfold candidate.
  replace (1.0 - 0) with 1 by lra.
  replace (2.0 * PI * 0) with 0 by ring.
  rewrite sqrt_1, sqrt_0, sin_0, cos_0. f_equal; ring.
Qed.

Lemma half_turn : 2.0 * acos 0 * 180.0 / PI = 180.
Proof.
  rewrite acos_0. pose proof PI_RGT_0.
  replace 2.0 with 2 by lra. replace 180.0 with 180 by lra. field. lra.
Qed.

Lemma sample_free_origin (rest : list (R * R * R)) :
  sample_free (mkQuat 1 0 0 0) ((0, 0, 0) :: rest) = Some (mkQuat 0 1 0 0).
Proof.
  cbn [sample_free]. rewrite candidate_origin.
  assert (E : quat_difference (mkQuat 0 1 0 0) (mkQuat 1 0 0 0)
              = mkQuat 0 1 0 0).
  { unfold quat_difference.
    assert (Em : mju_mulQuat (mkQuat 0 1 0 0) (mkQuat 1 0 0 0)
                 = mkQuat 0 1 0 0)
      by (unfold mju_mulQuat; cbn [q0 q1 q2 q3]; f_equal; ring).
    rewrite Em.
    rewrite AngleFacts.normalize4_unit
      by (unfold unit_quat; cbn [q0 q1 q2 q3]; ring).
    apply AngleFacts.flip_sign_keeps. cbn [q0]. lra. }
  rewrite E.
  rewrite AngleFacts.angle_degrees_value by (cbn [q0]; lra).
  cbn [q0 nan_ge]. rewrite half_turn.
  assert (Eg : Rgeb 180 90.0 = true) by (apply Rgeb_true; lra).
  now rewrite Eg.
Qed.

End FreeFacts.

(** C7 (as amended).  Whenever continuous (free) goal sampling
    terminates, the quaternion it writes as the new goal has unit length,
    and its angular separation from the prior goal is at least 90
    degrees: that is the angle of its product with the prior goal's
    effective inverse (the conjugate [q_gco_conj]), computed as for the
    angular error, and the scalar part of that product, normalized and
    made non-negative, is at most [cos(45)].  This holds for the sampling
    phase with any draws of [absl::Uniform<double>(gen_, 0.0, 1.0)], and
    for the goal marker a step of [TransitionLocked] leaves when the
    noisy-cube marker, written last at offset 4, does not lie over it. *)
Theorem continuous_goal_unit_and_far `{Engine} (m : mjModel) (clk : Clock)
  (rng : Draws) (lp : Leap) (d : mjData) :
  Transition.axis_aligned_goal m = 0%Z ->
  Forall Transition.in_unit_interval (uniform_draws rng) ->
  let far (q_goal prior : Quat) :=
    Transition.unit_quat q_goal
    /\ (exists angle,
           Transition.angular_separation q_goal prior = Some angle
           /\ 90 <= angle)
    /\ 0 <= q0 (Transition.quat_difference q_goal (mju_negQuat prior))
         <= / sqrt 2 in
  (forall prior lp' d',
      Transition.goal_phase m clk rng (mju_negQuat prior) true lp d
      = Some (lp', d') ->
      far (read4 (mocap_quat d') (Transition.goal_address m)) prior)
  /\ (forall lp' d',
        Transition.change_goal m clk lp d = true ->
        (Transition.goal_address m + 4 <= 4
         \/ 4 + 4 <= Transition.goal_address m)%Z ->
        TransitionLocked m clk rng lp d = Some (lp', d') ->
        far (read4 (mocap_quat d') (Transition.goal_address m))
            (read4 (Transition.default_goal (sensordata d)
                      (SensorByName m "cube_goal_orientation"))
                   (SensorByName m "cube_goal_orientation"))).
Proof.
  intros Hax Hdraws far.
  assert (Hphase : forall prior lp1 d1 lp' d',
             Transition.goal_phase m clk rng (mju_negQuat prior) true lp1 d1
             = Some (lp', d') ->
             far (read4 (mocap_quat d') (Transition.goal_address m)) prior).
  { intros prior lp1 d1 lp' d'. unfold Transition.goal_phase.
    rewrite Hax. cbn [negb Z.eqb].
    destruct (Transition.sample_free _ _) as [q |] eqn:Es; [| discriminate].
    intros [= <- <-].
    unfold Transition.set_goal, set_mocap. cbn [mocap_quat].
    rewrite read4_write4.
    destruct (SamplerFacts.sample_free_accepts _ _ q Hdraws Es)
      as (Hu & angle & Ha & Hge).
    split; [exact Hu |]. split; [now exists angle |].
    split.
    - apply TransitionFacts.flip_sign_nonneg.
    - now apply (FreeFacts.far_angle_small_scalar _ angle). }
  split.
  - intros prior lp' d'. apply Hphase.
  - intros lp' d' Hc Hapart Hstep.
    destruct (FreeFacts.transition_goal_phase m clk rng lp lp' d d' Hstep)
      as (lp1 & d1 & lp2 & d2 & Hg & ->).
    rewrite Hc in Hg.
    rewrite FreeFacts.read4_write4_apart by exact Hapart.
    now apply (Hphase _ lp1 d1 lp2 d2).
Qed.

(** With the prior goal at the identity the candidate drawn from
    (0, 0, 0) is a half turn about x: it is accepted and written as the
    new goal, 180 degrees away. *)
Lemma continuous_goal_unit_and_far_witness :
  exists lp' d',
    Transition.goal_phase Bench.free_hand (Bench.clock 1) Bench.draws
      (mju_negQuat (mkQuat 1 0 0 0)) true Bench.leap0
      (Bench.data Bench.sensors_aligned [])
    = Some (lp', d')
    /\ read4 (mocap_quat d') 0 = mkQuat 0 1 0 0
    /\ Transition.unit_quat (read4 (mocap_quat d') 0)
    /\ q0 (Transition.quat_difference (read4 (mocap_quat d') 0)
                                      (mju_negQuat (mkQuat 1 0 0 0)))
       <= / sqrt 2.
Proof.
  assert (Hg : Transition.goal_phase Bench.free_hand (Bench.clock 1)
                 Bench.draws (mju_negQuat (mkQuat 1 0 0 0)) true
                 Bench.leap0 (Bench.data Bench.sensors_aligned [])
               = Some (Transition.set_rotation_clock Bench.leap0 1 0 0,
                       Transition.set_goal Bench.free_hand
                         (Bench.data Bench.sensors_aligned [])
                         (mkQuat 0 1 0 0))).
  { unfold Transition.goal_phase. cbn [negb].
    change (uniform_draws Bench.draws) with [(0, 0, 0)].
    replace (mju_negQuat (mkQuat 1 0 0 0)) with (mkQuat 1 0 0 0)
      by (unfold mju_negQuat; cbn [q0 q1 q2 q3]; f_equal; ring).
    rewrite FreeFacts.sample_free_origin. reflexivity. }
  eexists. eexists. split; [exact Hg |].
  split.
  - unfold Transition.set_goal, set_mocap. cbn [mocap_quat].
    apply read4_write4.
  - destruct (@continuous_goal_unit_and_far Bench.engine Bench.free_hand
                (Bench.clock 1) Bench.draws
                Bench.leap0 (Bench.data Bench.sensors_aligned []))
      as [Hphase _].
    + reflexivity.
    + repeat constructor; cbn; lra.
    + destruct (Hphase _ _ _ Hg) as (Hu & _ & _ & Hs).
      split; assumption.
Defined.

(** ** A new goal that is the inverse of the prior one *)

Module BackFacts.
Import Transition.

Lemma inv_sqrt2_sq : / sqrt 2 * / sqrt 2 = 1 / 2.
Proof.
  rewrite <- Rinv_mult. rewrite sqrt_sqrt by lra. lra.
Qed.

Lemma difference_value (q c r : Quat) :
  mju_mulQuat q c = r -> unit_quat r -> 0 <= q0 r -> quat_difference q c = r.
Proof.
  intros Hm Hu Hp. unfold quat_difference. rewrite Hm.
  rewrite AngleFacts.normalize4_unit by exact Hu.
  now apply AngleFacts.flip_sign_keeps.
Qed.

Lemma candidate_back :
  candidate 0 (3 / 8) 0 = mju_negQuat Bench.quarter_turn.
Proof.
  unfold candidate, mju_negQuat, Bench.quarter_turn. cbn [q0 q1 q2 q3].
  replace (1.0 - 0) with 1 by lra.
  replace (2.0 * PI * (3 / 8)) with (3 * (PI / 4)) by lra.
  replace (2.0 * PI * 0) with 0 by ring.
  rewrite sqrt_1, sqrt_0, sin_0, cos_0, sin_3PI4, cos_3PI4.
  pose proof sqrt2_neq_0. f_equal; field; assumption.
Qed.

(** The inverse of the quarter turn is half a turn away from it. *)
Lemma back_from_goal :
  angular_separation (mju_negQuat Bench.quarter_turn) Bench.quarter_turn
  = Some 180.
Proof.
  unfold angular_separation.
  rewrite (difference_value _ _ (mkQuat 0 (-1) 0 0)).
  - rewrite AngleFacts.angle_degrees_value by (cbn [q0]; lra).
    cbn [q0]. f_equal. apply FreeFacts.half_turn.
  - unfold mju_mulQuat, mju_negQuat, Bench.quarter_turn. cbn [q0 q1 q2 q3].
    pose proof inv_sqrt2_sq as Hs.
    set (s := / sqrt 2) in *. f_equal; nra.
  - unfold unit_quat. cbn [q0 q1 q2 q3]. ring.
  - cbn [q0]. lra.
Qed.

(** It is no distance at all from itself. *)
Lemma back_from_inverse :
  angular_separation (mju_negQuat Bench.quarter_turn)
                     (mju_negQuat Bench.quarter_turn) = Some 0.
Proof.
  unfold angular_separation.
  rewrite (difference_value _ _ (mkQuat 1 0 0 0)).
  - rewrite AngleFacts.angle_degrees_value by (cbn [q0]; lra).
    cbn [q0]. f_equal. apply AngleFacts.zero_degrees.
  - unfold mju_mulQuat, mju_negQuat, Bench.quarter_turn. cbn [q0 q1 q2 q3].
    pose proof inv_sqrt2_sq as Hs.
    set (s := / sqrt 2) in *. f_equal; nra.
  - unfold unit_quat. cbn [q0 q1 q2 q3]. ring.
  - cbn [q0]. lra.
Qed.

Lemma sample_free_back :
  sample_free (mju_negQuat Bench.quarter_turn) (uniform_draws Bench.draws_back)
  = Some (mju_negQuat Bench.quarter_turn).
Proof.
  cbn [sample_free uniform_draws Bench.draws_back]. rewrite candidate_back.
  pose proof back_from_goal as Hsep. unfold angular_separation in Hsep.
  rewrite Hsep. cbn [nan_ge].
  assert (E : Rgeb 180 90.0 = true) by (apply Rgeb_true; lra).
  now rewrite E.
Qed.

End BackFacts.

(** C7, as stated, fails when the prior goal is a quarter turn about x
    and the draws are (0, 3/8, 0): the quaternion written as the new goal
    is the prior goal's effective inverse itself, zero degrees away from
    it, and 180 degrees away from the prior goal. *)
Lemma continuous_goal_may_be_the_inverse :
  exists lp' d',
    Transition.goal_phase Bench.free_hand (Bench.clock 1) Bench.draws_back
      (mju_negQuat Bench.quarter_turn) true Bench.leap0
      (Bench.data Bench.sensors_aligned [])
    = Some (lp', d')
    /\ read4 (mocap_quat d') (Transition.goal_address Bench.free_hand)
       = mju_negQuat Bench.quarter_turn
    /\ Transition.angular_separation
         (read4 (mocap_quat d') (Transition.goal_address Bench.free_hand))
         (mju_negQuat Bench.quarter_turn) = Some 0
    /\ Transition.angular_separation
         (read4 (mocap_quat d') (Transition.goal_address Bench.free_hand))
         Bench.quarter_turn = Some 180.
Proof.
  eexists. eexists. split.
  - unfold Transition.goal_phase. cbn [negb].
    change (negb (Transition.axis_aligned_goal Bench.free_hand =? 0)%Z)
      with false. cbn iota.
    rewrite BackFacts.sample_free_back. reflexivity.
  - unfold Transition.set_goal, set_mocap. cbn [mocap_quat].
    rewrite read4_write4.
    split; [reflexivity |].
    split; [apply BackFacts.back_from_inverse | apply BackFacts.back_from_goal].
Qed.

(** ** The residual vector *)

Module ResidualFacts.

Lemma read_n_length (b : Mem) (a : Z) (n : nat) : length (read_n b a n) = n.
Proof. unfold read_n. now rewrite length_map, length_seq. Qed.

(** The call changes nothing in the data but the four entries of the
    goal-orientation channel. *)
Lemma residual_frame `{Engine} (m : mjModel) (d : mjData) :
  let d' := fst (fst (Residual_body m d)) in
  let g := SensorByName m "cube_goal_orientation" in
  qpos d' = qpos d /\ qvel d' = qvel d
  /\ actuator_force d' = actuator_force d
  /\ mocap_pos d' = mocap_pos d /\ mocap_quat d' = mocap_quat d
  /\ contact d' = contact d
  /\ (forall i, (i < g \/ g + 4 <= i)%Z -> sensordata d' i = sensordata d i)
  /\ read4 (sensordata d') g = mju_normalize4 (read4 (sensordata d) g).
Proof.
  cbn. repeat split; try reflexivity.
  - intros i Hi. now apply write4_other.
  - apply read4_write4.
Qed.

(** A goal of unit length is left as it is. *)
Lemma residual_keeps_unit_goal `{Engine} (m : mjModel) (d : mjData) :
  Transition.unit_quat
    (read4 (sensordata d) (SensorByName m "cube_goal_orientation")) ->
  forall i, sensordata (fst (fst (Residual_body m d))) i = sensordata d i.
Proof.
  intros Hu i. cbn.
  rewrite AngleFacts.normalize4_unit by exact Hu.
  unfold write4, read4, write1. cbn [q0 q1 q2 q3].
  repeat match goal with
         | |- context [(i =? ?a)%Z] => destruct (Z.eqb_spec i a); subst
         end; reflexivity.
Qed.

Lemma residual_layout `{Engine} (m : mjModel) (d : mjData) :
  let sd := sensordata (fst (fst (Residual_body m d))) in
  let cube := SensorByName m "cube_position" in
  snd (fst (Residual_body m d))
  = [Containment.residual0 (sensordata d cube) (sensordata d (cube + 1)%Z)
                           (sensordata d (cube + 2)%Z)]
    ++ list3 (mju_subQuat
                (read4 sd (SensorByName m "cube_goal_orientation"))
                (read4 sd (SensorByName m "cube_orientation")))
    ++ read_n sd (SensorByName m "cube_linear_velocity") 3
    ++ read_n sd (SensorByName m "cube_angular_velocity") 3
    ++ read_n (actuator_force d) 0 (nu m)
    ++ map (fun i => qpos d (7 + Z.of_nat i)%Z
                     - key_qpos m (7 + Z.of_nat i)%Z) (seq 0 16)
    ++ read_n (qvel d) 6 16.
Proof.
  unfold Residual_body. cbn [fst snd sensordata].
  rewrite <- !app_assoc. reflexivity.
Qed.

Lemma residual_length `{Engine} (m : mjModel) (d : mjData) :
  length (snd (fst (Residual_body m d)))
  = (1 + 3 + 3 + 3 + nu m + 16 + 16)%nat.
Proof.
  rewrite residual_layout. rewrite !length_app, !read_n_length.
  rewrite length_map, length_seq. cbn [length list3]. lia.
Qed.

Lemma residual_counter `{Engine} (m : mjModel) (d : mjData) :
  snd (Residual_body m d) = length (snd (fst (Residual_body m d))).
Proof.
  rewrite residual_length. unfold Residual_body. cbn [snd]. lia.
Qed.

Lemma residual_checked `{Engine} (m : mjModel) (d : mjData) :
  Residual m d
  = if Nat.eqb (length (snd (fst (Residual_body m d))))
               (declared_sensor_dim m)
    then Done (fst (Residual_body m d)) else Fatal.
Proof.
  unfold Residual, CheckSensorDim. rewrite <- residual_counter.
  destruct (Residual_body m d) as [[d1 r1] c1]. cbn [fst snd].
  destruct (Nat.eqb c1 (declared_sensor_dim m)); reflexivity.
Qed.

End ResidualFacts.



(** The control block copies as many forces as the model has actuators:
    a model with 15 actuators that declares 57 gets 57 entries.  The
    hand of the task has 16. *)
Lemma residual_length_follows_actuators :
  exists d' residual,
    @Residual Bench.engine (Bench.model 15 57 None)
      (Bench.data Bench.sensors_aligned []) = Done (d', residual)
    /\ length residual = 57%nat /\ length residual <> 58%nat.
Proof.
  pose proof (@ResidualFacts.residual_length Bench.engine
                (Bench.model 15 57 None)
                (Bench.data Bench.sensors_aligned [])) as Hlen.
  cbn [nu Bench.model] in Hlen.
  pose proof (@ResidualFacts.residual_checked Bench.engine
                (Bench.model 15 57 None)
                (Bench.data Bench.sensors_aligned [])) as Hc.
  rewrite Hlen in Hc. cbn [Nat.eqb declared_sensor_dim Bench.model Nat.add]
    in Hc.
  destruct (@Residual_body Bench.engine (Bench.model 15 57 None)
              (Bench.data Bench.sensors_aligned [])) as [[d1 r1] c1].
  cbn [fst snd] in *.
  exists d1, r1. split; [exact Hc |].
  rewrite Hlen. split; [reflexivity | discriminate].
Qed.

(** C10 at its failing input.  Before anything has been sensed the goal
    channel holds four zeros; a call of the evaluator leaves the first of
    them at 1: the sensor buffer has been written. *)
Theorem residual_rewrites_goal_sensor :
  sensordata (Bench.data Bench.sensors_blank [])
             (SensorByName Bench.hand "cube_goal_orientation") = 0
  /\ sensordata
       (fst (fst (@Residual_body Bench.engine Bench.hand
                    (Bench.data Bench.sensors_blank []))))
       (SensorByName Bench.hand "cube_goal_orientation") = 1
  /\ @Residual Bench.engine Bench.hand (Bench.data Bench.sensors_blank [])
     = Done (fst (@Residual_body Bench.engine Bench.hand
                    (Bench.data Bench.sensors_blank []))).
Proof.
  split; [reflexivity |]. split.
  - destruct (@ResidualFacts.residual_frame Bench.engine Bench.hand
                (Bench.data Bench.sensors_blank []))
      as (_ & _ & _ & _ & _ & _ & _ & Hg).
    rewrite AngleFacts.normalize4_zero in Hg by reflexivity.
    apply (f_equal q0) in Hg. exact Hg.
  - rewrite ResidualFacts.residual_checked.
    rewrite ResidualFacts.residual_length. reflexivity.
Qed.

(** ** The observation pipeline *)

Module PipelineFacts.
Import Pipeline.

Lemma modify_parameters `{Engine} (m : mjModel) (z : Gauss) (lp : Leap)
  (st : State) : parameters (fst (ModifyState m z lp st)) = parameters lp.
Proof.
  unfold ModifyState. now destruct (lagged m z lp st).
Qed.

Lemma modify_noise `{Engine} (m : mjModel) (z : Gauss) (lp : Leap)
  (st : State) :
  quat_cube_noise_ (fst (ModifyState m z lp st)) = quat_noise z lp
  /\ pos_cube_noise_ (fst (ModifyState m z lp st)) = pos_noise z lp.
Proof.
  unfold ModifyState. now destruct (lagged m z lp st).
Qed.

Lemma modify_stored `{Engine} (m : mjModel) (z : Gauss) (lp : Leap)
  (st : State) :
  stored_states_ (fst (ModifyState m z lp st)) = snd (lagged m z lp st).
Proof.
  unfold ModifyState. now destruct (lagged m z lp st).
Qed.

Lemma modify_first_time `{Engine} (m : mjModel) (z : Gauss) (lp : Leap)
  (st : State) : first_time_ (fst (ModifyState m z lp st)) = false.
Proof.
  unfold ModifyState. destruct (lagged m z lp st). cbn [fst first_time_].
  unfold no_difference.
  destruct (first_time_ lp); cbn [orb]; [reflexivity |].
  destruct (Rltb _ _); reflexivity.
Qed.

Lemma modify_written `{Engine} (m : mjModel) (z : Gauss) (lp : Leap)
  (st : State) :
  snd (ModifyState m z lp st)
  = SetVelocity m (SetPosition m st (fst (observed m z lp st)))
                (snd (observed m z lp st)).
Proof.
  unfold ModifyState, observed. now destruct (lagged m z lp st).
Qed.

Lemma run_parameters `{Engine} (m : mjModel)
  (calls : list (Gauss * State)) :
  forall lp, parameters (ModifyState_run m lp calls) = parameters lp.
Proof.
  induction calls as [| [z st] rest IH]; intros lp; cbn [ModifyState_run].
  - reflexivity.
  - rewrite IH. apply modify_parameters.
Qed.

Lemma run_snoc `{Engine} (m : mjModel) (calls : list (Gauss * State))
  (z : Gauss) (st : State) :
  forall lp,
    ModifyState_run m lp (calls ++ [(z, st)])
    = fst (ModifyState m z (ModifyState_run m lp calls) st).
Proof.
  induction calls as [| [z' st'] rest IH]; intros lp; cbn [ModifyState_run app].
  - reflexivity.
  - apply IH.
Qed.

Lemma bound_noise_abs (noise_max v : R) :
  0 <= noise_max -> Rabs (bound_noise noise_max v) <= noise_max.
Proof.
  intros Hm. unfold bound_noise.
  destruct (Rgtb v noise_max) eqn:E1.
  - rewrite Rabs_pos_eq; lra.
  - destruct (Rltb v (- noise_max)) eqn:E2.
    + rewrite Rabs_Ropp, Rabs_pos_eq; lra.
    + apply Rgtb_false in E1. apply Rltb_false in E2.
      apply Rabs_le. lra.
Qed.

(** Inside the bounds the clamp changes nothing. *)
Lemma bound_noise_inside (noise_max v : R) :
  Rabs v <= noise_max -> bound_noise noise_max v = v.
Proof.
  intros Hv.
  assert (- noise_max <= v <= noise_max)
    by (revert Hv; unfold Rabs; destruct (Rcase_abs v); lra).
  unfold bound_noise.
  assert (E1 : Rgtb v noise_max = false) by (apply Rgtb_false; lra).
  assert (E2 : Rltb v (- noise_max) = false) by (apply Rltb_false; lra).
  now rewrite E1, E2.
Qed.

Lemma bound_noise3_within (noise_max : R) (v : Vec3) :
  0 <= noise_max -> within noise_max (bound_noise3 noise_max v).
Proof.
  intros Hm. unfold within, bound_noise3. cbn [v0 v1 v2].
  repeat split; now apply bound_noise_abs.
Qed.

(** One call brings both walks within their bounds, wherever they were. *)
Lemma modify_within `{Engine} (m : mjModel) (z : Gauss) (lp : Leap)
  (st : State) :
  0 <= parameters lp 9 -> 0 <= parameters lp 10 ->
  within (parameters lp 9) (quat_cube_noise_ (fst (ModifyState m z lp st)))
  /\ within (parameters lp 10) (pos_cube_noise_ (fst (ModifyState m z lp st))).
Proof.
  intros Hq Hp. destruct (modify_noise m z lp st) as [-> ->].
  split; now apply bound_noise3_within.
Qed.

End PipelineFacts.

(** C6.  For any number of pipeline calls and any Gaussian variates, every
    component of the orientation-noise vector and of the position-noise
    vector is, after every call, at most its configured maximum
    ([parameters[9]], [parameters[10]]) in absolute value, provided the
    maxima are non-negative and the components start within the bounds. *)
Theorem noise_stays_bounded `{Engine} (m : mjModel) (lp : Leap)
  (calls : list (Pipeline.Gauss * State)) :
  0 <= parameters lp 9 -> 0 <= parameters lp 10 ->
  Pipeline.within (parameters lp 9) (quat_cube_noise_ lp) ->
  Pipeline.within (parameters lp 10) (pos_cube_noise_ lp) ->
  forall done rest,
    calls = done ++ rest ->
    Pipeline.within (parameters lp 9)
                    (quat_cube_noise_ (ModifyState_run m lp done))
    /\ Pipeline.within (parameters lp 10)
                       (pos_cube_noise_ (ModifyState_run m lp done)).
Proof.
  intros Hq Hp Hq0 Hp0 done rest _.
  induction done as [| [z st] front _] using rev_ind.
  - cbn. split; assumption.
  - rewrite PipelineFacts.run_snoc.
    rewrite <- (PipelineFacts.run_parameters m front lp) in Hq, Hp |- *.
    now apply PipelineFacts.modify_within.
Qed.

(** Two calls with variates of a thousand standard deviations: the walks,
    started at zero with maxima of 0.05, end within 0.05. *)
Lemma noise_stays_bounded_witness :
  Pipeline.within 0.05
    (quat_cube_noise_
       (@ModifyState_run Bench.engine Bench.hand Bench.leap0
          [(Bench.loud, Bench.state_at 0 1); (Bench.loud, Bench.state_at 0 2)]))
  /\ Pipeline.within 0.05
       (pos_cube_noise_
          (@ModifyState_run Bench.engine Bench.hand Bench.leap0
             [(Bench.loud, Bench.state_at 0 1);
              (Bench.loud, Bench.state_at 0 2)])).
Proof.
  apply (@noise_stays_bounded Bench.engine Bench.hand Bench.leap0
           [(Bench.loud, Bench.state_at 0 1); (Bench.loud, Bench.state_at 0 2)])
    with (rest := []).
  - cbn. lra.
  - cbn. lra.
  - unfold Pipeline.within. cbn. rewrite Rabs_R0. lra.
  - unfold Pipeline.within. cbn. rewrite Rabs_R0. lra.
  - now rewrite app_nil_r.
Defined.

Module VelocityFacts.
Import Pipeline.

Lemma nth_map_seq (f : nat -> R) (n i : nat) :
  (i < n)%nat -> nth i (map f (seq 0 n)) 0 = f i.
Proof.
  intros Hi.
  rewrite (nth_indep _ 0 (f 0%nat)) by (now rewrite length_map, length_seq).
  rewrite map_nth, seq_nth by exact Hi. reflexivity.
Qed.

Lemma vec_copy_length (dst src : list R) (off soff n : nat) :
  length (vec_copy dst off src soff n) = length dst.
Proof. unfold vec_copy. now rewrite length_map, length_seq. Qed.

Lemma vec_copy_nth (dst src : list R) (off soff n i : nat) :
  (i < length dst)%nat ->
  nth i (vec_copy dst off src soff n) 0
  = if (off <=? i)%nat && (i <? off + n)%nat
    then nth (soff + (i - off)) src 0 else nth i dst 0.
Proof. intros Hi. unfold vec_copy. now rewrite nth_map_seq. Qed.

Lemma finite_differences_nth (alpha dt : R) (pos_cube : Vec3)
  (quat_cube : Quat) (s last_state : list R) (i : nat) :
  (i < 22)%nat ->
  nth i (finite_differences alpha dt pos_cube quat_cube s last_state) 0
  = alpha * raw_velocity dt pos_cube quat_cube s last_state i.
Proof.
  intros Hi. unfold finite_differences, raw_velocity.
  rewrite nth_map_seq by (cbn; lia).
  destruct (i <? 3)%nat; [unfold Rdiv; ring |].
  destruct (i <? 6)%nat; [reflexivity | unfold Rdiv; ring].
Qed.

(** The emitted component: the scaled raw estimate plus the share of the
    stored one. *)
Lemma velocity_nth `{Engine} (z : Gauss) (lp : Leap) (st : State) (i : nat) :
  (i < 22)%nat ->
  nth i (velocity z lp st) 0
  = parameters lp 11
    * (if no_difference lp st then 0
       else raw_velocity (time st - last_time_ lp)
                         (noisy_pos z lp (state st))
                         (noisy_quat z lp (state st))
                         (state st) (last_state_ lp) i)
    + (1 - parameters lp 11) * nth (23 + i) (last_state_ lp) 0.
Proof.
  intros Hi. unfold velocity, mju_addToScl.
  assert (Hlen : forall x y : list R,
             length x = 22%nat -> length y = 22%nat ->
             length (if no_difference lp st then x else y) = 22%nat)
    by (intros; now destruct (no_difference lp st)).
  rewrite Hlen;
    [| apply repeat_length
     | unfold finite_differences; now rewrite length_map, length_seq].
  rewrite nth_map_seq by exact Hi.
  assert (E : (i <? 6 + 16)%nat = true) by (apply Nat.ltb_lt; cbn; lia).
  rewrite E.
  destruct (no_difference lp st).
  - rewrite nth_repeat. cbn [Nat.add]. lra.
  - rewrite finite_differences_nth by exact Hi. cbn [Nat.add]. lra.
Qed.

Lemma no_difference_true (lp : Leap) (st : State) :
  no_difference lp st = true
  <-> first_time_ lp = true \/ time st - last_time_ lp < 1e-6.
Proof.
  unfold no_difference. rewrite orb_true_iff, Rltb_true. reflexivity.
Qed.

End VelocityFacts.

(** What one call emits: each of the 22 components of the velocity
    estimate is [alpha raw + (1 - alpha) previous], where [previous] is
    the matching velocity entry of [last_state_] and [raw] is zero on
    the first call or when [dt < 1e-6] (the differences are then not
    formed) and otherwise the backward finite difference (translation
    and joints) or the quaternion-difference angular velocity
    (rotation).  After any call [first_time_] is false. *)
Theorem velocity_estimate_filtered `{Engine} (m : mjModel)
  (z : Pipeline.Gauss) (lp : Leap) (st : State) (i : nat) :
  (i < 22)%nat ->
  let alpha := parameters lp 11 in
  let dt := time st - last_time_ lp in
  let previous := nth (23 + i) (last_state_ lp) 0 in
  let differences :=
    Pipeline.raw_velocity dt (Pipeline.noisy_pos z lp (state st))
      (Pipeline.noisy_quat z lp (state st)) (state st) (last_state_ lp) i in
  let emitted := nth i (Pipeline.velocity z lp st) 0 in
  (Pipeline.no_difference lp st = true
   <-> first_time_ lp = true \/ dt < 1e-6)
  /\ (Pipeline.no_difference lp st = true ->
      emitted = (1 - alpha) * previous)
  /\ (Pipeline.no_difference lp st = true ->
      previous = 0 \/ alpha = 1 -> emitted = 0)
  /\ (Pipeline.no_difference lp st = false ->
      emitted = alpha * differences + (1 - alpha) * previous)
  /\ first_time_ (fst (ModifyState m z lp st)) = false.
Proof.
  intros Hi alpha dt previous differences emitted.
  pose proof (VelocityFacts.velocity_nth z lp st i Hi) as Hv.
  fold emitted alpha previous dt differences in Hv.
  split; [apply VelocityFacts.no_difference_true |].
  split; [intros Hn; rewrite Hn in Hv; lra |].
  split; [intros Hn [Hz | Ha]; rewrite Hn in Hv; rewrite Hv, ?Hz, ?Ha; ring |].
  split; [intros Hn; rewrite Hn in Hv; exact Hv |].
  apply PipelineFacts.modify_first_time.
Qed.

(** The first call, with nothing stored: the emitted estimate is zero. *)
Lemma velocity_estimate_filtered_witness :
  Pipeline.no_difference Bench.leap0 (Bench.state_at 1 1) = true
  /\ nth 0 (@Pipeline.velocity Bench.engine Bench.loud Bench.leap0
              (Bench.state_at 1 1)) 0 = 0.
Proof.
  split; [reflexivity |].
  destruct (@velocity_estimate_filtered Bench.engine Bench.hand Bench.loud
              Bench.leap0 (Bench.state_at 1 1) 0%nat)
    as (_ & _ & Hzero & _).
  - lia.
  - apply Hzero; [reflexivity | left; reflexivity].
Defined.

(** On a later call with [dt = 0] the term weighted by [1 - alpha] is
    still added: with [alpha = 1/2] and a stored velocity entry of 1
    the emitted component is 1/2. *)
Lemma negligible_dt_emits_nonzero :
  first_time_ Bench.leap_stale = false
  /\ time (Bench.state_at 0 0) - last_time_ Bench.leap_stale < 1e-6
  /\ nth 0 (@Pipeline.velocity Bench.engine Bench.quiet Bench.leap_stale
              (Bench.state_at 0 0)) 0 = 1 / 2
  /\ nth 0 (@Pipeline.velocity Bench.engine Bench.quiet Bench.leap_stale
              (Bench.state_at 0 0)) 0 <> 0.
Proof.
  assert (Hdt : time (Bench.state_at 0 0) - last_time_ Bench.leap_stale
                < 1e-6) by (cbn; lra).
  assert (Hn : Pipeline.no_difference Bench.leap_stale (Bench.state_at 0 0)
               = true)
    by (apply VelocityFacts.no_difference_true; right; exact Hdt).
  pose proof (@VelocityFacts.velocity_nth Bench.engine Bench.quiet
                Bench.leap_stale (Bench.state_at 0 0) 0%nat) as Hv.
  rewrite Hn in Hv.
  assert (Hv' : nth 0 (@Pipeline.velocity Bench.engine Bench.quiet
                         Bench.leap_stale (Bench.state_at 0 0)) 0 = 1 / 2).
  { rewrite Hv by lia. cbn. lra. }
  repeat split; try assumption.
  rewrite Hv'. lra.
Qed.

Module LagFacts.
Import Pipeline.

Lemma as_size_t_int (lag : Z) :
  (0 <= lag <= INT_MAX)%Z -> as_size_t lag = lag.
Proof.
  intros Hl. unfold as_size_t. apply Z.mod_small.
  unfold INT_MAX in Hl. lia.
Qed.

Lemma as_size_t_nonneg (lag : Z) : (0 <= as_size_t lag)%Z.
Proof. unfold as_size_t. apply Z.mod_pos_bound. lia. Qed.

Lemma trim_front_length (lag : Z) (q : list (list R)) :
  (Z.of_nat (length (trim_front lag q)) <= as_size_t lag)%Z.
Proof.
  induction q as [| x rest IH]; cbn [trim_front].
  - cbn. apply as_size_t_nonneg.
  - destruct (Z.gtb_spec (Z.of_nat (length (x :: rest))) (as_size_t lag)).
    + exact IH.
    + assumption.
Qed.

Lemma trim_front_suffix (lag : Z) (q : list (list R)) :
  exists dropped, q = dropped ++ trim_front lag q.
Proof.
  induction q as [| x rest [dropped IH]]; cbn [trim_front].
  - now exists [].
  - destruct (Z.of_nat (length (x :: rest)) >? as_size_t lag)%Z.
    + exists (x :: dropped). cbn. now f_equal.
    + now exists [].
Qed.

Lemma trim_front_short (lag : Z) (q : list (list R)) :
  (Z.of_nat (length q) <= as_size_t lag)%Z -> trim_front lag q = q.
Proof.
  intros Hq. destruct q as [| x rest]; [reflexivity |].
  cbn [trim_front].
  destruct (Z.gtb_spec (Z.of_nat (length (x :: rest))) (as_size_t lag));
    [lia | reflexivity].
Qed.

Lemma trim_front_zero (q : list (list R)) : trim_front 0 q = [].
Proof.
  pose proof (trim_front_length 0 q) as Hl.
  rewrite as_size_t_int in Hl by (unfold INT_MAX; lia).
  destruct (trim_front 0 q); [reflexivity | cbn in Hl; lia].
Qed.

(** The three cases of the queue. *)
Lemma lag_buffer_off (lag : Z) (n : nat) (q : list (list R)) (fresh : list R) :
  (lag <= 0)%Z -> lag_buffer lag n q fresh = (fresh, q).
Proof.
  intros Hl. unfold lag_buffer.
  assert (E : (lag >? 0)%Z = false) by (destruct (Z.gtb_spec lag 0); lia).
  rewrite E, andb_false_r. reflexivity.
Qed.

Lemma lag_buffer_filling (lag : Z) (n : nat) (q : list (list R))
  (fresh : list R) :
  (0 < lag)%Z -> (Z.of_nat (length q) < as_size_t lag)%Z ->
  lag_buffer lag n q fresh = (fresh, q ++ [fresh]).
Proof.
  intros Hl Hq. unfold lag_buffer.
  assert (E1 : (lag >? 0)%Z = true) by (destruct (Z.gtb_spec lag 0); lia).
  assert (E2 : (Z.of_nat (length q) >=? as_size_t lag)%Z = false)
    by (destruct (Z.geb_spec (Z.of_nat (length q)) (as_size_t lag)); lia).
  rewrite E1, E2. reflexivity.
Qed.

Lemma lag_buffer_full (lag : Z) (n : nat) (oldest : list R)
  (rest : list (list R)) (fresh : list R) :
  (0 < lag)%Z -> (as_size_t lag <= Z.of_nat (length (oldest :: rest)))%Z ->
  lag_buffer lag n (oldest :: rest) fresh
  = (vec_copy fresh 0 oldest 0 n, rest ++ [fresh]).
Proof.
  intros Hl Hq. unfold lag_buffer.
  assert (E1 : (lag >? 0)%Z = true) by (destruct (Z.gtb_spec lag 0); lia).
  assert (E2 : (Z.of_nat (length (oldest :: rest)) >=? as_size_t lag)%Z
               = true).
  { destruct (Z.geb_spec (Z.of_nat (length (oldest :: rest)))
                         (as_size_t lag)); [reflexivity | lia]. }
  rewrite E1, E2. reflexivity.
Qed.

Lemma state_new_length `{Engine} (m : mjModel) (z : Gauss) (lp : Leap)
  (st : State) : length (state_new m z lp st) = length (state st).
Proof.
  unfold state_new. now rewrite !VelocityFacts.vec_copy_length.
Qed.

(** Reading back the part of the oldest observation that was copied. *)
Lemma slice_vec_copy (fresh oldest : list R) (n off k : nat) :
  (off + k <= n)%nat -> (n <= length fresh)%nat ->
  slice (vec_copy fresh 0 oldest 0 n) off k = slice oldest off k.
Proof.
  intros Hk Hn. unfold slice. apply map_ext_in. intros i Hi.
  apply in_seq in Hi.
  rewrite VelocityFacts.vec_copy_nth by lia.
  assert (E : ((0 <=? off + i)%nat && (off + i <? 0 + n)%nat) = true).
  { apply andb_true_iff. split; [apply Nat.leb_le | apply Nat.ltb_lt]; lia. }
  rewrite E. f_equal. lia.
Qed.

Lemma lag_steps_modify `{Engine} (m : mjModel) (z : Gauss) (lp : Leap)
  (st : State) : lag_steps (fst (ModifyState m z lp st)) = lag_steps lp.
Proof. unfold lag_steps. now rewrite PipelineFacts.modify_parameters. Qed.

Lemma lag_steps_run `{Engine} (m : mjModel) (calls : list (Gauss * State))
  (lp : Leap) : lag_steps (ModifyState_run m lp calls) = lag_steps lp.
Proof. unfold lag_steps. now rewrite PipelineFacts.run_parameters. Qed.

Lemma fresh_states_length `{Engine} (m : mjModel)
  (calls : list (Gauss * State)) :
  forall lp, length (fresh_states m lp calls) = length calls.
Proof.
  induction calls as [| [z st] rest IH]; intros lp; cbn.
  - reflexivity.
  - now rewrite IH.
Qed.

(** While the queue has room every fresh observation is appended. *)
Lemma run_fills `{Engine} (m : mjModel) (k : nat)
  (calls : list (Gauss * State)) :
  forall lp,
    lag_steps lp = Z.of_nat k -> (Z.of_nat k <= INT_MAX)%Z ->
    (length (stored_states_ lp) + length calls <= k)%nat ->
    stored_states_ (ModifyState_run m lp calls)
    = stored_states_ lp ++ fresh_states m lp calls.
Proof.
  induction calls as [| [z st] rest IH]; intros lp Hlag Hint Hroom.
  - cbn. now rewrite app_nil_r.
  - cbn [ModifyState_run fresh_states]. cbn [length] in Hroom.
    assert (Hstep : stored_states_ (fst (ModifyState m z lp st))
                    = stored_states_ lp ++ [state_new m z lp st]).
    { rewrite PipelineFacts.modify_stored. unfold lagged.
      rewrite Hlag.
      rewrite trim_front_short by (rewrite as_size_t_int; lia).
      rewrite lag_buffer_filling; [reflexivity | lia |].
      rewrite as_size_t_int; lia. }
    rewrite IH.
    + rewrite Hstep, <- app_assoc. reflexivity.
    + now rewrite lag_steps_modify.
    + exact Hint.
    + rewrite Hstep, length_app. cbn [length]. lia.
Qed.

(** The queue after a call: a suffix of the old queue, then the fresh
    observation when the lag is positive. *)
Lemma queue_after `{Engine} (m : mjModel) (z : Gauss) (lp : Leap)
  (st : State) :
  (0 <= lag_steps lp <= INT_MAX)%Z ->
  exists dropped kept,
    stored_states_ lp = dropped ++ kept
    /\ snd (lagged m z lp st)
       = kept ++ (if (0 <? lag_steps lp)%Z then [state_new m z lp st]
                  else [])
    /\ (Z.of_nat (length (snd (lagged m z lp st))) <= lag_steps lp)%Z.
Proof.
  intros Hint. unfold lagged.
  set (lag := lag_steps lp) in *. set (fresh := state_new m z lp st).
  destruct (trim_front_suffix lag (stored_states_ lp)) as [dropped Hd].
  pose proof (trim_front_length lag (stored_states_ lp)) as Hl.
  rewrite as_size_t_int in Hl by exact Hint.
  set (q := trim_front lag (stored_states_ lp)) in *.
  destruct (Z.ltb_spec 0 lag) as [Hpos | Hzero].
  - destruct (Z.lt_ge_cases (Z.of_nat (length q)) lag) as [Hroom | Hfull].
    + exists dropped, q. rewrite lag_buffer_filling;
        [| lia | rewrite as_size_t_int; lia].
      cbn [snd]. rewrite length_app. cbn [length].
      repeat split; [exact Hd | lia].
    + destruct q as [| oldest rest] eqn:Eq; [cbn in Hfull; lia |].
      exists (dropped ++ [oldest]), rest.
      rewrite lag_buffer_full; [| lia | rewrite as_size_t_int; lia].
      cbn [snd]. rewrite length_app. cbn [length] in *.
      repeat split; [now rewrite <- app_assoc | lia].
  - exists dropped, q. rewrite lag_buffer_off by lia. cbn [snd].
    rewrite app_nil_r. repeat split; [exact Hd | lia].
Qed.

End LagFacts.

Module RoundFacts.
Import Pipeline.

Lemma std_round_IZR (n : Z) : std_round (IZR n) = n.
Proof.
  unfold std_round. destruct (Rle_dec 0 (IZR n)).
  - apply Zfloor_eq. lra.
  - apply Zceil_eq. lra.
Qed.

Lemma lag_steps_bench (first : bool) (last : list R)
  (stored : list (list R)) (alpha : R) (n : Z) :
  lag_steps (Bench.leap first last stored (Bench.tunables alpha (IZR n))) = n.
Proof. unfold lag_steps. cbn. apply std_round_IZR. Qed.

(** Without lag the observation goes out as computed and the queue is
    empty afterwards. *)
Lemma lagged_zero `{Engine} (m : mjModel) (z : Gauss) (lp : Leap)
  (st : State) :
  lag_steps lp = 0%Z -> lagged m z lp st = (state_new m z lp st, []).
Proof.
  intros Hl. unfold lagged. rewrite Hl.
  rewrite LagFacts.trim_front_zero. now rewrite LagFacts.lag_buffer_off.
Qed.

End RoundFacts.

(** C4 (as amended).  For the latency buffer of the observation pipeline:
    what a call writes back is the first [nq + nv] entries of the lagged
    state.  With [lag_steps = 0] that is the freshly computed state, on
    every call.  With [lag_steps = k > 0], starting from an empty buffer,
    the output of call k+1 is the state computed on call 1: the oldest
    entry leaves the buffer whenever the buffer holds at least [k]
    entries.  The freshly computed state is enqueued afterwards whenever
    [lag_steps > 0]; with [lag_steps = 0] nothing is enqueued.  In every
    case the new queue is a suffix of the old one (entries are dropped
    from the front) followed by the fresh state if any, and its length is
    at most [lag_steps]. *)
Theorem latency_buffer_delays `{Engine} (m : mjModel) (z : Pipeline.Gauss)
  (lp : Leap) (st : State) :
  let lag := Pipeline.lag_steps lp in
  let fresh := Pipeline.state_new m z lp st in
  snd (ModifyState m z lp st)
  = SetVelocity m (SetPosition m st (fst (observed m z lp st)))
                (snd (observed m z lp st))
  /\ (lag = 0%Z ->
      observed m z lp st
      = (Pipeline.slice fresh 0 (nq m), Pipeline.slice fresh (nq m) (nv m))
      /\ stored_states_ (fst (ModifyState m z lp st)) = [])
  /\ (forall (k : nat) lp1 call1 between,
        (0 < k)%nat -> (Z.of_nat k <= INT_MAX)%Z ->
        Pipeline.lag_steps lp1 = Z.of_nat k ->
        stored_states_ lp1 = [] ->
        length between = (k - 1)%nat ->
        lp = ModifyState_run m lp1 (call1 :: between) ->
        (nq m + nv m <= length (state st))%nat ->
        let first := Pipeline.state_new m (fst call1) lp1 (snd call1) in
        observed m z lp st
        = (Pipeline.slice first 0 (nq m),
           Pipeline.slice first (nq m) (nv m)))
  /\ (forall oldest rest,
        (0 < lag <= INT_MAX)%Z ->
        Pipeline.trim_front lag (stored_states_ lp) = oldest :: rest ->
        (lag <= Z.of_nat (length (oldest :: rest)))%Z ->
        fst (Pipeline.lagged m z lp st)
        = vec_copy fresh 0 oldest 0 (nq m + nv m))
  /\ ((0 <= lag <= INT_MAX)%Z ->
      exists dropped kept,
        stored_states_ lp = dropped ++ kept
        /\ stored_states_ (fst (ModifyState m z lp st))
           = kept ++ (if (0 <? lag)%Z then [fresh] else [])
        /\ (Z.of_nat (length (stored_states_ (fst (ModifyState m z lp st))))
            <= lag)%Z).
Proof.
  intros lag fresh.
  split; [apply PipelineFacts.modify_written |].
  split.
  { intros Hl. rewrite PipelineFacts.modify_stored. unfold observed.
    rewrite (RoundFacts.lagged_zero m z lp st Hl). split; reflexivity. }
  split.
  { intros k lp1 [z1 st1] between Hk Hint Hlag Hempty Hlen -> Hst first.
    pose proof (LagFacts.run_fills m k ((z1, st1) :: between) lp1 Hlag Hint)
      as Hq.
    rewrite Hempty in Hq. cbn [length app fresh_states] in Hq.
    specialize (Hq ltac:(lia)).
    unfold observed, Pipeline.lagged.
    rewrite LagFacts.lag_steps_run, Hlag, Hq.
    set (later := fresh_states m _ between).
    assert (Hl : length later = (k - 1)%nat)
      by (subst later; now rewrite LagFacts.fresh_states_length).
    rewrite LagFacts.trim_front_short
      by (rewrite LagFacts.as_size_t_int by lia; cbn [length]; lia).
    rewrite LagFacts.lag_buffer_full;
      [| lia | rewrite LagFacts.as_size_t_int by lia; cbn [length]; lia].
    cbn [fst snd].
    rewrite !LagFacts.slice_vec_copy;
      try (rewrite LagFacts.state_new_length; exact Hst); try lia.
    reflexivity. }
  split.
  { intros oldest rest Hl Ht Hfull. unfold Pipeline.lagged. fold lag fresh.
    rewrite Ht. rewrite LagFacts.lag_buffer_full; [reflexivity | lia |].
    rewrite LagFacts.as_size_t_int by lia. exact Hfull. }
  intros Hl. rewrite PipelineFacts.modify_stored.
  now apply LagFacts.queue_after.
Qed.

(** One step of lag: the second call writes back what the first call
    computed. *)
Lemma latency_buffer_delays_witness :
  @observed Bench.engine Bench.hand Bench.quiet
    (fst (@ModifyState Bench.engine Bench.hand Bench.loud Bench.leap_lag1
                       (Bench.state_at 1 1)))
    (Bench.state_at 2 2)
  = (Pipeline.slice
       (@Pipeline.state_new Bench.engine Bench.hand Bench.loud
          Bench.leap_lag1 (Bench.state_at 1 1)) 0 23,
     Pipeline.slice
       (@Pipeline.state_new Bench.engine Bench.hand Bench.loud
          Bench.leap_lag1 (Bench.state_at 1 1)) 23 22).
Proof.
  destruct (@latency_buffer_delays Bench.engine Bench.hand Bench.quiet
              (fst (@ModifyState Bench.engine Bench.hand Bench.loud
                                 Bench.leap_lag1 (Bench.state_at 1 1)))
              (Bench.state_at 2 2))
    as (_ & _ & Hdelay & _).
  apply (Hdelay 1%nat Bench.leap_lag1 (Bench.loud, Bench.state_at 1 1) []).
  - lia.
  - unfold INT_MAX. lia.
  - apply (RoundFacts.lag_steps_bench true (repeat 0 45) [] (1 / 2) 1).
  - reflexivity.
  - reflexivity.
  - reflexivity.
  - cbn. lia.
Defined.

(** C4, as stated, fails for [lag_steps = 0]: the freshly computed state
    is not enqueued, the queue is empty after the call. *)
Lemma zero_lag_enqueues_nothing :
  Pipeline.lag_steps Bench.leap0 = 0%Z
  /\ stored_states_
       (fst (@ModifyState Bench.engine Bench.hand Bench.quiet Bench.leap0
                          (Bench.state_at 1 1))) = []
  /\ ~ In (@Pipeline.state_new Bench.engine Bench.hand Bench.quiet
             Bench.leap0 (Bench.state_at 1 1))
          (stored_states_
             (fst (@ModifyState Bench.engine Bench.hand Bench.quiet
                                Bench.leap0 (Bench.state_at 1 1)))).
Proof.
  assert (Hl : Pipeline.lag_steps Bench.leap0 = 0%Z)
    by (apply (RoundFacts.lag_steps_bench true (repeat 0 45) [] (1 / 2) 0)).
  assert (Hq : stored_states_
                 (fst (@ModifyState Bench.engine Bench.hand Bench.quiet
                                    Bench.leap0 (Bench.state_at 1 1))) = []).
  { rewrite PipelineFacts.modify_stored.
    now rewrite (@RoundFacts.lagged_zero Bench.engine Bench.hand Bench.quiet
                   Bench.leap0 (Bench.state_at 1 1) Hl). }
  split; [exact Hl |]. split; [exact Hq |]. rewrite Hq. intros [].
Qed.

(** * Further properties of the goal state machine *)

Module CounterFacts.
Import Transition.

Lemma step_counters `{Engine} (m : mjModel) (clk : Clock) (rng : Draws)
  (lp lp' : Leap) (d d' : mjData) :
  TransitionLocked m clk rng lp d = Some (lp', d') ->
  (0 <= rotation_count_ lp <= best_rotation_count_ lp)%Z ->
  (0 <= rotation_count_ lp' <= best_rotation_count_ lp'
   /\ best_rotation_count_ lp <= best_rotation_count_ lp'
   /\ rotation_count_ lp' <= rotation_count_ lp + 1
   /\ best_rotation_count_ lp'
      <= Z.max (best_rotation_count_ lp) (rotation_count_ lp + 1))%Z.
Proof.
  intros Hstep Hord.
  pose proof (TransitionFacts.transition_summary m clk rng lp lp' d d' Hstep)
    as (Hrc & Hbest & _).
  rewrite Hrc, Hbest.
  destruct (on_floor m d || timed_out clk lp); destruct (success m d); lia.
Qed.

End CounterFacts.

(** X1.  Over any sequence of steps that return, the rotation counters
    stay ordered, [0 <= rotation_count_ <= best_rotation_count_], the best
    count never decreases, and neither count grows by more than one per
    step. *)
Theorem counters_stay_ordered `{Engine} (m : mjModel)
  (steps : list (Clock * Draws * mjData)) :
  forall lp lp',
    (0 <= rotation_count_ lp <= best_rotation_count_ lp)%Z ->
    TransitionLocked_run m lp steps = Some lp' ->
    (0 <= rotation_count_ lp' <= best_rotation_count_ lp'
     /\ best_rotation_count_ lp <= best_rotation_count_ lp'
     /\ rotation_count_ lp' <= rotation_count_ lp + Z.of_nat (length steps)
     /\ best_rotation_count_ lp'
        <= Z.max (best_rotation_count_ lp)
                 (rotation_count_ lp + Z.of_nat (length steps)))%Z.
Proof.
  induction steps as [| [[clk rng] d] rest IH]; intros lp lp' Hord Hrun.
  - cbn in Hrun. injection Hrun as <-. cbn [length]. lia.
  - cbn [TransitionLocked_run] in Hrun.
    destruct (TransitionLocked m clk rng lp d) as [[lp1 d1] |] eqn:Hstep;
      [| discriminate].
    pose proof (CounterFacts.step_counters m clk rng lp lp1 d d1 Hstep Hord)
      as (H0 & H1 & H2 & H3).
    specialize (IH lp1 lp' H0 Hrun). cbn [length]. lia.
Qed.

(** A step at the aligned scene, from three rotations and a best of
    five: the counters end ordered. *)
Lemma counters_stay_ordered_witness :
  exists lp',
    @TransitionLocked_run Bench.engine Bench.hand Bench.leap0
      [(Bench.clock 1, Bench.draws, Bench.data Bench.sensors_aligned [])]
    = Some lp'
    /\ (0 <= rotation_count_ lp' <= best_rotation_count_ lp')%Z
    /\ (5 <= best_rotation_count_ lp')%Z.
Proof.
  destruct (@ProgressFacts.transition_returns_discrete Bench.engine
              Bench.hand (Bench.clock 1) Bench.draws Bench.leap0
              (Bench.data Bench.sensors_aligned []) 1 0 [])
    as (lp' & d' & Hstep).
  - cbn. lia.
  - reflexivity.
  - cbn. lia.
  - exists lp'.
    assert (Hrun : @TransitionLocked_run Bench.engine Bench.hand Bench.leap0
                     [(Bench.clock 1, Bench.draws,
                       Bench.data Bench.sensors_aligned [])] = Some lp')
      by (cbn [TransitionLocked_run]; now rewrite Hstep).
    split; [exact Hrun |].
    destruct (@counters_stay_ordered Bench.engine Bench.hand _ Bench.leap0
                lp' ltac:(cbn; lia) Hrun) as (H0 & H1 & _).
    split; [exact H0 | exact H1].
Defined.

Module IdleFacts.
Import Transition.

(** At the scene where cube and goal are half a turn apart the error is
    180 degrees, and no success is counted. *)
Lemma apart_error (m : mjModel) :
  sensor_channel m = Bench.channels ->
  orientation_error m (default_goal Scene.sensors_apart 7) = Some 180.
Proof.
  intros Hch.
  rewrite AngleFacts.default_goal_keeps by (cbn; lra).
  unfold orientation_error, goal_conjugate, SensorByName. rewrite Hch.
  assert (Eq : mju_mulQuat
                 (read4 Scene.sensors_apart (Bench.channels "cube_orientation"))
                 (mju_negQuat
                    (read4 Scene.sensors_apart
                           (Bench.channels "cube_goal_orientation")))
               = mkQuat 0 1 0 0).
  { unfold mju_mulQuat, mju_negQuat, read4, Scene.sensors_apart.
    cbn. f_equal; ring. }
  rewrite (BackFacts.difference_value _ _ (mkQuat 0 1 0 0) Eq).
  - rewrite AngleFacts.angle_degrees_value by (cbn [q0]; lra).
    cbn [q0]. f_equal. apply FreeFacts.half_turn.
  - unfold unit_quat. cbn [q0 q1 q2 q3]. ring.
  - cbn [q0]. lra.
Qed.

Lemma apart_no_success (m : mjModel) :
  sensor_channel m = Bench.channels ->
  success m (Bench.data Scene.sensors_apart []) = false.
Proof.
  intros Hch. unfold success.
  assert (Eg : SensorByName m "cube_goal_orientation" = 7%Z)
    by (unfold SensorByName; now rewrite Hch).
  cbn [sensordata Bench.data]. rewrite Eg, (apart_error m Hch).
  cbn [nan_lt]. apply Rltb_false.
  unfold angle_thresh. destruct (axis_aligned_goal m =? 0)%Z; lra.
Qed.

End IdleFacts.

(** X2.  A step with no success, no cube-floor contact and no timeout
    returns without consulting the generator and without a forward pass:
    the counters, the reset and rotation timestamps and the stored index
    pair are unchanged, positions, velocities, actuator forces and
    contacts are unchanged, the sensor buffer differs at most by the
    defaulted goal, and the only mocap entries written are those of the
    noisy-cube marker. *)
Theorem idle_step_keeps_state `{Engine} (m : mjModel) (clk : Clock)
  (rng : Draws) (lp : Leap) (d : mjData) :
  Transition.success m d = false ->
  Transition.on_floor m d = false ->
  Transition.timed_out clk lp = false ->
  exists lp' d',
    TransitionLocked m clk rng lp d = Some (lp', d')
    /\ rotation_count_ lp' = rotation_count_ lp
    /\ best_rotation_count_ lp' = best_rotation_count_ lp
    /\ time_of_last_reset_ lp' = time_of_last_reset_ lp
    /\ time_of_last_rotation_ lp' = time_of_last_rotation_ lp
    /\ rand1_ lp' = rand1_ lp /\ rand2_ lp' = rand2_ lp
    /\ qpos d' = qpos d /\ qvel d' = qvel d
    /\ actuator_force d' = actuator_force d /\ contact d' = contact d
    /\ sensordata d'
       = Transition.default_goal (sensordata d)
           (SensorByName m "cube_goal_orientation")
    /\ mocap_pos d' = write3 (mocap_pos d) 3 (pos_cube_ lp)
    /\ mocap_quat d' = write4 (mocap_quat d) 4 (quat_cube_ lp).
Proof.
  intros Hs Hf Ht.
  unfold TransitionLocked, Transition.success_phase, Transition.drop_phase,
    Transition.reset_phase.
  rewrite TransitionFacts.on_floor_sensordata, Hf.
  unfold Transition.success in Hs. rewrite Hs.
  unfold Transition.timed_out in Ht. rewrite Ht.
  cbn [orb Transition.goal_phase Transition.finish_phase].
  eexists. eexists. split; [reflexivity |].
  cbn. repeat split; reflexivity.
Qed.

(** Cube and goal half a turn apart, one second on the clock, no
    contact: the step returns although the generator has nothing to
    give, and the count stays at three. *)
Lemma idle_step_keeps_state_witness :
  exists lp' d',
    @TransitionLocked Bench.engine Bench.hand (Bench.clock 1)
      (mkDraws [] []) Bench.leap0 (Bench.data Scene.sensors_apart [])
    = Some (lp', d')
    /\ rotation_count_ lp' = 3%Z /\ qpos d' 0%Z = 1.
Proof.
  destruct (@idle_step_keeps_state Bench.engine Bench.hand (Bench.clock 1)
              (mkDraws [] []) Bench.leap0 (Bench.data Scene.sensors_apart []))
    as (lp' & d' & Hstep & Hrc & _ & _ & _ & _ & _ & Hq & _).
  - now apply IdleFacts.apart_no_success.
  - reflexivity.
  - apply Rgtb_false. cbn. lra.
  - exists lp', d'. split; [exact Hstep |].
    rewrite Hrc, Hq. split; reflexivity.
Defined.

Module DropFacts.
Import Transition.

Lemma touches_unresolved (cube floor : Z) (g : mjContact) :
  cube = (-1)%Z \/ floor = (-1)%Z ->
  (0 <= geom1 g)%Z /\ (0 <= geom2 g)%Z ->
  touches cube floor g = false.
Proof.
  intros Hun [H1 H2]. unfold touches.
  destruct (Z.eqb_spec (geom1 g) cube), (Z.eqb_spec (geom2 g) floor),
    (Z.eqb_spec (geom2 g) cube), (Z.eqb_spec (geom1 g) floor);
    cbn; try reflexivity; lia.
Qed.

(** The contact list is searched in both orders of the pair. *)
Lemma on_floor_iff (m : mjModel) (d : mjData) :
  on_floor m d = true
  <-> exists g, In g (contact d)
                /\ ((geom1 g = mj_name2id m mjOBJ_GEOM "cube"
                     /\ geom2 g = mj_name2id m mjOBJ_GEOM "floor")
                    \/ (geom2 g = mj_name2id m mjOBJ_GEOM "cube"
                        /\ geom1 g = mj_name2id m mjOBJ_GEOM "floor")).
Proof.
  unfold on_floor. rewrite existsb_exists. unfold touches.
  split; intros (g & Hin & Hg); exists g; (split; [exact Hin |]).
  - apply orb_true_iff in Hg as [Hg | Hg];
      apply andb_true_iff in Hg as [E1 E2];
      apply Z.eqb_eq in E1, E2; auto.
  - apply orb_true_iff.
    destruct Hg as [[E1 E2] | [E1 E2]]; [left | right];
      apply andb_true_iff; split; apply Z.eqb_eq; assumption.
Qed.

End DropFacts.

(** X3.  When the geometry "cube" or the geometry "floor" cannot be
    resolved ([mj_name2id] gives -1) and the contacts carry geometry ids
    that are not negative, no drop is detected: the step neither fails
    nor moves the cube, it goes on as if the cube were in the hand. *)
Theorem unresolved_geom_never_drops `{Engine} (m : mjModel) (clk : Clock)
  (rng : Draws) (lp : Leap) (d : mjData) :
  mj_name2id m mjOBJ_GEOM "cube" = (-1)%Z
  \/ mj_name2id m mjOBJ_GEOM "floor" = (-1)%Z ->
  Forall (fun g => (0 <= geom1 g)%Z /\ (0 <= geom2 g)%Z) (contact d) ->
  Transition.on_floor m d = false
  /\ forall lp' d',
      TransitionLocked m clk rng lp d = Some (lp', d') ->
      qpos d' = qpos d /\ qvel d' = qvel d
      /\ (Transition.timed_out clk lp = false ->
          time_of_last_reset_ lp' = time_of_last_reset_ lp).
Proof.
  intros Hun Hids.
  assert (Hf : Transition.on_floor m d = false).
  { unfold Transition.on_floor.
    destruct (existsb _ (contact d)) eqn:E; [| reflexivity].
    apply existsb_exists in E as (g & Hin & Hg).
    rewrite Forall_forall in Hids.
    now rewrite (DropFacts.touches_unresolved _ _ g Hun (Hids g Hin)) in Hg. }
  split; [exact Hf |].
  intros lp' d' Hstep.
  pose proof (TransitionFacts.transition_summary m clk rng lp lp' d d' Hstep)
    as (_ & _ & Hreset & _ & Hq & Hv & _).
  rewrite Hf in Hq, Hv, Hreset. cbn [orb] in Hreset.
  split; [exact Hq |]. split; [exact Hv |].
  intros Ht. now rewrite Ht in Hreset.
Qed.

(** A scene without names, with a contact between geometries 1 and 0:
    no drop. *)
Lemma unresolved_geom_never_drops_witness :
  Transition.on_floor Scene.nameless
    (Bench.data Bench.sensors_aligned [mkContact 1 0]) = false.
Proof.
  apply (@unresolved_geom_never_drops Bench.engine Scene.nameless
           (Bench.clock 1) Bench.draws Bench.leap0
           (Bench.data Bench.sensors_aligned [mkContact 1 0])).
  - left. reflexivity.
  - repeat constructor; cbn; lia.
Defined.

Module ResampleFacts.
Import Transition.

Lemma resample_pair_find (old1 old2 : Z) (draws : list (Z * Z)) :
  forall rand1 rand2,
    resample_pair old1 old2 rand1 rand2 draws
    = if differs_from old1 old2 (rand1, rand2) then Some (rand1, rand2)
      else find (differs_from old1 old2) draws.
Proof.
  induction draws as [| [d1 d2] rest IH]; intros rand1 rand2;
    cbn [resample_pair find]; unfold differs_from at 1; cbn [fst snd].
  - destruct ((rand1 =? old1)%Z && (rand2 =? old2)%Z); reflexivity.
  - destruct ((rand1 =? old1)%Z && (rand2 =? old2)%Z); cbn [negb];
      [| reflexivity].
    rewrite IH. reflexivity.
Qed.

Lemma differs_from_false (old1 old2 : Z) (p : Z * Z) :
  differs_from old1 old2 p = false <-> p = (old1, old2).
Proof.
  destruct p as [a b]. unfold differs_from. cbn [fst snd].
  rewrite negb_false_iff, andb_true_iff, !Z.eqb_eq.
  split; [intros [-> ->]; reflexivity | intros [= -> ->]; auto].
Qed.

End ResampleFacts.

(** X5.  The discrete sampler returns the first drawn pair that differs
    from the stored one: it is still drawing at the end of the draws
    exactly when every draw repeated the stored pair, and what it stores
    is one of the draws, so it lies in the ranges of the generator
    calls, [0, 6) and [0, 4), whatever was stored before. *)
Theorem discrete_sampler_takes_first_new (old1 old2 : Z)
  (draws : list (Z * Z)) :
  Transition.resample_pair old1 old2 old1 old2 draws
  = find (differs_from old1 old2) draws
  /\ (Transition.resample_pair old1 old2 old1 old2 draws = None
      <-> Forall (fun p => p = (old1, old2)) draws)
  /\ (forall r1 r2,
         Transition.resample_pair old1 old2 old1 old2 draws = Some (r1, r2) ->
         In (r1, r2) draws
         /\ (Forall in_index_range draws -> in_index_range (r1, r2))).
Proof.
  assert (E : Transition.resample_pair old1 old2 old1 old2 draws
              = find (differs_from old1 old2) draws).
  { rewrite ResampleFacts.resample_pair_find.
    unfold differs_from at 1. cbn [fst snd]. now rewrite !Z.eqb_refl. }
  split; [exact E |]. rewrite E. split.
  - split.
    + intros Hnone. apply Forall_forall. intros p Hp.
      apply ResampleFacts.differs_from_false.
      exact (find_none _ _ Hnone p Hp).
    + intros Hall. destruct (find _ draws) as [p |] eqn:Ef; [| reflexivity].
      apply find_some in Ef as [Hin Hp].
      rewrite Forall_forall in Hall.
      pose proof (proj2 (ResampleFacts.differs_from_false old1 old2 p)
                        (Hall p Hin)) as Hfalse.
      congruence.
  - intros r1 r2 Hf. apply find_some in Hf as [Hin _].
    split; [exact Hin |].
    intros Hall. rewrite Forall_forall in Hall. now apply Hall.
Qed.

(** Stored (2, 3); the generator repeats it twice, then gives (5, 1). *)
Lemma discrete_sampler_takes_first_new_witness :
  Transition.resample_pair 2 3 2 3 [(2, 3); (2, 3); (5, 1); (0, 0)]%Z
  = Some (5, 1)%Z
  /\ in_index_range (5, 1)%Z.
Proof.
  destruct (discrete_sampler_takes_first_new 2 3
              [(2, 3); (2, 3); (5, 1); (0, 0)]%Z) as (Hfind & _ & Hin).
  split; [rewrite Hfind; reflexivity |].
  apply (Hin 5 1)%Z; [rewrite Hfind; reflexivity |].
  repeat constructor; cbn; lia.
Defined.

Module TelemetryFacts.
Import Transition.

Lemma some_inj (A : Type) (x y : A) : Some x = Some y -> x = y.
Proof. now intros [= ->]. Qed.

Lemma std_max_Rmax (a b : R) : std_max a b = Rmax a b.
Proof.
  unfold std_max, Rmax, Rltb.
  destruct (Rlt_dec a b), (Rle_dec a b); lra.
Qed.

(** The step ends in [finish_phase], on a task object whose parameters
    are still those it started with and whose timers were just read. *)
Lemma transition_finish `{Engine} (m : mjModel) (clk : Clock) (rng : Draws)
  (lp lp' : Leap) (d d' : mjData) :
  TransitionLocked m clk rng lp d = Some (lp', d') ->
  exists fell cg lp2 d2,
    finish_phase m fell cg lp2 d2 = (lp', d')
    /\ parameters lp2 = parameters lp
    /\ time_since_last_reset_ lp2
       = now_since_reset clk - time_of_last_reset_ lp
    /\ time_since_last_rotation_ lp2
       = now_since_rotation clk - time_of_last_rotation_ lp.
Proof.
  unfold TransitionLocked, success_phase, drop_phase, reset_phase, goal_phase.
  intros Hstep.
  destruct (nan_lt _ _); destruct (on_floor _ _); cbn [orb] in Hstep;
    try destruct (Rgtb _ 80.0);
    cbn [rand1_ rand2_ set_counts] in Hstep;
    try (destruct (negb (axis_aligned_goal m =? 0)%Z);
         [ destruct (resample_pair _ _ _ _ _) as [[r1 r2] |];
           [| discriminate]
         | destruct (sample_free _ _) as [qg |]; [| discriminate] ]);
    cbv beta iota in Hstep; apply some_inj in Hstep;
    do 4 eexists; (split; [exact Hstep |]); cbn; repeat split; reflexivity.
Qed.

End TelemetryFacts.

(** X6.  After every step that returns, the GUI entries of [parameters]
    mirror the task object: entry 0 is the rotation count, entry 1 the
    best count, entry 2 the time since the last rotation as read in this
    step, entry 3 the time since the last reset divided by the count or
    by 1 when the count is below 1 (so never by zero), and entries 13-15
    the sensed cube position; every other entry, in particular the
    tunables 4-12 that [ModifyState] reads, is left as it was. *)
Theorem telemetry_mirrors_counters `{Engine} (m : mjModel) (clk : Clock)
  (rng : Draws) (lp lp' : Leap) (d d' : mjData) :
  TransitionLocked m clk rng lp d = Some (lp', d') ->
  parameters lp' 0 = IZR (rotation_count_ lp')
  /\ parameters lp' 1 = IZR (best_rotation_count_ lp')
  /\ parameters lp' 2 = now_since_rotation clk - time_of_last_rotation_ lp
  /\ parameters lp' 3
     = (now_since_reset clk - time_of_last_reset_ lp)
       / Rmax (IZR (rotation_count_ lp')) 1
  /\ 1 <= Rmax (IZR (rotation_count_ lp')) 1
  /\ parameters lp' 13 = sensordata d' (SensorByName m "cube_position")
  /\ parameters lp' 14 = sensordata d' (SensorByName m "cube_position" + 1)%Z
  /\ parameters lp' 15 = sensordata d' (SensorByName m "cube_position" + 2)%Z
  /\ forall i, (4 <= i <= 12 \/ 16 <= i)%nat ->
               parameters lp' i = parameters lp i.
Proof.
  intros Hstep.
  destruct (TelemetryFacts.transition_finish m clk rng lp lp' d d' Hstep)
    as (fell & cg & lp2 & d2 & Hfin & Hp & Hr & Ht).
  unfold Transition.finish_phase in Hfin.
  injection Hfin as <- <-.
  cbn [parameters rotation_count_ best_rotation_count_ sensordata].
  rewrite Hr, Ht, Hp, TelemetryFacts.std_max_Rmax.
  replace 1.0 with 1 by lra.
  repeat split; try reflexivity.
  - apply Rmax_r.
  - intros i Hi. unfold set_param.
    repeat match goal with
           | |- context [Nat.eqb i ?k] =>
               destruct (Nat.eqb_spec i k); [lia |]
           end.
    reflexivity.
Qed.

(** After the drop of the bench the count shown is zero and the average
    is the time since the reset divided by one. *)
Lemma telemetry_mirrors_counters_witness :
  exists lp' d',
    @TransitionLocked Bench.engine Bench.hand (Bench.clock 7) Bench.draws
      Bench.leap0 (Bench.data Bench.sensors_aligned [mkContact 1 0])
    = Some (lp', d')
    /\ parameters lp' 0 = 0 /\ parameters lp' 3 = 7
    /\ parameters lp' 11 = 1 / 2.
Proof.
  destruct (@ProgressFacts.transition_returns_discrete Bench.engine
              Bench.hand (Bench.clock 7) Bench.draws Bench.leap0
              (Bench.data Bench.sensors_aligned [mkContact 1 0]) 1 0 [])
    as (lp' & d' & Hstep).
  - cbn. lia.
  - reflexivity.
  - cbn. lia.
  - exists lp', d'. split; [exact Hstep |].
    destruct (@telemetry_mirrors_counters Bench.engine Bench.hand
                (Bench.clock 7) Bench.draws Bench.leap0 lp'
                (Bench.data Bench.sensors_aligned [mkContact 1 0]) d' Hstep)
      as (H0 & _ & _ & H3 & _ & _ & _ & _ & Hrest).
    pose proof (@TransitionFacts.transition_summary Bench.engine _ _ _ _ _
                  _ _ Hstep) as (Hrc & _).
    cbn in Hrc. rewrite Hrc in H0, H3.
    split; [exact H0 |]. split.
    + rewrite H3. cbn. rewrite Rmax_right by lra. lra.
    + rewrite Hrest by lia. reflexivity.
Defined.

(** ** The discrete goal *)

Module UnitFacts.
Import Transition.

Lemma norm_sq_mul (a b : Quat) :
  norm_sq (mju_mulQuat a b) = norm_sq a * norm_sq b.
Proof. unfold norm_sq, mju_mulQuat. cbn. ring. Qed.

Lemma norm_sq_nonneg (q : Quat) : 0 <= norm_sq q.
Proof. unfold norm_sq. nra. Qed.

Lemma norm4_sq (q : Quat) : norm4 q * norm4 q = norm_sq q.
Proof. unfold norm4. fold (norm_sq q). apply sqrt_sqrt, norm_sq_nonneg. Qed.

Lemma norm4_nonneg (q : Quat) : 0 <= norm4 q.
Proof. unfold norm4. apply sqrt_pos. Qed.

(** Scaling by the inverse of the length gives length 1. *)
Lemma scl4_unit (q : Quat) : 0 < norm4 q -> unit_quat (scl4 q (1 / norm4 q)).
Proof.
  intros Hpos. unfold unit_quat, scl4. cbn [q0 q1 q2 q3].
  transitivity (norm_sq q * (1 / norm4 q * (1 / norm4 q)));
    [unfold norm_sq; ring |].
  rewrite <- norm4_sq. field. lra.
Qed.

(** A quaternion that is neither tiny nor close to length 1 is scaled. *)
Lemma normalize4_scales (q : Quat) :
  144 / 100 <= norm_sq q -> mju_normalize4 q = scl4 q (1 / norm4 q).
Proof.
  intros Hq.
  assert (Hn : 12 / 10 <= norm4 q).
  { pose proof (norm4_sq q) as Hs. pose proof (norm4_nonneg q) as H0. nra. }
  unfold mju_normalize4.
  assert (E1 : Rltb (norm4 q) mjMINVAL = false)
    by (apply Rltb_false; unfold mjMINVAL; lra).
  assert (E2 : Rgtb (Rabs (norm4 q - 1)) mjMINVAL = true).
  { apply Rgtb_true. rewrite Rabs_right by lra. unfold mjMINVAL; lra. }
  now rewrite E1, E2.
Qed.

Lemma face_quat_norm (rand1 : Z) :
  (0 <= rand1 < 6)%Z -> 0.9999 <= norm_sq (face_quat rand1).
Proof.
  intros Hr.
  assert (C : (rand1 = 0 \/ rand1 = 1 \/ rand1 = 2 \/ rand1 = 3
               \/ rand1 = 4 \/ rand1 = 5)%Z) by lia.
  destruct C as [-> | [-> | [-> | [-> | [-> | ->]]]]];
    unfold norm_sq; cbn; lra.
Qed.

Lemma spin_quat_norm (rand2 : Z) :
  (0 <= rand2 < 4)%Z -> 0.9999 <= norm_sq (spin_quat rand2).
Proof.
  intros Hr.
  assert (C : (rand2 = 0 \/ rand2 = 1 \/ rand2 = 2 \/ rand2 = 3)%Z) by lia.
  destruct C as [-> | [-> | [-> | ->]]]; unfold norm_sq; cbn; lra.
Qed.

Lemma face_quat_outside (rand1 : Z) :
  ~ (0 <= rand1 < 6)%Z -> norm_sq (face_quat rand1) = 0.
Proof.
  intros Hr. unfold face_quat.
  repeat match goal with
         | |- context [(rand1 =? ?k)%Z] =>
             destruct (Z.eqb_spec rand1 k); [lia |]
         end.
  unfold norm_sq; cbn; lra.
Qed.

Lemma spin_quat_outside (rand2 : Z) :
  ~ (0 <= rand2 < 4)%Z -> norm_sq (spin_quat rand2) = 0.
Proof.
  intros Hr. unfold spin_quat.
  repeat match goal with
         | |- context [(rand2 =? ?k)%Z] =>
             destruct (Z.eqb_spec rand2 k); [lia |]
         end.
  unfold norm_sq; cbn; lra.
Qed.

Lemma norm_sq_zero (q : Quat) :
  norm_sq q = 0 -> q0 q = 0 /\ q1 q = 0 /\ q2 q = 0 /\ q3 q = 0.
Proof. unfold norm_sq. intros Hq. repeat split; nra. Qed.

End UnitFacts.

(** X4.  The discrete goal is a unit quaternion for every index pair.
    For indices in the ranges of the generator calls, [0, 6) and [0, 4),
    the closing [mju_normalize4] only rescales the product of wrist
    tilt, spin and face by the inverse of its (positive) length, so the
    orientation is that of the product; for any other index the product
    is zero and the goal is the identity. *)
Theorem discrete_goal_is_unit (rand1 rand2 : Z) :
  let product :=
    mju_mulQuat (mju_mulQuat (mkQuat 0.0 1.0 0.0 0.7)
                             (Transition.spin_quat rand2))
                (Transition.face_quat rand1) in
  Transition.unit_quat (Transition.axis_aligned_quat rand1 rand2)
  /\ (in_index_range (rand1, rand2) ->
      0 < norm4 product
      /\ Transition.axis_aligned_quat rand1 rand2
         = scl4 product (1 / norm4 product))
  /\ (~ in_index_range (rand1, rand2) ->
      Transition.axis_aligned_quat rand1 rand2 = mkQuat 1 0 0 0).
Proof.
  intros product.
  assert (Hin : in_index_range (rand1, rand2) ->
                0 < norm4 product
                /\ Transition.axis_aligned_quat rand1 rand2
                   = scl4 product (1 / norm4 product)).
  { intros [H1 H2]. cbn [fst snd] in H1, H2.
    assert (Hn : 144 / 100 <= norm_sq product).
    { unfold product. rewrite !UnitFacts.norm_sq_mul.
      pose proof (UnitFacts.face_quat_norm rand1 H1) as Hf.
      pose proof (UnitFacts.spin_quat_norm rand2 H2) as Hs.
      replace (norm_sq (mkQuat 0.0 1.0 0.0 0.7)) with (149 / 100)
        by (unfold norm_sq; cbn; lra).
      nra. }
    split.
    - pose proof (UnitFacts.norm4_sq product).
      pose proof (UnitFacts.norm4_nonneg product). nra.
    - unfold Transition.axis_aligned_quat. fold product.
      now apply UnitFacts.normalize4_scales. }
  assert (Hout : ~ in_index_range (rand1, rand2) ->
                 Transition.axis_aligned_quat rand1 rand2 = mkQuat 1 0 0 0).
  { intros Hno.
    assert (Hz : norm_sq product = 0).
    { unfold product. rewrite !UnitFacts.norm_sq_mul.
      destruct (Z_le_dec 0 rand1), (Z_lt_dec rand1 6);
        try (rewrite UnitFacts.face_quat_outside by lia; ring).
      rewrite (UnitFacts.spin_quat_outside rand2); [ring |].
      intros H2. apply Hno. split; cbn [fst snd]; lia. }
    apply UnitFacts.norm_sq_zero in Hz as (H0 & H1 & H2 & H3).
    unfold Transition.axis_aligned_quat. fold product.
    now apply AngleFacts.normalize4_zero. }
  split; [| split; [exact Hin | exact Hout]].
  destruct (Z_le_dec 0 rand1), (Z_lt_dec rand1 6), (Z_le_dec 0 rand2),
    (Z_lt_dec rand2 4);
    try (rewrite Hout by (intros [A B]; cbn [fst snd] in A, B; lia);
         unfold Transition.unit_quat; cbn; ring).
  destruct Hin as [Hpos ->]; [split; cbn [fst snd]; lia |].
  now apply UnitFacts.scl4_unit.
Qed.

(** Face 1 with spin 0 is in range; face 6 is not and gives the
    identity. *)
Lemma discrete_goal_is_unit_witness :
  Transition.unit_quat (Transition.axis_aligned_quat 1 0)
  /\ Transition.axis_aligned_quat 6 0 = mkQuat 1 0 0 0.
Proof.
  split.
  - apply (discrete_goal_is_unit 1 0).
  - apply (discrete_goal_is_unit 6 0). intros [A _]. cbn in A. lia.
Defined.

(** ** The two callbacks on the shared task object *)

Module MarkerFacts.
Import Transition.

Lemma read3_write3 (b : Mem) (a : Z) (v : Vec3) : read3 (write3 b a v) a = v.
Proof.
  destruct v as [x y z]. unfold read3, write3. cbn [v0 v1 v2].
  rewrite write1_same.
  rewrite (write1_other _ (a + 2)%Z (a + 1)%Z) by lia. rewrite write1_same.
  rewrite !(write1_other _ _ a) by lia. rewrite write1_same. reflexivity.
Qed.

Lemma write3_other (b : Mem) (a i : Z) (v : Vec3) :
  (i < a \/ a + 3 <= i)%Z -> write3 b a v i = b i.
Proof. intros Hi. unfold write3. now rewrite !write1_other by lia. Qed.

(** The step reads the cube estimate of the task object and writes it
    to the marker; it leaves every field of the observation pipeline as
    it found it. *)
Lemma transition_frame `{Engine} (m : mjModel) (clk : Clock) (rng : Draws)
  (lp lp' : Leap) (d d' : mjData) :
  TransitionLocked m clk rng lp d = Some (lp', d') ->
  (pos_cube_ lp' = pos_cube_ lp /\ quat_cube_ lp' = quat_cube_ lp
   /\ quat_cube_noise_ lp' = quat_cube_noise_ lp
   /\ pos_cube_noise_ lp' = pos_cube_noise_ lp
   /\ first_time_ lp' = first_time_ lp /\ last_time_ lp' = last_time_ lp
   /\ last_state_ lp' = last_state_ lp
   /\ stored_states_ lp' = stored_states_ lp)
  /\ mocap_pos d' = write3 (mocap_pos d) 3 (pos_cube_ lp)
  /\ read4 (mocap_quat d') 4 = quat_cube_ lp.
Proof.
  intros Hstep.
  destruct (TelemetryFacts.transition_finish m clk rng lp lp' d d' Hstep)
    as (fell & cg & lp2 & d2 & Hfin & _).
  revert Hstep Hfin.
  unfold TransitionLocked, success_phase, drop_phase, reset_phase, goal_phase.
  intros Hstep.
  destruct (nan_lt _ _); destruct (on_floor _ _); cbn [orb] in Hstep;
    try destruct (Rgtb _ 80.0);
    cbn [rand1_ rand2_ set_counts] in Hstep;
    try (destruct (negb (axis_aligned_goal m =? 0)%Z);
         [ destruct (resample_pair _ _ _ _ _) as [[r1 r2] |];
           [| discriminate]
         | destruct (sample_free _ _) as [qg |]; [| discriminate] ]);
    cbv beta iota in Hstep; apply TelemetryFacts.some_inj in Hstep;
    intros _; unfold finish_phase in Hstep; cbn [orb] in Hstep;
    injection Hstep as <- <-; cbn;
    (split; [repeat split; reflexivity |]);
    (split; [try reflexivity | apply read4_write4]);
    unfold reset_cube; destruct (negb _); reflexivity.
Qed.

Lemma modify_cube `{Engine} (m : mjModel) (z : Pipeline.Gauss) (lp : Leap)
  (st : State) :
  pos_cube_ (fst (ModifyState m z lp st))
  = vec3_at (fst (Pipeline.lagged m z lp st)) 0
  /\ quat_cube_ (fst (ModifyState m z lp st))
     = quat_at (fst (Pipeline.lagged m z lp st)) 3.
Proof. unfold ModifyState. now destruct (Pipeline.lagged m z lp st). Qed.

(** The positions handed back are the leading entries of the lagged
    state. *)
Lemma modify_position_nth `{Engine} (m : mjModel) (z : Pipeline.Gauss)
  (lp : Leap) (st : State) (i : nat) :
  (i < nq m)%nat -> (i < length (state st))%nat ->
  nth i (state (snd (ModifyState m z lp st))) 0
  = nth i (fst (Pipeline.lagged m z lp st)) 0.
Proof.
  intros Hq Hlen. rewrite PipelineFacts.modify_written.
  unfold SetVelocity, SetPosition, observed. cbn [state fst snd].
  rewrite VelocityFacts.vec_copy_nth
    by (now rewrite VelocityFacts.vec_copy_length).
  assert (E1 : ((nq m <=? i)%nat && (i <? nq m + nv m)%nat) = false).
  { apply andb_false_iff. left. apply Nat.leb_gt. exact Hq. }
  rewrite E1. rewrite VelocityFacts.vec_copy_nth by exact Hlen.
  assert (E2 : ((0 <=? i)%nat && (i <? 0 + nq m)%nat) = true).
  { apply andb_true_iff. split; [apply Nat.leb_le | apply Nat.ltb_lt]; lia. }
  rewrite E2. unfold Pipeline.slice.
  rewrite VelocityFacts.nth_map_seq by lia. f_equal. lia.
Qed.

(** A step with no success, no drop and no timeout returns. *)
Lemma idle_returns `{Engine} (m : mjModel) (clk : Clock) (rng : Draws)
  (lp : Leap) (d : mjData) :
  success m d = false -> on_floor m d = false -> timed_out clk lp = false ->
  exists lp' d', TransitionLocked m clk rng lp d = Some (lp', d').
Proof.
  intros Hs Hf Ht.
  unfold TransitionLocked, success_phase, drop_phase, reset_phase.
  rewrite TransitionFacts.on_floor_sensordata, Hf.
  unfold success in Hs. rewrite Hs.
  unfold timed_out in Ht. rewrite Ht.
  cbn [orb goal_phase]. apply ProgressFacts.some_pair.
Qed.

End MarkerFacts.

(** X7.  [ModifyState] followed by [TransitionLocked]: the noisy-cube
    marker (mocap position 3-5, mocap quaternion 4-7) shows exactly the
    cube pose that [ModifyState] handed back in the state, that is the
    lagged, noisy observation and not the pose of the simulation; no
    other entry of the mocap positions is written. *)
Theorem marker_shows_observed_cube `{Engine} (m : mjModel)
  (z : Pipeline.Gauss) (clk : Clock) (rng : Draws) (lp lp' : Leap)
  (st : State) (d d' : mjData) :
  (7 <= nq m)%nat -> (7 <= length (state st))%nat ->
  TransitionLocked m clk rng (fst (ModifyState m z lp st)) d
  = Some (lp', d') ->
  read3 (mocap_pos d') 3 = vec3_at (state (snd (ModifyState m z lp st))) 0
  /\ read4 (mocap_quat d') 4
     = quat_at (state (snd (ModifyState m z lp st))) 3
  /\ forall i, (i < 3 \/ 6 <= i)%Z -> mocap_pos d' i = mocap_pos d i.
Proof.
  intros Hq Hlen Hstep.
  destruct (MarkerFacts.transition_frame m clk rng _ lp' d d' Hstep)
    as (_ & Hpos & Hquat).
  destruct (MarkerFacts.modify_cube m z lp st) as [Hp Hc].
  rewrite Hpos, Hquat, Hp, Hc, MarkerFacts.read3_write3.
  unfold vec3_at, quat_at. cbn [Nat.add].
  rewrite !MarkerFacts.modify_position_nth by lia.
  repeat split; try reflexivity.
  intros i Hi. apply MarkerFacts.write3_other. lia.
Qed.

(** One call of each on the bench: the marker shows the observed cube
    position. *)
Lemma marker_shows_observed_cube_witness :
  exists lp' d',
    @TransitionLocked Bench.engine Bench.hand (Bench.clock 1)
      (mkDraws [] [])
      (fst (@ModifyState Bench.engine Bench.hand Bench.quiet Bench.leap0
                         (Bench.state_at 1 1)))
      (Bench.data Scene.sensors_apart [])
    = Some (lp', d')
    /\ read3 (mocap_pos d') 3
       = vec3_at (state (snd (@ModifyState Bench.engine Bench.hand
                                Bench.quiet Bench.leap0
                                (Bench.state_at 1 1)))) 0.
Proof.
  destruct (@MarkerFacts.idle_returns Bench.engine Bench.hand (Bench.clock 1)
              (mkDraws [] [])
              (fst (@ModifyState Bench.engine Bench.hand Bench.quiet
                                 Bench.leap0 (Bench.state_at 1 1)))
              (Bench.data Scene.sensors_apart []))
    as (lp' & d' & Hstep).
  - now apply IdleFacts.apart_no_success.
  - reflexivity.
  - unfold Transition.timed_out, ModifyState.
    destruct (Pipeline.lagged _ _ _ _). apply Rgtb_false. cbn. lra.
  - exists lp', d'. split; [exact Hstep |].
    apply (@marker_shows_observed_cube Bench.engine Bench.hand Bench.quiet
             (Bench.clock 1) (mkDraws [] []) Bench.leap0 lp'
             (Bench.state_at 1 1) (Bench.data Scene.sensors_apart []) d').
    + cbn. lia.
    + cbn. lia.
    + exact Hstep.
Defined.

(** X8.  The two callbacks share the task object without interfering.
    [ModifyState] leaves the counters, the timestamps, the timers, the
    stored index pair and all of [parameters] as they are;
    [TransitionLocked], when it returns, leaves the cube estimate, both
    noise walks, the filter memory ([first_time_], [last_time_],
    [last_state_]), the queue of stored states and the tunables
    [parameters[4..12]] as they are. *)
Theorem callbacks_keep_each_others_fields `{Engine} (m : mjModel)
  (z : Pipeline.Gauss) (clk : Clock) (rng : Draws) (lp : Leap) (st : State)
  (d : mjData) :
  (rotation_count_ (fst (ModifyState m z lp st)) = rotation_count_ lp
   /\ best_rotation_count_ (fst (ModifyState m z lp st))
      = best_rotation_count_ lp
   /\ time_of_last_reset_ (fst (ModifyState m z lp st))
      = time_of_last_reset_ lp
   /\ time_of_last_rotation_ (fst (ModifyState m z lp st))
      = time_of_last_rotation_ lp
   /\ time_since_last_reset_ (fst (ModifyState m z lp st))
      = time_since_last_reset_ lp
   /\ time_since_last_rotation_ (fst (ModifyState m z lp st))
      = time_since_last_rotation_ lp
   /\ rand1_ (fst (ModifyState m z lp st)) = rand1_ lp
   /\ rand2_ (fst (ModifyState m z lp st)) = rand2_ lp
   /\ parameters (fst (ModifyState m z lp st)) = parameters lp)
  /\ forall lp' d',
      TransitionLocked m clk rng lp d = Some (lp', d') ->
      pos_cube_ lp' = pos_cube_ lp /\ quat_cube_ lp' = quat_cube_ lp
      /\ quat_cube_noise_ lp' = quat_cube_noise_ lp
      /\ pos_cube_noise_ lp' = pos_cube_noise_ lp
      /\ first_time_ lp' = first_time_ lp /\ last_time_ lp' = last_time_ lp
      /\ last_state_ lp' = last_state_ lp
      /\ stored_states_ lp' = stored_states_ lp
      /\ forall i, (4 <= i <= 12)%nat -> parameters lp' i = parameters lp i.
Proof.
  split.
  - unfold ModifyState. destruct (Pipeline.lagged m z lp st).
    cbn. repeat split; reflexivity.
  - intros lp' d' Hstep.
    destruct (MarkerFacts.transition_frame m clk rng lp lp' d d' Hstep)
      as ((H1 & H2 & H3 & H4 & H5 & H6 & H7 & H8) & _).
    repeat (split; [assumption |]).
    destruct (TelemetryFacts.transition_finish m clk rng lp lp' d d' Hstep)
      as (fell & cg & lp2 & d2 & Hfin & Hp & _).
    unfold Transition.finish_phase in Hfin. injection Hfin as <- _.
    cbn [parameters]. rewrite Hp.
    intros i Hi. unfold set_param.
    repeat match goal with
           | |- context [Nat.eqb i ?k] =>
               destruct (Nat.eqb_spec i k); [lia |]
           end.
    reflexivity.
Qed.

(** A drop on the bench: the step resets the count and leaves the
    filter memory and the lag setting alone. *)
Lemma callbacks_keep_each_others_fields_witness :
  exists lp' d',
    @TransitionLocked Bench.engine Bench.hand (Bench.clock 7) Bench.draws
      Bench.leap0 (Bench.data Bench.sensors_aligned [mkContact 1 0])
    = Some (lp', d')
    /\ last_state_ lp' = repeat 0 45 /\ parameters lp' 12 = 0.
Proof.
  destruct (@ProgressFacts.transition_returns_discrete Bench.engine
              Bench.hand (Bench.clock 7) Bench.draws Bench.leap0
              (Bench.data Bench.sensors_aligned [mkContact 1 0]) 1 0 [])
    as (lp' & d' & Hstep).
  - cbn. lia.
  - reflexivity.
  - cbn. lia.
  - exists lp', d'. split; [exact Hstep |].
    destruct (proj2 (@callbacks_keep_each_others_fields Bench.engine
                       Bench.hand Bench.quiet (Bench.clock 7) Bench.draws
                       Bench.leap0 (Bench.state_at 1 1)
                       (Bench.data Bench.sensors_aligned [mkContact 1 0]))
                    lp' d' Hstep)
      as (_ & _ & _ & _ & _ & _ & Hlast & _ & Hpar).
    split; [exact Hlast |]. rewrite Hpar by lia. reflexivity.
Defined.

(** ** The residual evaluated twice *)

Module SettleFacts.
Import Transition.

(** Normalizing a second time changes nothing. *)
Lemma normalize4_idem (q : Quat) :
  mju_normalize4 (mju_normalize4 q) = mju_normalize4 q.
Proof.
  destruct (Rltb (norm4 q) mjMINVAL) eqn:E1.
  - assert (E : mju_normalize4 q = mkQuat 1 0 0 0)
      by (unfold mju_normalize4; now rewrite E1).
    rewrite E. apply AngleFacts.normalize4_unit. unfold unit_quat. cbn. ring.
  - destruct (Rgtb (Rabs (norm4 q - 1)) mjMINVAL) eqn:E2.
    + assert (E : mju_normalize4 q = scl4 q (1 / norm4 q))
        by (unfold mju_normalize4; now rewrite E1, E2).
      rewrite E. apply AngleFacts.normalize4_unit, UnitFacts.scl4_unit.
      apply Rltb_false in E1. unfold mjMINVAL in E1. lra.
    + assert (E : mju_normalize4 q = q)
        by (unfold mju_normalize4; now rewrite E1, E2).
      now rewrite !E.
Qed.

Lemma write4_twice (b : Mem) (a i : Z) (q : Quat) :
  write4 (write4 b a q) a q i = write4 b a q i.
Proof.
  unfold write4, write1.
  repeat match goal with
         | |- context [(i =? ?k)%Z] => destruct (Z.eqb_spec i k)
         end; reflexivity.
Qed.

Lemma read4_ext (b c : Mem) (a : Z) :
  (forall i, b i = c i) -> read4 b a = read4 c a.
Proof. intros E. unfold read4. now rewrite !E. Qed.

Lemma read_n_ext (b c : Mem) (a : Z) (n : nat) :
  (forall i, b i = c i) -> read_n b a n = read_n c a n.
Proof. intros E. unfold read_n. apply map_ext. intros i. apply E. Qed.

(** The sensor buffer after a second call is the one after the first. *)
Lemma residual_sensordata_twice `{Engine} (m : mjModel) (d : mjData) :
  forall i,
    sensordata (fst (fst (Residual_body m (fst (fst (Residual_body m d)))))) i
    = sensordata (fst (fst (Residual_body m d))) i.
Proof.
  intros i. cbn. rewrite read4_write4, normalize4_idem.
  apply write4_twice.
Qed.

End SettleFacts.

(** X9.  The residual evaluator settles after one call: evaluated again
    on the data it left behind it changes no sensor entry any more, and,
    when the cube-position channel does not overlap the goal-orientation
    channel it normalizes, it returns the same residual vector and the
    same verdict of the dimension check. *)
Theorem residual_settles_after_one_call `{Engine} (m : mjModel)
  (d : mjData) :
  let cube := SensorByName m "cube_position" in
  let goal := SensorByName m "cube_goal_orientation" in
  let d1 := fst (fst (Residual_body m d)) in
  let d2 := fst (fst (Residual_body m d1)) in
  (forall i, sensordata d2 i = sensordata d1 i)
  /\ ((cube + 3 <= goal \/ goal + 4 <= cube)%Z ->
      snd (fst (Residual_body m d1)) = snd (fst (Residual_body m d))
      /\ (Residual m d = Fatal <-> Residual m d1 = Fatal)).
Proof.
  intros cube goal d1 d2.
  pose proof (SettleFacts.residual_sensordata_twice m d) as Hsd.
  fold d1 in Hsd. fold d2 in Hsd.
  split; [exact Hsd |].
  intros Hapart.
  assert (Hres : snd (fst (Residual_body m d1))
                 = snd (fst (Residual_body m d))).
  { rewrite (ResidualFacts.residual_layout m d1).
    rewrite (ResidualFacts.residual_layout m d).
    cbv zeta. fold d1. fold d2. fold cube.
    destruct (ResidualFacts.residual_frame m d)
      as (Hqp & Hqv & Haf & _ & _ & _ & Hother & _).
    cbv zeta in Hqp, Hqv, Haf, Hother. fold d1 in Hqp, Hqv, Haf, Hother.
    fold goal in Hother.
    rewrite !(Hother cube), !(Hother (cube + 1)%Z), !(Hother (cube + 2)%Z)
      by lia.
    rewrite (SettleFacts.read4_ext _ _ _ Hsd).
    rewrite (SettleFacts.read4_ext _ _ (SensorByName m "cube_orientation")
               Hsd).
    rewrite !(SettleFacts.read_n_ext (sensordata d2) (sensordata d1)) by
      exact Hsd.
    rewrite Hqp, Hqv, Haf. reflexivity. }
  split; [exact Hres |].
  rewrite !ResidualFacts.residual_checked. fold d1. rewrite Hres.
  destruct (Nat.eqb _ _); split; intros E; try discriminate; reflexivity.
Qed.

(** On the bench the cube position is channel 0 and the goal is channel
    7: a second evaluation of the blank scene repeats the first. *)
Lemma residual_settles_after_one_call_witness :
  snd (fst (@Residual_body Bench.engine Bench.hand
              (fst (fst (@Residual_body Bench.engine Bench.hand
                           (Bench.data Bench.sensors_blank []))))))
  = snd (fst (@Residual_body Bench.engine Bench.hand
                (Bench.data Bench.sensors_blank []))).
Proof.
  apply (@residual_settles_after_one_call Bench.engine Bench.hand
           (Bench.data Bench.sensors_blank [])).
  cbn. lia.
Defined.

(** ** The queue of stored states over many calls *)

Module DelayFacts.
Import Pipeline.

Lemma skipn_nth_cons (A : Type) (l : list A) (j : nat) (dflt : A) :
  (j < length l)%nat -> skipn j l = nth j l dflt :: skipn (S j) l.
Proof.
  revert j. induction l as [| x l IH]; intros j Hj; [cbn in Hj; lia |].
  destruct j as [| j]; [reflexivity |].
  cbn [skipn nth length] in *. apply IH. lia.
Qed.

(** One call on a queue that is not longer than the lag. *)
Lemma queue_step `{Engine} (m : mjModel) (k : nat) (z : Gauss) (lp : Leap)
  (st : State) :
  (0 < k)%nat -> (Z.of_nat k <= INT_MAX)%Z -> lag_steps lp = Z.of_nat k ->
  (length (stored_states_ lp) <= k)%nat ->
  stored_states_ (fst (ModifyState m z lp st))
  = skipn (length (stored_states_ lp) + 1 - k)
          (stored_states_ lp ++ [state_new m z lp st]).
Proof.
  intros Hk Hint Hlag Hlen.
  rewrite PipelineFacts.modify_stored. unfold lagged. rewrite Hlag.
  rewrite LagFacts.trim_front_short
    by (rewrite LagFacts.as_size_t_int; lia).
  destruct (Nat.eq_dec (length (stored_states_ lp)) k) as [Hfull | Hroom].
  - destruct (stored_states_ lp) as [| oldest rest] eqn:Eq;
      [cbn in Hfull; lia |].
    rewrite LagFacts.lag_buffer_full;
      [| lia | rewrite LagFacts.as_size_t_int; lia].
    cbn [snd]. rewrite Hfull.
    replace (k + 1 - k)%nat with 1%nat by lia. reflexivity.
  - rewrite LagFacts.lag_buffer_filling;
      [| lia | rewrite LagFacts.as_size_t_int; lia].
    cbn [snd].
    replace (length (stored_states_ lp) + 1 - k)%nat with 0%nat by lia.
    reflexivity.
Qed.

(** After any number of calls the queue holds the newest entries of
    what was stored followed by what was computed. *)
Lemma queue_run `{Engine} (m : mjModel) (k : nat)
  (calls : list (Gauss * State)) :
  forall lp,
    (0 < k)%nat -> (Z.of_nat k <= INT_MAX)%Z -> lag_steps lp = Z.of_nat k ->
    (length (stored_states_ lp) <= k)%nat ->
    stored_states_ (ModifyState_run m lp calls)
    = skipn (length (stored_states_ lp) + length calls - k)
            (stored_states_ lp ++ fresh_states m lp calls).
Proof.
  induction calls as [| [z st] rest IH]; intros lp Hk Hint Hlag Hlen.
  - cbn [ModifyState_run fresh_states length].
    replace (length (stored_states_ lp) + 0 - k)%nat with 0%nat by lia.
    now rewrite app_nil_r.
  - cbn [ModifyState_run fresh_states length].
    pose proof (queue_step m k z lp st Hk Hint Hlag Hlen) as Hstep.
    set (lp1 := fst (ModifyState m z lp st)) in *.
    set (f1 := state_new m z lp st) in *.
    assert (Hlen1 : length (stored_states_ lp1)
                    = Nat.min (length (stored_states_ lp) + 1) k).
    { rewrite Hstep, length_skipn, length_app. cbn [length]. lia. }
    rewrite IH; [| exact Hk | exact Hint
                 | subst lp1; now rewrite LagFacts.lag_steps_modify | lia].
    rewrite Hlen1, Hstep.
    destruct (Nat.eq_dec (length (stored_states_ lp)) k) as [Hfull | Hroom].
    + replace (length (stored_states_ lp) + 1 - k)%nat with 1%nat by lia.
      replace (Nat.min (length (stored_states_ lp) + 1) k + length rest - k)%nat
        with (length rest) by lia.
      replace (length (stored_states_ lp) + S (length rest) - k)%nat
        with (1 + length rest)%nat by lia.
      destruct (stored_states_ lp) as [| oldest more];
        [cbn in Hfull; lia |].
      cbn [app skipn Nat.add]. now rewrite <- app_assoc.
    + replace (length (stored_states_ lp) + 1 - k)%nat with 0%nat by lia.
      replace (Nat.min (length (stored_states_ lp) + 1) k)
        with (length (stored_states_ lp) + 1)%nat by lia.
      cbn [skipn]. rewrite <- app_assoc. cbn [app]. f_equal. lia.
Qed.

End DelayFacts.

(** X10.  The queue is a delay line.  With a lag of [k > 0] steps and an
    empty queue at the start, after [n] calls the queue holds
    [min(n, k)] states; while [n < k] the next call hands back what it
    has just computed, and from then on every call hands back the state
    that was computed [k] calls earlier. *)
Theorem lag_queue_is_a_delay_line `{Engine} (m : mjModel) (k : nat)
  (lp : Leap) (calls : list (Pipeline.Gauss * State)) (z : Pipeline.Gauss)
  (st : State) :
  (0 < k)%nat -> (Z.of_nat k <= INT_MAX)%Z ->
  Pipeline.lag_steps lp = Z.of_nat k ->
  stored_states_ lp = [] ->
  (nq m + nv m <= length (state st))%nat ->
  let n := length calls in
  let lpn := ModifyState_run m lp calls in
  let handed (s : list R) :=
    (Pipeline.slice s 0 (nq m), Pipeline.slice s (nq m) (nv m)) in
  length (stored_states_ lpn) = Nat.min n k
  /\ ((n < k)%nat ->
      observed m z lpn st = handed (Pipeline.state_new m z lpn st))
  /\ ((k <= n)%nat ->
      observed m z lpn st
      = handed (nth (n - k) (fresh_states m lp calls) [])).
Proof.
  intros Hk Hint Hlag Hempty Hst n lpn handed.
  assert (Hq : stored_states_ lpn = skipn (n - k) (fresh_states m lp calls)).
  { unfold lpn. rewrite (DelayFacts.queue_run m k calls lp Hk Hint Hlag)
      by (rewrite Hempty; cbn; lia).
    rewrite Hempty. reflexivity. }
  assert (Hfl : length (fresh_states m lp calls) = n)
    by apply LagFacts.fresh_states_length.
  assert (Hlagn : Pipeline.lag_steps lpn = Z.of_nat k)
    by (unfold lpn; now rewrite LagFacts.lag_steps_run).
  split; [rewrite Hq, length_skipn; lia |].
  split.
  - intros Hn. unfold observed, Pipeline.lagged. rewrite Hlagn.
    rewrite LagFacts.trim_front_short
      by (rewrite LagFacts.as_size_t_int by lia;
          rewrite Hq, length_skipn; lia).
    rewrite LagFacts.lag_buffer_filling;
      [reflexivity | lia
       | rewrite LagFacts.as_size_t_int by lia;
         rewrite Hq, length_skipn; lia].
  - intros Hn. unfold observed, Pipeline.lagged. rewrite Hlagn.
    rewrite LagFacts.trim_front_short
      by (rewrite LagFacts.as_size_t_int by lia;
          rewrite Hq, length_skipn; lia).
    rewrite Hq.
    rewrite (DelayFacts.skipn_nth_cons _ _ _ []) by lia.
    rewrite LagFacts.lag_buffer_full;
      [| lia
       | rewrite LagFacts.as_size_t_int by lia;
         rewrite <- (DelayFacts.skipn_nth_cons _ _ _ []) by lia;
         rewrite length_skipn; lia].
    cbn [fst]. unfold handed.
    rewrite !LagFacts.slice_vec_copy;
      try (rewrite LagFacts.state_new_length; exact Hst); try lia.
    reflexivity.
Qed.

(** One step of lag and three calls so far: the queue holds one
    state. *)
Lemma lag_queue_is_a_delay_line_witness :
  length (stored_states_
            (@ModifyState_run Bench.engine Bench.hand Bench.leap_lag1
               [(Bench.loud, Bench.state_at 1 1);
                (Bench.quiet, Bench.state_at 2 2);
                (Bench.loud, Bench.state_at 3 3)])) = 1%nat.
Proof.
  apply (@lag_queue_is_a_delay_line Bench.engine Bench.hand 1
           Bench.leap_lag1
           [(Bench.loud, Bench.state_at 1 1);
            (Bench.quiet, Bench.state_at 2 2);
            (Bench.loud, Bench.state_at 3 3)]
           Bench.quiet (Bench.state_at 4 4)).
  - lia.
  - unfold INT_MAX. lia.
  - apply (RoundFacts.lag_steps_bench true (repeat 0 45) [] (1 / 2) 1).
  - reflexivity.
  - cbn. lia.
Defined.

(** ** Trimming the queue, and a negative lag *)

Module TrimFacts.
Import Pipeline.

(** The loop erases from the front until the length fits. *)
Lemma trim_front_skipn (lag : Z) (q : list (list R)) :
  trim_front lag q = skipn (length q - Z.to_nat (as_size_t lag)) q.
Proof.
  pose proof (LagFacts.as_size_t_nonneg lag) as Hs.
  induction q as [| x rest IH]; [now rewrite skipn_nil |].
  cbn [trim_front].
  destruct (Z.gtb_spec (Z.of_nat (length (x :: rest))) (as_size_t lag))
    as [Hlong | Hfits]; cbn [length] in *.
  - replace (S (length rest) - Z.to_nat (as_size_t lag))%nat
      with (S (length rest - Z.to_nat (as_size_t lag))) by lia.
    cbn [skipn]. exact IH.
  - replace (S (length rest) - Z.to_nat (as_size_t lag))%nat with 0%nat
      by lia.
    reflexivity.
Qed.

(** A negative [int] becomes a huge [size_t]. *)
Lemma as_size_t_negative (lag : Z) :
  (INT_MIN <= lag < 0)%Z -> as_size_t lag = (lag + 2 ^ 64)%Z.
Proof.
  intros Hl. unfold as_size_t, INT_MIN in *.
  symmetry. apply (Z.mod_unique_pos _ _ (-1)); lia.
Qed.

End TrimFacts.

(** X11.  Lowering the lag: for a lag [L] between 0 and [INT_MAX] the
    trimming loop at the start of [ModifyState] erases exactly the
    [size - L] oldest states and keeps the [L] newest in their order
    (nothing is erased when [size <= L]). *)
Theorem trim_keeps_the_newest (lag : Z) (q : list (list R)) :
  (0 <= lag <= INT_MAX)%Z ->
  Pipeline.trim_front lag q = skipn (length q - Z.to_nat lag) q
  /\ length (Pipeline.trim_front lag q) = Nat.min (length q) (Z.to_nat lag)
  /\ q = firstn (length q - Z.to_nat lag) q ++ Pipeline.trim_front lag q.
Proof.
  intros Hl.
  assert (E : Pipeline.trim_front lag q = skipn (length q - Z.to_nat lag) q).
  { rewrite TrimFacts.trim_front_skipn.
    now rewrite LagFacts.as_size_t_int by exact Hl. }
  rewrite E. split; [reflexivity |]. split.
  - rewrite length_skipn. lia.
  - now rewrite firstn_skipn.
Qed.

(** Three stored states and a lag of one: the newest is kept. *)
Lemma trim_keeps_the_newest_witness :
  Pipeline.trim_front 1 [[1]; [2]; [3]] = [[3]].
Proof.
  destruct (trim_keeps_the_newest 1 [[1]; [2]; [3]]) as [E _].
  - unfold INT_MAX. lia.
  - rewrite E. reflexivity.
Defined.

(** X12.  A negative lag setting ([parameters[12]] rounding to an [int]
    below zero) is not the same as no lag: the state handed back is the
    freshly computed one, as with lag 0, but the queue is neither emptied
    nor extended: it is frozen, because the negative [int] compared with
    the queue's [size_t] length counts as a huge bound. *)
Theorem negative_lag_freezes_queue `{Engine} (m : mjModel)
  (z : Pipeline.Gauss) (lp : Leap) (st : State) :
  (INT_MIN <= Pipeline.lag_steps lp < 0)%Z ->
  (Z.of_nat (length (stored_states_ lp)) < 2 ^ 63)%Z ->
  observed m z lp st
  = (Pipeline.slice (Pipeline.state_new m z lp st) 0 (nq m),
     Pipeline.slice (Pipeline.state_new m z lp st) (nq m) (nv m))
  /\ stored_states_ (fst (ModifyState m z lp st)) = stored_states_ lp.
Proof.
  intros Hl Hlen.
  assert (E : Pipeline.lagged m z lp st
              = (Pipeline.state_new m z lp st, stored_states_ lp)).
  { unfold Pipeline.lagged.
    rewrite LagFacts.trim_front_short.
    - apply LagFacts.lag_buffer_off. lia.
    - rewrite TrimFacts.as_size_t_negative by exact Hl.
      unfold INT_MIN in Hl. lia. }
  rewrite PipelineFacts.modify_stored. unfold observed. rewrite E.
  split; reflexivity.
Qed.

(** A lag setting of -3 with two states stored: both stay. *)
Lemma negative_lag_freezes_queue_witness :
  stored_states_
    (fst (@ModifyState Bench.engine Bench.hand Bench.quiet
            (Scene.leap_lag (-3) [[1]; [2]]) (Bench.state_at 1 1)))
  = [[1]; [2]].
Proof.
  apply (@negative_lag_freezes_queue Bench.engine Bench.hand Bench.quiet
           (Scene.leap_lag (-3) [[1]; [2]]) (Bench.state_at 1 1)).
  - unfold Scene.leap_lag.
    rewrite (RoundFacts.lag_steps_bench true (repeat 0 45) [[1]; [2]]
               (1 / 2) (-3)).
    unfold INT_MIN. lia.
  - cbn. lia.
Defined.

(** ** The filter memory across two calls *)

Module MemoryFacts.
Import Pipeline.

Lemma modify_memory `{Engine} (m : mjModel) (z : Gauss) (lp : Leap)
  (st : State) :
  last_time_ (fst (ModifyState m z lp st)) = time st
  /\ last_state_ (fst (ModifyState m z lp st))
     = vec_copy (last_state_ lp) 0 (state st) 0 (7 + 16 + 6 + 16).
Proof. unfold ModifyState. now destruct (lagged m z lp st). Qed.

(** After a call the first 45 entries of [last_state_] are those of the
    state the call was given. *)
Lemma modify_last_state_nth `{Engine} (m : mjModel) (z : Gauss) (lp : Leap)
  (st : State) (j : nat) :
  (45 <= length (last_state_ lp))%nat -> (j < 45)%nat ->
  nth j (last_state_ (fst (ModifyState m z lp st))) 0 = nth j (state st) 0.
Proof.
  intros Hlen Hj. destruct (modify_memory m z lp st) as [_ ->].
  rewrite VelocityFacts.vec_copy_nth by lia.
  assert (E : ((0 <=? j)%nat && (j <? 0 + (7 + 16 + 6 + 16))%nat) = true).
  { apply andb_true_iff. split; [apply Nat.leb_le | apply Nat.ltb_lt];
      cbn; lia. }
  rewrite E. f_equal. lia.
Qed.

(** The raw estimate reads only the first 23 entries of the stored
    state. *)
Lemma raw_velocity_ext (dt : R) (pos_cube : Vec3) (quat_cube : Quat)
  (s last last' : list R) (i : nat) :
  (i < 22)%nat ->
  (forall j, (j < 23)%nat -> nth j last 0 = nth j last' 0) ->
  raw_velocity dt pos_cube quat_cube s last i
  = raw_velocity dt pos_cube quat_cube s last' i.
Proof.
  intros Hi E. unfold raw_velocity, quat_at. cbn [Nat.add].
  rewrite (E i), (E 3%nat), (E 4%nat), (E 5%nat), (E 6%nat), (E (i + 1)%nat)
    by lia.
  reflexivity.
Qed.

End MemoryFacts.

(** C5.  The emitted estimate is to satisfy
    [filtered[t] = alpha raw[t] + (1 - alpha) filtered[t-1]], as the
    comment on line 460 says as well.  The code does not keep
    [filtered[t-1]]: line 465 stores the incoming state in [last_state_],
    and line 461 reads its velocity entries.  On the 16-servo hand with
    [alpha = 1/2], a first call on joints at angle 1 turning at rate 1
    emits 0 for the first joint; a second call one second later, on
    joints at angle 2, has the raw difference 1 and emits 1, where the
    recurrence gives 1/2. *)
Theorem filter_keeps_state_not_estimate :
  let alpha := parameters Bench.leap0 11 in
  let st1 := Scene.turning 1 1 1 in
  let st2 := Scene.turning 2 1 2 in
  let lp1 := fst (@ModifyState Bench.engine Bench.hand Bench.quiet
                    Bench.leap0 st1) in
  let first := nth 6 (@Pipeline.velocity Bench.engine Bench.quiet
                        Bench.leap0 st1) 0 in
  let raw :=
    Pipeline.raw_velocity (time st2 - last_time_ lp1)
      (Pipeline.noisy_pos Bench.quiet lp1 (state st2))
      (@Pipeline.noisy_quat Bench.engine Bench.quiet lp1 (state st2))
      (state st2) (last_state_ lp1) 6 in
  let second := nth 6 (@Pipeline.velocity Bench.engine Bench.quiet lp1
                         st2) 0 in
  alpha = 1 / 2
  /\ Pipeline.no_difference Bench.leap0 st1 = true /\ first = 0
  /\ Pipeline.no_difference lp1 st2 = false
  /\ time st2 - last_time_ lp1 = 1 /\ raw = 1
  /\ second = 1
  /\ spec_filtered alpha raw first = 1 / 2
  /\ second <> spec_filtered alpha raw first.
Proof.
  intros alpha st1 st2 lp1 first raw second.
  assert (Ha : alpha = 1 / 2) by reflexivity.
  assert (Hn1 : Pipeline.no_difference Bench.leap0 st1 = true)
    by reflexivity.
  assert (Hfirst : first = 0).
  { unfold first.
    rewrite (@VelocityFacts.velocity_nth Bench.engine) by lia.
    rewrite Hn1. cbn. lra. }
  destruct (@MemoryFacts.modify_memory Bench.engine Bench.hand Bench.quiet
              Bench.leap0 st1) as [Htime _].
  fold lp1 in Htime.
  assert (Hdt : time st2 - last_time_ lp1 = 1)
    by (rewrite Htime; cbn; lra).
  assert (Hn2 : Pipeline.no_difference lp1 st2 = false).
  { unfold Pipeline.no_difference. rewrite Hdt.
    unfold lp1. rewrite PipelineFacts.modify_first_time. cbn [orb].
    apply Rltb_false. lra. }
  assert (Hlast : forall j, (j < 45)%nat ->
                    nth j (last_state_ lp1) 0 = nth j (state st1) 0).
  { intros j Hj. unfold lp1.
    apply MemoryFacts.modify_last_state_nth; [cbn; lia | exact Hj]. }
  assert (Hraw : raw = 1).
  { unfold raw. rewrite Hdt.
    rewrite (MemoryFacts.raw_velocity_ext _ _ _ _ (last_state_ lp1)
               (state st1)) by (try lia; intros j Hj; apply Hlast; lia).
    unfold Pipeline.raw_velocity. cbn. lra. }
  assert (Hsecond : second = 1).
  { unfold second.
    rewrite (@VelocityFacts.velocity_nth Bench.engine) by lia.
    rewrite Hn2. fold raw. rewrite Hraw.
    rewrite Hlast by lia.
    unfold lp1. rewrite PipelineFacts.modify_parameters. cbn. lra. }
  assert (Hspec : spec_filtered alpha raw first = 1 / 2)
    by (rewrite Ha, Hraw, Hfirst; unfold spec_filtered; lra).
  repeat split; try assumption.
  rewrite Hsecond, Hspec. lra.
Qed.

(** X13.  What the filter remembers.  After a call on the state [st1]
    the memory of the filter is that incoming state: on the next call,
    [dt] is the time between the two states, the differences are taken
    against the positions of [st1] as they came in (without the noise
    and the lag the first call applied), and the term weighted by
    [1 - alpha] is the velocity entry of [st1] itself, not the estimate
    the first call emitted. *)
Theorem filter_memory_is_incoming_state `{Engine} (m : mjModel)
  (z1 z2 : Pipeline.Gauss) (lp : Leap) (st1 st2 : State) (i : nat) :
  (45 <= length (last_state_ lp))%nat ->
  (45 <= length (state st1))%nat ->
  (i < 22)%nat ->
  1e-6 <= time st2 - time st1 ->
  let lp1 := fst (ModifyState m z1 lp st1) in
  let alpha := parameters lp 11 in
  let dt := time st2 - time st1 in
  nth i (Pipeline.velocity z2 lp1 st2) 0
  = alpha * Pipeline.raw_velocity dt (Pipeline.noisy_pos z2 lp1 (state st2))
              (Pipeline.noisy_quat z2 lp1 (state st2)) (state st2)
              (state st1) i
    + (1 - alpha) * nth (23 + i) (state st1) 0.
Proof.
  intros Hlen Hst Hi Hdt lp1 alpha dt.
  rewrite VelocityFacts.velocity_nth by exact Hi.
  destruct (MemoryFacts.modify_memory m z1 lp st1) as [Htime _].
  fold lp1 in Htime. rewrite Htime. fold dt.
  assert (Hn : Pipeline.no_difference lp1 st2 = false).
  { unfold Pipeline.no_difference. rewrite Htime.
    unfold lp1. rewrite PipelineFacts.modify_first_time. cbn [orb].
    apply Rltb_false. exact Hdt. }
  assert (Hpar : parameters lp1 11 = alpha)
    by (unfold lp1; now rewrite PipelineFacts.modify_parameters).
  assert (Hprev : nth (23 + i) (last_state_ lp1) 0
                  = nth (23 + i) (state st1) 0)
    by (unfold lp1; apply MemoryFacts.modify_last_state_nth; lia).
  rewrite Hn, Hpar, Hprev.
  rewrite (MemoryFacts.raw_velocity_ext _ _ _ _ (last_state_ lp1)
             (state st1)); [reflexivity | exact Hi |].
  intros j Hj. unfold lp1.
  apply MemoryFacts.modify_last_state_nth; lia.
Qed.

(** Two calls one second apart on states whose entries are all 1 and
    then all 2, with [alpha = 1/2]: the first joint velocity emitted by
    the second call is 1/2 (2 - 1) + 1/2 1 = 1. *)
Lemma filter_memory_is_incoming_state_witness :
  nth 6 (@Pipeline.velocity Bench.engine Bench.loud
           (fst (@ModifyState Bench.engine Bench.hand Bench.quiet
                   Bench.leap0 (Bench.state_at 1 1)))
           (Bench.state_at 2 2)) 0 = 1.
Proof.
  rewrite (@filter_memory_is_incoming_state Bench.engine Bench.hand
             Bench.quiet Bench.loud Bench.leap0 (Bench.state_at 1 1)
             (Bench.state_at 2 2) 6%nat).
  - unfold Pipeline.raw_velocity. cbn. lra.
  - cbn. lia.
  - cbn. lia.
  - lia.
  - cbn. lra.
Defined.

(** ** The state handed back, slot by slot *)

Module SlotFacts.
Import Pipeline.

Ltac decide_bounds :=
  repeat match goal with
         | |- context [(?a <=? ?b)%nat] =>
             destruct (Nat.leb_spec a b); try lia
         | |- context [(?a <? ?b)%nat] =>
             destruct (Nat.ltb_spec a b); try lia
         end;
  cbn [andb].

(** The fresh observation, slot by slot. *)
Lemma state_new_nth `{Engine} (m : mjModel) (z : Gauss) (lp : Leap)
  (st : State) (i : nat) :
  (7 <= nq m)%nat -> (i < length (state st))%nat ->
  nth i (state_new m z lp st) 0
  = if (i <? 3)%nat
    then nth i (state st) 0 + vec3_nth (pos_noise z lp) i
    else if (i <? 7)%nat
    then nth (i - 3) (list4 (noisy_quat z lp (state st))) 0
    else if (i <? nq m)%nat then nth i (state st) 0
    else if (i <? nq m + nv m)%nat
    then nth (i - nq m) (velocity z lp st) 0
    else nth i (state st) 0.
Proof.
  intros Hq Hi. unfold state_new.
  rewrite VelocityFacts.vec_copy_nth
    by (now rewrite !VelocityFacts.vec_copy_length).
  destruct (Nat.ltb_spec i 3) as [H3 | H3].
  - decide_bounds.
    rewrite VelocityFacts.vec_copy_nth
      by (now rewrite !VelocityFacts.vec_copy_length).
    decide_bounds.
    rewrite VelocityFacts.vec_copy_nth by exact Hi.
    decide_bounds.
    unfold noisy_pos, mju_addTo3, vec3_at, list3. cbn [v0 v1 v2 Nat.add].
    destruct i as [| [| [| i]]]; [reflexivity | reflexivity | reflexivity |].
    lia.
  - destruct (Nat.ltb_spec i 7) as [H7 | H7].
    + decide_bounds.
      rewrite VelocityFacts.vec_copy_nth
        by (now rewrite !VelocityFacts.vec_copy_length).
      decide_bounds. reflexivity.
    + destruct (Nat.ltb_spec i (nq m)) as [Hn | Hn].
      * decide_bounds.
        rewrite VelocityFacts.vec_copy_nth
          by (now rewrite !VelocityFacts.vec_copy_length).
        decide_bounds.
        rewrite VelocityFacts.vec_copy_nth by exact Hi.
        decide_bounds. reflexivity.
      * destruct (Nat.ltb_spec i (nq m + nv m)) as [Hv | Hv].
        -- decide_bounds. reflexivity.
        -- decide_bounds.
           rewrite VelocityFacts.vec_copy_nth
             by (now rewrite !VelocityFacts.vec_copy_length).
           decide_bounds.
           rewrite VelocityFacts.vec_copy_nth by exact Hi.
           decide_bounds. reflexivity.
Qed.

(** Writing the positions and the velocities of a vector back into a
    state of the same length gives that vector's entries. *)
Lemma written_nth (m : mjModel) (st : State) (v : list R) (i : nat) :
  (i < length (state st))%nat ->
  nth i (state (SetVelocity m (SetPosition m st (slice v 0 (nq m)))
                            (slice v (nq m) (nv m)))) 0
  = if (i <? nq m + nv m)%nat then nth i v 0 else nth i (state st) 0.
Proof.
  intros Hi. unfold SetVelocity, SetPosition, slice. cbn [state].
  rewrite VelocityFacts.vec_copy_nth
    by (now rewrite VelocityFacts.vec_copy_length).
  destruct (Nat.ltb_spec i (nq m + nv m)) as [Hv | Hv].
  - destruct (Nat.ltb_spec i (nq m)) as [Hn | Hn].
    + decide_bounds.
      rewrite VelocityFacts.vec_copy_nth by exact Hi.
      decide_bounds.
      rewrite VelocityFacts.nth_map_seq by lia. f_equal. lia.
    + decide_bounds.
      rewrite VelocityFacts.nth_map_seq by lia. f_equal. lia.
  - decide_bounds.
    rewrite VelocityFacts.vec_copy_nth by exact Hi.
    decide_bounds. reflexivity.
Qed.

End SlotFacts.

(** X14.  Without lag, the state [ModifyState] hands back has the length
    and the time stamp of the one it was given and, slot by slot: the
    cube position plus the position noise (0-2), the noisy cube
    orientation (3-6), the joint positions as they came in (7 to
    [nq - 1]: they are never perturbed), the filtered velocity estimate
    in place of every velocity ([nq] to [nq + nv - 1], for the at most
    22 velocities the estimate has: the velocities of the simulation
    are not passed on), and anything beyond as it came in. *)
Theorem unlagged_state_slots `{Engine} (m : mjModel) (z : Pipeline.Gauss)
  (lp : Leap) (st : State) (i : nat) :
  Pipeline.lag_steps lp = 0%Z ->
  (7 <= nq m)%nat -> (nv m <= 6 + 16)%nat ->
  (i < length (state st))%nat ->
  let out := snd (ModifyState m z lp st) in
  length (state out) = length (state st)
  /\ time out = time st
  /\ nth i (state out) 0
     = if (i <? 3)%nat
       then nth i (state st) 0 + vec3_nth (Pipeline.pos_noise z lp) i
       else if (i <? 7)%nat
       then nth (i - 3) (list4 (Pipeline.noisy_quat z lp (state st))) 0
       else if (i <? nq m)%nat then nth i (state st) 0
       else if (i <? nq m + nv m)%nat
       then nth (i - nq m) (Pipeline.velocity z lp st) 0
       else nth i (state st) 0.
Proof.
  intros Hlag Hq Hv Hi out. unfold out.
  rewrite PipelineFacts.modify_written. unfold observed.
  rewrite (RoundFacts.lagged_zero m z lp st Hlag). cbn [fst].
  split; [| split].
  - unfold SetVelocity, SetPosition. cbn [state].
    now rewrite !VelocityFacts.vec_copy_length.
  - reflexivity.
  - rewrite SlotFacts.written_nth by exact Hi.
    rewrite SlotFacts.state_new_nth by assumption.
    destruct (Nat.ltb_spec i (nq m + nv m)) as [Hin | Hin]; [reflexivity |].
    SlotFacts.decide_bounds. reflexivity.
Qed.

(** On the bench, with entries all 1: joint position 10 comes back as
    1. *)
Lemma unlagged_state_slots_witness :
  nth 10 (state (snd (@ModifyState Bench.engine Bench.hand Bench.loud
                        Bench.leap0 (Bench.state_at 1 1)))) 0 = 1.
Proof.
  destruct (@unlagged_state_slots Bench.engine Bench.hand Bench.loud
              Bench.leap0 (Bench.state_at 1 1) 10%nat) as (_ & _ & E).
  - apply (RoundFacts.lag_steps_bench true (repeat 0 45) [] (1 / 2) 0).
  - cbn. lia.
  - cbn. lia.
  - cbn. lia.
  - rewrite E. reflexivity.
Defined.

(** ** The noise bound for any configured maximum *)

Module BoundFacts.
Import Pipeline.

Lemma bound_noise_any (noise_max v : R) :
  Rabs (bound_noise noise_max v) <= Rabs noise_max.
Proof.
  unfold bound_noise.
  destruct (Rgtb v noise_max) eqn:E1; [lra |].
  destruct (Rltb v (- noise_max)) eqn:E2; [rewrite Rabs_Ropp; lra |].
  apply Rgtb_false in E1. apply Rltb_false in E2.
  rewrite (Rabs_pos_eq noise_max) by lra. apply Rabs_le. lra.
Qed.

Lemma bound_noise_negative (noise_max v : R) :
  noise_max < 0 -> Rabs (bound_noise noise_max v) = - noise_max.
Proof.
  intros Hm. unfold bound_noise.
  destruct (Rgtb v noise_max) eqn:E1.
  - rewrite Rabs_left; lra.
  - apply Rgtb_false in E1.
    assert (E2 : Rltb v (- noise_max) = true) by (apply Rltb_true; lra).
    rewrite E2. rewrite Rabs_pos_eq; lra.
Qed.

Lemma bound_noise_zero (v : R) : bound_noise 0 v = 0.
Proof.
  pose proof (bound_noise_any 0 v) as Hb. rewrite Rabs_R0 in Hb.
  pose proof (Rabs_pos (bound_noise 0 v)) as Hp.
  destruct (Req_dec (bound_noise 0 v) 0) as [E | E]; [exact E |].
  apply Rabs_no_R0 in E. lra.
Qed.

End BoundFacts.

(** X15.  The noise bound for any configured maximum, also a zero or a
    negative one.  After every call each component of both noise walks
    is at most the absolute value of its maximum in absolute value,
    wherever the walk was before.  A maximum of zero switches the noise
    off: the position noise is zero and the cube position goes through
    unchanged.  A negative maximum does not: every component is then
    pinned at plus or minus the maximum. *)
Theorem noise_bound_any_maximum `{Engine} (m : mjModel) (z : Pipeline.Gauss)
  (lp : Leap) (st : State) :
  let lp' := fst (ModifyState m z lp st) in
  Pipeline.within (Rabs (parameters lp 9)) (quat_cube_noise_ lp')
  /\ Pipeline.within (Rabs (parameters lp 10)) (pos_cube_noise_ lp')
  /\ (parameters lp 10 = 0 ->
      pos_cube_noise_ lp' = mkVec3 0 0 0
      /\ Pipeline.noisy_pos z lp (state st) = vec3_at (state st) 0)
  /\ (parameters lp 10 < 0 ->
      Rabs (v0 (pos_cube_noise_ lp')) = - parameters lp 10
      /\ Rabs (v1 (pos_cube_noise_ lp')) = - parameters lp 10
      /\ Rabs (v2 (pos_cube_noise_ lp')) = - parameters lp 10).
Proof.
  intros lp'. unfold lp'.
  destruct (PipelineFacts.modify_noise m z lp st) as [-> ->].
  unfold Pipeline.within, Pipeline.quat_noise, Pipeline.pos_noise,
    Pipeline.bound_noise3.
  cbn [v0 v1 v2].
  split; [repeat split; apply BoundFacts.bound_noise_any |].
  split; [repeat split; apply BoundFacts.bound_noise_any |].
  split.
  - intros Hz. unfold Pipeline.noisy_pos, Pipeline.pos_noise,
      Pipeline.bound_noise3.
    rewrite Hz, !BoundFacts.bound_noise_zero.
    split; [reflexivity |].
    unfold mju_addTo3, vec3_at. cbn [v0 v1 v2]. f_equal; lra.
  - intros Hneg. repeat split; now apply BoundFacts.bound_noise_negative.
Qed.

(** A maximum of zero and a thousand standard deviations drawn: no
    position noise. *)
Lemma noise_bound_any_maximum_witness :
  pos_cube_noise_
    (fst (@ModifyState Bench.engine Bench.hand Bench.loud
            (Scene.leap_max 0) (Bench.state_at 1 1)))
  = mkVec3 0 0 0.
Proof.
  apply (@noise_bound_any_maximum Bench.engine Bench.hand Bench.loud
           (Scene.leap_max 0) (Bench.state_at 1 1)).
  reflexivity.
Defined.

(** ** Success at exact alignment and on a blank orientation sensor *)

Module AlignFacts.
Import Transition.






End AlignFacts.



(** ** The containment term at the edge of the rectangle *)

Module EdgeFacts.
Import Containment.

Lemma cos_theta_lower : 939 / 1000 <= cos theta.
Proof.
  destruct (pre_cos_bound theta 0) as [Hlow _];
    [unfold theta; lra | unfold theta; lra |].
  unfold cos_approx, cos_term in Hlow. simpl in Hlow.
  unfold theta in *. lra.
Qed.

Lemma tan_theta_pos : 0 < tan theta.
Proof.
  pose proof ContainmentFacts.PI_lower.
  apply tan_gt_0; unfold theta; lra.
Qed.

(** Over the palm's side of the origin the band ends below 7.23 cm. *)
Lemma band_max_upper (x : R) : 0 <= x -> band_max theta x <= 723 / 10000.
Proof.
  intros Hx. unfold band_max, band_min.
  pose proof cos_theta_lower as Hc. pose proof tan_theta_pos as Ht.
  assert (Hinv : / cos theta <= / (939 / 1000))
    by (apply Rinv_le_contravar; lra).
  unfold Rdiv. nra.
Qed.

End EdgeFacts.

(** X17.  The containment term jumps at the edge of the rectangle.  For
    a cube at least 7.23 cm up, the term is zero anywhere over the
    rectangle, whatever the height, while at any point outside it with
    [x >= 0], however close to the edge, the height band applies, its
    upper end lies below 7.23 cm and the term is at least
    [250 (z - 0.0723)]. *)
Theorem containment_jumps_at_the_edge (x y z : R) :
  723 / 10000 <= z ->
  (Containment.outside_rectangle x y = false ->
   Containment.residual0 x y z = 0)
  /\ (Containment.outside_rectangle x y = true -> 0 <= x ->
      Containment.band_max Containment.theta x <= 723 / 10000
      /\ 250 * (z - 723 / 10000) <= Containment.residual0 x y z).
Proof.
  intros Hz. split.
  - intros Hin. apply ContainmentFacts.outside_rectangle_false in Hin.
    rewrite ContainmentFacts.residual0_spec.
    apply ContainmentFacts.spec_residual_zero.
    split; [exact Hin | lra].
  - intros Hout Hx.
    pose proof (EdgeFacts.band_max_upper x Hx) as Hb.
    split; [exact Hb |].
    unfold Containment.residual0, Containment.dist, Containment.z_closest.
    rewrite Hout. cbv zeta.
    fold (Containment.band_max Containment.theta x) in *.
    unfold Containment.band_max in *.
    set (z_min := Containment.band_min Containment.theta x) in *.
    rewrite mju_min_Rmin, mju_max_Rmax.
    rewrite Rmin_right by lra. rewrite Rmax_right by lra.
    set (dx := Containment.x_closest x - x).
    set (dy := Containment.y_closest y - y).
    assert (Hs : z - (z_min + 0.035)
                 <= sqrt (dx ^ 2 + dy ^ 2 + (z_min + 0.035 - z) ^ 2)).
    { rewrite <- (sqrt_square (z - (z_min + 0.035))) at 1 by lra.
      apply sqrt_le_1_alt. nra. }
    lra.
Qed.

(** One metre above the palm: free over the rectangle, and at least
    231 just beside it. *)
Lemma containment_jumps_at_the_edge_witness :
  Containment.residual0 0.14 0 1 = 0
  /\ 231 <= Containment.residual0 0.15 0 1.
Proof.
  assert (Hin : Containment.outside_rectangle 0.14 0 = false).
  { apply ContainmentFacts.outside_rectangle_false.
    unfold Containment.in_rectangle. lra. }
  assert (Hout : Containment.outside_rectangle 0.15 0 = true).
  { apply ContainmentFacts.outside_rectangle_true.
    unfold Containment.in_rectangle. lra. }
  split.
  - apply (proj1 (containment_jumps_at_the_edge 0.14 0 1 ltac:(lra)) Hin).
  - destruct (proj2 (containment_jumps_at_the_edge 0.15 0 1 ltac:(lra))
                    Hout ltac:(lra)) as [_ Hge].
    lra.
Defined.

(** ** The continuous sampler as a search *)

Module SearchFacts.
Import Transition.

Lemma sample_free_find (q_gco_conj : Quat) (draws : list (R * R * R)) :
  sample_free q_gco_conj draws
  = option_map candidate_of (find (far_enough q_gco_conj) draws).
Proof.
  induction draws as [| [[a b] c] rest IH]; [reflexivity |].
  cbn [sample_free find]. unfold far_enough at 1. cbn [fst snd].
  destruct (nan_ge _ 90.0); [reflexivity | exact IH].
Qed.

End SearchFacts.

(** X18.  The continuous sampler returns the candidate of the first
    drawn triple whose candidate is at least 90 degrees from the prior
    goal; every triple drawn before it was rejected, and the loop is
    still drawing at the end of the draws exactly when every draw was
    rejected. *)
Theorem continuous_sampler_takes_first_far (q_gco_conj : Quat)
  (draws : list (R * R * R)) :
  Transition.sample_free q_gco_conj draws
  = option_map candidate_of (find (far_enough q_gco_conj) draws)
  /\ (Transition.sample_free q_gco_conj draws = None
      <-> Forall (fun abc => far_enough q_gco_conj abc = false) draws)
  /\ (forall q_goal,
         Transition.sample_free q_gco_conj draws = Some q_goal ->
         exists before abc after,
           draws = before ++ abc :: after
           /\ q_goal = candidate_of abc
           /\ far_enough q_gco_conj abc = true
           /\ Forall (fun abc' => far_enough q_gco_conj abc' = false)
                     before).
Proof.
  pose proof (SearchFacts.sample_free_find q_gco_conj draws) as E.
  split; [exact E |]. rewrite E. split.
  - split.
    + intros Hnone. apply Forall_forall. intros abc Hin.
      destruct (find _ draws) eqn:Ef; [discriminate |].
      exact (find_none _ _ Ef abc Hin).
    + intros Hall. destruct (find _ draws) as [abc |] eqn:Ef;
        [| reflexivity].
      apply find_some in Ef as [Hin Hfar].
      rewrite Forall_forall in Hall. rewrite (Hall abc Hin) in Hfar.
      discriminate.
  - clear E. induction draws as [| abc rest IH]; intros q_goal Hq;
      [discriminate |].
    cbn [find] in Hq. destruct (far_enough q_gco_conj abc) eqn:Hfar.
    + injection Hq as <-. exists [], abc, rest.
      repeat split; [exact Hfar | constructor].
    + destruct (IH q_goal Hq) as (before & abc' & after & -> & -> & Hf & Hb).
      exists (abc :: before), abc', after.
      repeat split; [exact Hf | now constructor].
Qed.

(** With the prior goal at the identity the triple (0, 0, 0) gives a
    half turn about x: it is the accepted one. *)
Lemma continuous_sampler_takes_first_far_witness :
  exists before abc after,
    [(0, 0, 0); (1 / 2, 0, 0)] = before ++ abc :: after
    /\ mkQuat 0 1 0 0 = candidate_of abc
    /\ far_enough (mkQuat 1 0 0 0) abc = true
    /\ Forall (fun abc' => far_enough (mkQuat 1 0 0 0) abc' = false) before.
Proof.
  apply (proj2 (proj2 (continuous_sampler_takes_first_far (mkQuat 1 0 0 0)
                         [(0, 0, 0); (1 / 2, 0, 0)]))).
  apply FreeFacts.sample_free_origin.
Defined.

(** ** The 80-second timer across steps *)

(** X19.  The timeout is measured from the last goal change, whatever
    caused it.  After a step that changed the goal (success, drop or
    timeout) the next step times out exactly when its clock reading is
    more than 80 seconds past the reading taken at that goal change;
    after a step that did not, the timer runs on from where it was. *)
Theorem goal_change_restarts_timer `{Engine} (m : mjModel)
  (clk clk' : Clock) (rng : Draws) (lp lp' : Leap) (d d' : mjData) :
  TransitionLocked m clk rng lp d = Some (lp', d') ->
  (Transition.change_goal m clk lp d = true ->
   (Transition.timed_out clk' lp' = true
    <-> 80 < now_since_rotation clk' - now_at_goal_change clk))
  /\ (Transition.change_goal m clk lp d = false ->
      Transition.timed_out clk' lp' = Transition.timed_out clk' lp).
Proof.
  intros Hstep.
  pose proof (TransitionFacts.transition_summary m clk rng lp lp' d d' Hstep)
    as (_ & _ & _ & Hrot & _).
  unfold Transition.timed_out. rewrite Hrot.
  split; intros Hc; rewrite Hc.
  - rewrite Rgtb_true. lra.
  - reflexivity.
Qed.

(** A drop at 7 seconds on the bench: a step at 80 seconds is not late,
    a step at 88 seconds is. *)
Lemma goal_change_restarts_timer_witness :
  exists lp' d',
    @TransitionLocked Bench.engine Bench.hand (Bench.clock 7) Bench.draws
      Bench.leap0 (Bench.data Bench.sensors_aligned [mkContact 1 0])
    = Some (lp', d')
    /\ Transition.timed_out (Bench.clock 88) lp' = true.
Proof.
  destruct (@ProgressFacts.transition_returns_discrete Bench.engine
              Bench.hand (Bench.clock 7) Bench.draws Bench.leap0
              (Bench.data Bench.sensors_aligned [mkContact 1 0]) 1 0 [])
    as (lp' & d' & Hstep).
  - cbn. lia.
  - reflexivity.
  - cbn. lia.
  - exists lp', d'. split; [exact Hstep |].
    apply (proj1 (@goal_change_restarts_timer Bench.engine Bench.hand
                    (Bench.clock 7) (Bench.clock 88) Bench.draws
                    Bench.leap0 lp'
                    (Bench.data Bench.sensors_aligned [mkContact 1 0]) d'
                    Hstep)).
    + reflexivity.
    + cbn. lra.
Defined.

(** ** The position bias over many calls *)

Module DriftFacts.
Import Pipeline.

Lemma drift_step (mx b w : R) :
  0 <= b -> 0 <= w <= mx -> bound_noise mx (w + b) = Rmin (w + b) mx.
Proof.
  intros Hb Hw. unfold bound_noise, Rmin.
  destruct (Rgtb (w + b) mx) eqn:E1.
  - apply Rgtb_true in E1. destruct (Rle_dec (w + b) mx); lra.
  - apply Rgtb_false in E1.
    assert (E2 : Rltb (w + b) (- mx) = false) by (apply Rltb_false; lra).
    rewrite E2. destruct (Rle_dec (w + b) mx); lra.
Qed.

Lemma drift_more (mx b w nb : R) :
  0 <= b -> 0 <= nb -> 0 <= w <= mx ->
  Rmin (Rmin (w + b) mx + nb) mx = Rmin (w + (nb + b)) mx.
Proof.
  intros Hb Hn Hw. unfold Rmin.
  destruct (Rle_dec (w + b) mx);
    repeat match goal with
           | |- context [Rle_dec ?a ?c] => destruct (Rle_dec a c)
           end; lra.
Qed.

Lemma drift_inside (mx b w : R) :
  0 <= b -> 0 <= w <= mx -> 0 <= Rmin (w + b) mx <= mx.
Proof.
  intros Hb Hw. unfold Rmin. destruct (Rle_dec (w + b) mx); lra.
Qed.

(** One call without spread, component by component. *)
Lemma modify_drift `{Engine} (m : mjModel) (z : Gauss) (lp : Leap)
  (st : State) :
  parameters lp 5 = 0 ->
  pos_cube_noise_ (fst (ModifyState m z lp st))
  = mkVec3
      (bound_noise (parameters lp 10)
                   (v0 (pos_cube_noise_ lp) + parameters lp 6))
      (bound_noise (parameters lp 10)
                   (v1 (pos_cube_noise_ lp) + parameters lp 7))
      (bound_noise (parameters lp 10)
                   (v2 (pos_cube_noise_ lp) + parameters lp 8)).
Proof.
  intros Hstd. destruct (PipelineFacts.modify_noise m z lp st) as [_ ->].
  unfold pos_noise, bound_noise3, mju_addTo3, absl_Gaussian.
  cbn [v0 v1 v2]. rewrite Hstd. f_equal; f_equal; lra.
Qed.

End DriftFacts.

(** X20.  The position bias is a drift per call, not an offset.  With no
    spread ([parameters[5] = 0]), biases that are not negative and a walk
    that starts between 0 and the maximum, after [n] calls each
    component of the position noise is its start plus [n] times its
    bias, cut off at the maximum. *)
Theorem position_bias_is_a_drift `{Engine} (m : mjModel)
  (calls : list (Pipeline.Gauss * State)) :
  forall lp,
    parameters lp 5 = 0 ->
    0 <= parameters lp 6 -> 0 <= parameters lp 7 -> 0 <= parameters lp 8 ->
    0 <= v0 (pos_cube_noise_ lp) <= parameters lp 10 ->
    0 <= v1 (pos_cube_noise_ lp) <= parameters lp 10 ->
    0 <= v2 (pos_cube_noise_ lp) <= parameters lp 10 ->
    let n := INR (length calls) in
    pos_cube_noise_ (ModifyState_run m lp calls)
    = mkVec3
        (Rmin (v0 (pos_cube_noise_ lp) + n * parameters lp 6)
              (parameters lp 10))
        (Rmin (v1 (pos_cube_noise_ lp) + n * parameters lp 7)
              (parameters lp 10))
        (Rmin (v2 (pos_cube_noise_ lp) + n * parameters lp 8)
              (parameters lp 10)).
Proof.
  induction calls as [| [z st] rest IH];
    intros lp Hstd Hb0 Hb1 Hb2 Hw0 Hw1 Hw2 n.
  - cbn [ModifyState_run]. unfold n. cbn [length INR].
    destruct (pos_cube_noise_ lp) as [a b c]. cbn [v0 v1 v2] in *.
    f_equal; (rewrite Rmin_left; lra).
  - cbn [ModifyState_run].
    pose proof (DriftFacts.modify_drift m z lp st Hstd) as Hstep.
    rewrite !DriftFacts.drift_step in Hstep by assumption.
    pose proof (PipelineFacts.modify_parameters m z lp st) as Hpar.
    set (lp1 := fst (ModifyState m z lp st)) in *.
    rewrite IH; rewrite ?Hpar, ?Hstep; cbn [v0 v1 v2];
      try assumption; try (now apply DriftFacts.drift_inside).
    unfold n. cbn [length]. rewrite S_INR.
    pose proof (pos_INR (length rest)) as Hn.
    f_equal;
      (rewrite DriftFacts.drift_more by (try assumption; nra);
       f_equal; ring).
Qed.

(** No spread, a bias of 0.01 along x and a maximum of 0.05: after two
    calls the offset along x is 0.02. *)
Lemma position_bias_is_a_drift_witness :
  v0 (pos_cube_noise_
        (@ModifyState_run Bench.engine Bench.hand
           (Bench.leap true (repeat 0 45) [] Scene.tunables_drift)
           [(Bench.loud, Bench.state_at 1 1);
            (Bench.loud, Bench.state_at 2 2)]))
  = 0.02.
Proof.
  rewrite (@position_bias_is_a_drift Bench.engine Bench.hand
             [(Bench.loud, Bench.state_at 1 1);
              (Bench.loud, Bench.state_at 2 2)]
             (Bench.leap true (repeat 0 45) [] Scene.tunables_drift));
    try (cbn; lra).
  cbn. rewrite Rmin_left; lra.
Defined.
